(** * Transformer notebooks: a shallow embedding and its verified properties

    The repository holds three notebooks.  The first one defines the
    forecasting model ([Attention], [MultiHeadAttention], [FeedForward],
    [TimeSeriesTransformer]); the second and third define the
    encoder/decoder building blocks ([LayerNormalization],
    [MultiHeadAttentionBlock], [ResidualConnection], [EncoderBlock], ...),
    the third being a prefix of the second.

    Modelling conventions.
    - Tensors are nested lists of real numbers: float arithmetic is
      idealised (no rounding, no overflow).  The only non-finite values
      tracked are the ones the code writes itself: [float('-inf')] in
      [masked_fill], and the NaN rows that [F.softmax] returns for a row of
      [-inf] only.
    - A Python call either returns, raises, or goes on with inf/NaN values
      that the real-valued model cannot follow: [Ok], [Raise], [NonFinite].
    - Sizes are natural numbers.  The shape of a nested list is read off its
      first elements, as far as there are any: behind an empty axis the
      sizes of the later axes are lost, so the statements about shapes
      assume non-empty axes where that matters.
    - The engine's random choices are arguments: initial parameter values
      are passed to the constructors, the keep/drop decisions of a dropout
      call are passed to the call. *)

From Stdlib Require Import String.
From Stdlib Require Import Reals Lra Lia ZArith Bool Arith List.
Import ListNotations.
Open Scope string_scope.
Open Scope list_scope.
Open Scope nat_scope.

(** ** Outcomes of Python calls *)

Inductive exn : Type :=
| AttributeError (msg : string)
| TypeError (msg : string)
| AssertionError (msg : string)
| ZeroDivisionError (msg : string)
| IndexError (msg : string)
| ValueError (msg : string)
| RuntimeError (msg : string)
| UnboundLocalError (msg : string).

Inductive result (A : Type) : Type :=
| Ok (a : A)
| Raise (e : exn)
| NonFinite.

Arguments Ok {A} a.
Arguments Raise {A} e.
Arguments NonFinite {A}.

Definition bind {A B : Type} (c : result A) (k : A -> result B) : result B :=
  match c with
  | Ok a => k a
  | Raise e => Raise e
  | NonFinite => NonFinite
  end.

Notation "x <- c ;; k" := (bind c (fun x => k))
  (at level 61, c at next level, right associativity).
Notation "' p <- c ;; k" := (bind c (fun p => k))
  (at level 61, p pattern, c at next level, right associativity).

Definition raises {A : Type} (c : result A) : Prop := exists e, c = Raise e.

Fixpoint mapM {A B : Type} (f : A -> result B) (l : list A) : result (list B) :=
  match l with
  | [] => Ok []
  | a :: l' => b <- f a ;; bs <- mapM f l' ;; Ok (b :: bs)
  end.

(** ** Nested-list tensors *)

Abbreviation vec := (list R).
Abbreviation mat := (list (list R)).
Abbreviation tensor3 := (list (list (list R))).
Abbreviation tensor4 := (list (list (list (list R)))).

Definition tabulate {A : Type} (n : nat) (f : nat -> A) : list A :=
  map f (seq 0 n).

Definition Rsum (l : list R) : R := fold_right Rplus 0%R l.

Definition dot (u v : vec) : R :=
  Rsum (map (fun p => (fst p * snd p)%R) (combine u v)).

(** Regular nested lists: the shapes [(n, m)] and [(b, n, m)]. *)
Definition shape2 {A : Type} (n m : nat) (x : list (list A)) : Prop :=
  length x = n /\ Forall (fun v => length v = m) x.

Definition shape3 {A : Type} (b n m : nat) (x : list (list (list A))) : Prop :=
  length x = b /\ Forall (shape2 n m) x.

(** Two-sided broadcasting of one axis, as torch does it for tensors of the
    same rank: equal sizes pair up, a size of one is repeated. *)
Definition bzip {A B C : Type} (f : A -> B -> result C)
    (la : list A) (lb : list B) : result (list C) :=
  if length la =? length lb
  then mapM (fun p => f (fst p) (snd p)) (combine la lb)
  else match la, lb with
       | [a], _ => mapM (f a) lb
       | _, [b] => mapM (fun a => f a b) la
       | _, _ => Raise (RuntimeError "The size of tensor a must match the size of tensor b")
       end.

(** [Tensor.expand] along one axis: the size is the target size or one. *)
Definition expand {A : Type} (n : nat) (l : list A) : result (list A) :=
  if length l =? n then Ok l
  else match l with
       | [a] => Ok (repeat a n)
       | _ => Raise (RuntimeError "The expanded size of the tensor must match the existing size")
       end.

(** ** Softmax over the key axis *)

(** A score after [masked_fill(..., float('-inf'))]. *)
Inductive score : Type :=
| Sc (r : R)
| NegInf.

(** An attention weight: a real number or NaN. *)
Inductive fl : Type :=
| Fin (r : R)
| NaN.

Definition is_neg_inf (s : score) : bool :=
  match s with NegInf => true | Sc _ => false end.

Definition exp_score (s : score) : R :=
  match s with Sc r => exp r | NegInf => 0%R end.

(** [F.softmax(scores, dim=-1)] on one row.  A row of [-inf] only gives NaN
    in every entry ([-inf - max] is NaN); otherwise [exp(-inf)] is [0]. *)
Definition F_softmax (row : list score) : list fl :=
  if forallb is_neg_inf row
  then map (fun _ => NaN) row
  else let z := Rsum (map exp_score row) in
       map (fun s => Fin (exp_score s / z)) row.

(** [Tensor.softmax(dim=-1)] on a row of finite scores. *)
Definition softmax (row : list R) : list R :=
  let z := Rsum (map exp row) in
  map (fun s => (exp s / z)%R) row.

(** The real value of a weight, where it has one. *)
Definition fl_val (w : fl) : R := match w with Fin r => r | NaN => 0%R end.

Definition is_fin (w : fl) : Prop := match w with Fin _ => True | NaN => False end.

(** A row of weights is a probability row: every entry is a real number,
    none is negative, and they add up to one. *)
Definition prob_row (ws : list fl) : Prop :=
  Forall (fun w => is_fin w /\ (0 <= fl_val w)%R) ws /\ Rsum (map fl_val ws) = 1%R.

(** ** torch.nn building blocks shared by the notebooks *)

(** Initial values of the parameters of a linear layer, as drawn by the
    engine's initialiser. *)
Record LinearInit : Type := {
  init_weight : nat -> nat -> R;
  init_bias : nat -> R
}.

(** [nn.Linear]: [weight] has shape (out_features, in_features). *)
Record Linear : Type := {
  in_features : nat;
  out_features : nat;
  weight : mat;
  bias : option vec
}.

Definition nn_Linear (in_f out_f : nat) (use_bias : bool) (p : LinearInit) : Linear :=
  {| in_features := in_f;
     out_features := out_f;
     weight := tabulate out_f (fun o => tabulate in_f (init_weight p o));
     bias := if use_bias then Some (tabulate out_f (init_bias p)) else None |}.

Definition zipWith {A B C : Type} (g : A -> B -> C) (la : list A) (lb : list B) : list C :=
  map (fun p => g (fst p) (snd p)) (combine la lb).

(** The affine map of a linear layer on one feature vector. *)
Definition affine (l : Linear) (v : vec) : vec :=
  let y := map (fun row => dot row v) (weight l) in
  match bias l with
  | Some b => zipWith Rplus y b
  | None => y
  end.

Definition Linear_apply (l : Linear) (v : vec) : result vec :=
  if length v =? in_features l
  then Ok (affine l v)
  else Raise (RuntimeError "mat1 and mat2 shapes cannot be multiplied").

(** [Linear.forward] acts on the last axis. *)
Definition Linear_forward2 (l : Linear) (x : mat) : result mat :=
  mapM (Linear_apply l) x.

Definition Linear_forward (l : Linear) (x : tensor3) : result tensor3 :=
  mapM (Linear_forward2 l) x.

(** [nn.Dropout]. *)
Record Dropout : Type := {
  p : R;
  training : bool
}.

Definition nn_Dropout (rate : R) : result Dropout :=
  if Rlt_dec rate 0 then
    Raise (ValueError "dropout probability has to be between 0 and 1")
  else if Rlt_dec 1 rate then
    Raise (ValueError "dropout probability has to be between 0 and 1")
  else Ok {| p := rate; training := true |}.

Definition imap {A B : Type} (f : nat -> A -> B) (l : list A) : list B :=
  zipWith f (seq 0 (length l)) l.

(** The keep/drop decisions of one dropout call on a 3-axis tensor: entry
    [(b, i, k)] is the Bernoulli(1 - p) sample drawn for that position. *)
Definition keep3 : Type := nat -> nat -> nat -> bool.

Definition dropout_entry (d : Dropout) (keep : bool) (x : R) : R :=
  if keep then (x / (1 - p d))%R else 0%R.

(** [Dropout.forward]: the identity in evaluation mode; in training mode
    dropped entries are zero and kept ones are scaled by [1 / (1 - p)]. *)
Definition Dropout_forward (d : Dropout) (keep : keep3) (x : tensor3) : tensor3 :=
  if training d
  then imap (fun b => imap (fun i => imap (fun k => dropout_entry d (keep b i k)))) x
  else x.

Definition relu (x : R) : R := Rmax 0 x.

(** [x.shape] of a tensor with three axes. *)
Definition batch_size_of (x : tensor3) : nat := length x.
Definition seq_length_of (x : tensor3) : nat := length (hd [] x).

(** * Notebook 1: the forecasting model *)

(** ** [Attention] *)

Record AttentionInit : Type := {
  init_key : LinearInit;
  init_query : LinearInit;
  init_value : LinearInit
}.

(** [causal_mask] is the registered buffer, [None] until the first causal
    forward pass. *)
Record Attention : Type := {
  key : Linear;
  query : Linear;
  value : Linear;
  scale : R;
  causal : bool;
  causal_mask : option (list (list bool))
}.

(** [Attention.__init__].  [head_size ** -0.5] raises for [head_size = 0]. *)
Definition Attention_init (feature_size head_size : nat) (causal : bool)
    (w : AttentionInit) : result Attention :=
  let key := nn_Linear feature_size head_size false (init_key w) in
  let query := nn_Linear feature_size head_size false (init_query w) in
  let value := nn_Linear feature_size head_size false (init_value w) in
  if head_size =? 0
  then Raise (ZeroDivisionError "0.0 cannot be raised to a negative power")
  else Ok {| key := key; query := query; value := value;
             scale := (/ sqrt (INR head_size))%R;
             causal := causal;
             causal_mask := None |}.

(** The user mask of [Attention.forward]: a tensor with one or two axes
    ([unsqueeze(1)] followed by [expand_as(scores)] accepts no other rank). *)
Inductive user_mask : Type :=
| Mask1 (m : list Z)
| Mask2 (m : list (list Z)).

(** [mask.unsqueeze(1).expand_as(scores)] for scores of shape [(B, T, T)]. *)
Definition expand_as_scores (m : user_mask) (B T : nat) : result (list (list (list Z))) :=
  match m with
  | Mask2 m =>
      mb <- expand B m ;;
      mapM (fun r => r' <- expand T r ;; Ok (repeat r' T)) mb
  | Mask1 m =>
      mq <- expand T m ;;
      Ok (repeat (map (fun z => repeat z T) mq) B)
  end.

(** [torch.tril(torch.ones((n, n))).bool()] *)
Definition tril (n : nat) : list (list bool) :=
  tabulate n (fun i => tabulate n (fun j => j <=? i)).

(** [scores.masked_fill(m, float('-inf'))] on one entry. *)
Definition fill (s : score) (m : bool) : result score :=
  Ok (if m then NegInf else s).

(** [torch.matmul(q, k.transpose(-2, -1)) * scale] for one batch element. *)
Definition scaled_scores (scale : R) (q k : mat) : result (list (list R)) :=
  mapM (fun qi =>
    mapM (fun kj =>
      if length qi =? length kj
      then Ok (dot qi kj * scale)%R
      else Raise (RuntimeError "mat1 and mat2 shapes cannot be multiplied")) k) q.

Definition fl_real (w : fl) : result R :=
  match w with Fin r => Ok r | NaN => NonFinite end.

Definition column (c : nat) (b : mat) : vec := map (fun r => nth c r 0%R) b.

(** [torch.matmul(w, v)] for one batch element, [v] having [ncols] columns. *)
Definition weighted_sum (ncols : nat) (w : list (list fl)) (v : mat) : result mat :=
  mapM (fun row =>
    if length row =? length v
    then ws <- mapM fl_real row ;;
         Ok (tabulate ncols (fun c => dot ws (column c v)))
    else Raise (RuntimeError "mat1 and mat2 shapes cannot be multiplied")) w.

(** The causal branch of [Attention.forward]: the cached mask is rebuilt when
    there is none or its size differs from the sequence length. *)
Definition causal_buffer (self : Attention) (seq_length : nat) : list (list bool) :=
  match causal_mask self with
  | Some m => if length m =? seq_length then m else tril seq_length
  | None => tril seq_length
  end.

Definition set_causal_mask (self : Attention) (m : list (list bool)) : Attention :=
  {| key := key self; query := query self; value := value self;
     scale := scale self; causal := causal self; causal_mask := Some m |}.

(** [Attention.forward] up to [attn_weights = F.softmax(scores, dim=-1)]:
    the weights, the values [v], and the instance with its buffer. *)
Definition Attention_attn_weights (self : Attention) (x : tensor3) (mask : option user_mask)
    : result (list (list (list fl)) * tensor3 * Attention) :=
  let batch_size := batch_size_of x in
  let seq_length := seq_length_of x in
  k <- Linear_forward (key self) x ;;
  q <- Linear_forward (query self) x ;;
  v <- Linear_forward (value self) x ;;
  scores <- bzip (scaled_scores (scale self)) q k ;;
  let scores := map (map (map Sc)) scores in
  '(scores, self) <-
    (if causal self
     then let m := causal_buffer self seq_length in
          let self := set_causal_mask self m in
          s <- mapM (fun sb => bzip (bzip fill) sb (map (map negb) m)) scores ;;
          Ok (s, self)
     else Ok (scores, self)) ;;
  scores <-
    match mask with
    | Some mask =>
        mask <- expand_as_scores mask batch_size seq_length ;;
        bzip (bzip (bzip fill)) scores (map (map (map (Z.eqb 0))) mask)
    | None => Ok scores
    end ;;
  let attn_weights := map (map F_softmax) scores in
  Ok (attn_weights, v, self).

(** [Attention.forward]: only [output] is returned. *)
Definition Attention_forward (self : Attention) (x : tensor3) (mask : option user_mask)
    : result (tensor3 * Attention) :=
  '(attn_weights, v, self) <- Attention_attn_weights self x mask ;;
  output <- bzip (weighted_sum (out_features (value self))) attn_weights v ;;
  Ok (output, self).

(** ** [MultiHeadAttention] *)

Record MultiHeadAttentionInit : Type := {
  init_heads : nat -> AttentionInit;
  init_output_projection : LinearInit
}.

Record MultiHeadAttention : Type := {
  heads : list Attention;
  output_projection : Linear
}.

(** [MultiHeadAttention.__init__]: no relation between [feature_size],
    [num_heads] and [head_size] is asserted. *)
Definition MultiHeadAttention_init (num_heads head_size feature_size : nat)
    (w : MultiHeadAttentionInit) : result MultiHeadAttention :=
  heads <- mapM (fun i => Attention_init feature_size head_size false (init_heads w i))
                (seq 0 num_heads) ;;
  Ok {| heads := heads;
        output_projection :=
          nn_Linear (num_heads * head_size) feature_size true (init_output_projection w) |}.

(** Pairing of two lists of the same length. *)
Definition szip {A B C : Type} (f : A -> B -> result C)
    (la : list A) (lb : list B) : result (list C) :=
  if length la =? length lb
  then mapM (fun p => f (fst p) (snd p)) (combine la lb)
  else Raise (RuntimeError "Sizes of tensors must match except in dimension 2").

(** [torch.cat(tensors, dim=-1)] *)
Definition cat2 (a b : tensor3) : result tensor3 :=
  szip (szip (fun u v => Ok (u ++ v))) a b.

Definition cat_last (tensors : list tensor3) : result tensor3 :=
  match tensors with
  | [] => Raise (RuntimeError "torch.cat(): expected a non-empty list of Tensors")
  | t :: ts => fold_left (fun acc t' => a <- acc ;; cat2 a t') ts (Ok t)
  end.

Definition MultiHeadAttention_forward (self : MultiHeadAttention) (x : tensor3)
    (mask : option user_mask) : result (tensor3 * MultiHeadAttention) :=
  outs <- mapM (fun head => Attention_forward head x mask) (heads self) ;;
  let head_outputs := map fst outs in
  concatenated <- cat_last head_outputs ;;
  y <- Linear_forward (output_projection self) concatenated ;;
  Ok (y, {| heads := map snd outs; output_projection := output_projection self |}).

(** ** [FeedForward] *)

Record FeedForwardInit : Type := {
  init_net_0 : LinearInit;
  init_net_3 : LinearInit
}.

(** [nn.Sequential(Linear, ReLU, Dropout, Linear)] *)
Record FeedForward : Type := {
  net_0 : Linear;
  net_2 : Dropout;
  net_3 : Linear
}.

Definition FeedForward_init (n_embd expansion_factor : nat) (dropout_rate : R)
    (w : FeedForwardInit) : result FeedForward :=
  let l0 := nn_Linear n_embd (n_embd * expansion_factor) true (init_net_0 w) in
  d <- nn_Dropout dropout_rate ;;
  let l3 := nn_Linear (n_embd * expansion_factor) n_embd true (init_net_3 w) in
  Ok {| net_0 := l0; net_2 := d; net_3 := l3 |}.

Definition FeedForward_forward (self : FeedForward) (keep : keep3) (x : tensor3)
    : result tensor3 :=
  h <- Linear_forward (net_0 self) x ;;
  let h := map (map (map relu)) h in
  let h := Dropout_forward (net_2 self) keep h in
  Linear_forward (net_3 self) h.

(** ** [TimeSeriesTransformer] *)

Record TimeSeriesTransformerInit : Type := {
  init_position_embedding_table : nat -> nat -> R;
  init_input_projection : LinearInit;
  init_sa_heads : MultiHeadAttentionInit;
  init_ffwd : FeedForwardInit;
  init_forecast_projection : LinearInit
}.

Record TimeSeriesTransformer : Type := {
  forecast_horizon : nat;
  position_embedding_table : mat;
  input_projection : Linear;
  sa_heads : MultiHeadAttention;
  ffwd : FeedForward;
  forecast_projection : Linear  (* [self.output_projection] *)
}.

Definition TimeSeriesTransformer_init (n_embd block_size forecast_horizon : nat)
    (w : TimeSeriesTransformerInit) : result TimeSeriesTransformer :=
  let table := tabulate block_size
                 (fun i => tabulate n_embd (init_position_embedding_table w i)) in
  let input_projection := nn_Linear 1 n_embd true (init_input_projection w) in
  sa_heads <- MultiHeadAttention_init 4 (n_embd / 4) n_embd (init_sa_heads w) ;;
  ffwd <- FeedForward_init n_embd 4 (1 / 10)%R (init_ffwd w) ;;
  Ok {| forecast_horizon := forecast_horizon;
        position_embedding_table := table;
        input_projection := input_projection;
        sa_heads := sa_heads;
        ffwd := ffwd;
        forecast_projection :=
          nn_Linear n_embd forecast_horizon true (init_forecast_projection w) |}.

(** [x.view(B * T, 1)] *)
Definition view_BT_1 (B T : nat) (x : mat) : result mat :=
  let flat := concat x in
  if length flat =? B * T
  then Ok (map (fun s => [s]) flat)
  else Raise (RuntimeError "shape is invalid for input size").

(** [y.view(B, T, -1)]: with no element the size to infer is ambiguous. *)
Definition view_B_T_infer (B T : nat) (y : mat) : result tensor3 :=
  if B * T =? 0
  then Raise (RuntimeError "cannot reshape tensor of 0 elements: the unspecified dimension size -1 is ambiguous")
  else if length y =? B * T
  then Ok (tabulate B (fun b => firstn T (skipn (b * T) y)))
  else Raise (RuntimeError "shape is invalid for input size").

(** [nn.Embedding.forward(torch.arange(T))] *)
Definition Embedding_arange (table : mat) (T : nat) : result mat :=
  mapM (fun i =>
    match nth_error table i with
    | Some row => Ok row
    | None => Raise (IndexError "index out of range in self")
    end) (seq 0 T).

Definition add (u v : R) : result R := Ok (u + v)%R.

(** [a + b] on tensors with three axes, with broadcasting. *)
Definition tensor_add (a b : tensor3) : result tensor3 :=
  bzip (bzip (bzip add)) a b.

(** [output[:, -1, :]] *)
Definition select_last (output : tensor3) : result mat :=
  mapM (fun m =>
    match m with
    | [] => Raise (IndexError "index -1 is out of bounds for dimension 1 with size 0")
    | _ => Ok (last m [])
    end) output.

(** [TimeSeriesTransformer.forward] up to [x = self.ffwd(x)]. *)
Definition TimeSeriesTransformer_hidden (self : TimeSeriesTransformer) (keep : keep3)
    (x : mat) : result (tensor3 * TimeSeriesTransformer) :=
  let B := length x in
  let T := length (hd [] x) in
  x <- view_BT_1 B T x ;;
  x <- Linear_forward2 (input_projection self) x ;;
  x <- view_B_T_infer B T x ;;
  pos_emb <- Embedding_arange (position_embedding_table self) T ;;
  x <- tensor_add x [pos_emb] ;;
  '(x, sa_heads') <- MultiHeadAttention_forward (sa_heads self) x None ;;
  x <- FeedForward_forward (ffwd self) keep x ;;
  Ok (x, {| forecast_horizon := forecast_horizon self;
            position_embedding_table := position_embedding_table self;
            input_projection := input_projection self;
            sa_heads := sa_heads';
            ffwd := ffwd self;
            forecast_projection := forecast_projection self |}).

(** [x.view(B, forecast_horizon)] on a tensor with two axes. *)
Definition view_B_H (B H : nat) (y : mat) : result mat :=
  if length (concat y) =? B * H
  then Ok y
  else Raise (RuntimeError "shape is invalid for input size").

Definition TimeSeriesTransformer_forward (self : TimeSeriesTransformer) (keep : keep3)
    (x : mat) : result (mat * TimeSeriesTransformer) :=
  let B := length x in
  '(x, self) <- TimeSeriesTransformer_hidden self keep x ;;
  output <- Linear_forward (forecast_projection self) x ;;
  y <- select_last output ;;
  y <- view_B_H B (forecast_horizon self) y ;;
  Ok (y, self).

(** ** Well-formed instances and statements about them *)

(** The parameter tensors of a linear layer have the shapes that
    [nn.Linear] gives them. *)
Definition Linear_wf (l : Linear) : Prop :=
  length (weight l) = out_features l /\
  Forall (fun r => length r = in_features l) (weight l) /\
  match bias l with
  | Some b => length b = out_features l
  | None => True
  end.

(** The buffer is absent or a lower-triangular mask: what [__init__] and
    [forward] leave behind. *)
Definition causal_mask_ok (self : Attention) : Prop :=
  match causal_mask self with
  | Some m => m = tril (length m)
  | None => True
  end.

(** An [Attention] instance for inputs with [F] features. *)
Definition Attention_wf (F : nat) (self : Attention) : Prop :=
  Linear_wf (key self) /\ Linear_wf (query self) /\ Linear_wf (value self) /\
  in_features (key self) = F /\ in_features (query self) = F /\
  in_features (value self) = F /\
  out_features (key self) = out_features (query self) /\
  causal_mask_ok self.

(** The user mask after [unsqueeze(1).expand_as(scores)], if there is one. *)
Definition expand_user_mask (mask : option user_mask) (B T : nat)
    : result (option (list (list (list Z)))) :=
  match mask with
  | None => Ok None
  | Some m => e <- expand_as_scores m B T ;; Ok (Some e)
  end.

(** Key position [j] is not forbidden by the user mask for query [i] of batch
    element [b]. *)
Definition user_allows (em : option (list (list (list Z)))) (b i j : nat) : bool :=
  match em with
  | None => true
  | Some e => negb (0 =? nth j (nth i (nth b e []) []) 1)%Z
  end.

(** Key position [j] is not forbidden for query [i] of batch element [b]. *)
Definition allowed (self : Attention) (em : option (list (list (list Z))))
    (b i j : nat) : bool :=
  (if causal self then j <=? i else true) && user_allows em b i j.

(** Entry [(b, i, j)] of a weight tensor. *)
Definition weight_at (W : list (list (list fl))) (b i j : nat) : fl :=
  nth j (nth i (nth b W []) []) NaN.

Definition row_at (W : list (list (list fl))) (b i : nat) : list fl :=
  nth i (nth b W []) [].

Definition fill_pure (s : score) (m : bool) : score := if m then NegInf else s.

(** The scaled scores of one batch element, read off the input. *)
Definition raw_scores (self : Attention) (xb : mat) : list (list R) :=
  map (fun xi =>
    map (fun xj =>
      (dot (affine (query self) xi) (affine (key self) xj) * scale self)%R) xb) xb.

(** The scores of [Attention.forward] after both [masked_fill] steps. *)
Definition masked_scores (self : Attention) (em : option (list (list (list Z))))
    (T : nat) (x : tensor3) : list (list (list score)) :=
  let s0 := map (fun xb => map (map Sc) (raw_scores self xb)) x in
  let s1 := if causal self
            then map (fun sb => zipWith (zipWith fill_pure) sb (map (map negb) (tril T))) s0
            else s0 in
  match em with
  | Some e => zipWith (zipWith (zipWith fill_pure)) s1 (map (map (map (Z.eqb 0))) e)
  | None => s1
  end.

(** * Notebooks 2 and 3: the encoder/decoder building blocks *)

(** ** The Python layer the constructors and calls go through *)

(** The attributes of the [torch.nn] namespace that the notebooks look up
    and that exist.  [nn] has no attribute [Paremeter] or [Mpdule]. *)
Inductive nn_attr : Type :=
| nn_Module | nn_ModuleList | nn_Sequential | nn_Linear_class | nn_Dropout_class
| nn_Embedding | nn_ReLU | nn_Parameter.

Definition torch_nn : list (string * nn_attr) :=
  [("Module", nn_Module); ("ModuleList", nn_ModuleList);
   ("Sequential", nn_Sequential); ("Linear", nn_Linear_class);
   ("Dropout", nn_Dropout_class); ("Embedding", nn_Embedding);
   ("ReLU", nn_ReLU); ("Parameter", nn_Parameter)].

Fixpoint assoc {V : Type} (name : string) (l : list (string * V)) : option V :=
  match l with
  | [] => None
  | (k, v) :: l' => if String.eqb k name then Some v else assoc name l'
  end.

(** [nn.<name>] *)
Definition nn_getattr (name : string) : result nn_attr :=
  match assoc name torch_nn with
  | Some a => Ok a
  | None => Raise (AttributeError ("module 'torch.nn' has no attribute '" ++ name ++ "'"))
  end.

(** [self.<name>] on a module under construction, [assigned] being the
    attributes set so far. *)
Definition self_getattr (cls : string) (assigned : list string) (name : string)
    : result unit :=
  if existsb (String.eqb name) assigned then Ok tt
  else Raise (AttributeError ("'" ++ cls ++ "' object has no attribute '" ++ name ++ "'")).

(** [super.__init__()]: [super] without a call is the builtin type, and
    its [__init__] is an unbound slot that needs the instance as first
    argument. *)
Definition super_dunder_init (nargs : nat) : result unit :=
  match nargs with
  | 0 => Raise (TypeError "descriptor '__init__' of 'super' object needs an argument")
  | _ => Raise (TypeError "descriptor '__init__' requires a 'super' object")
  end.

(** Values that an attribute access on a tensor can give. *)
Inductive pyobj : Type :=
| PyBool (b : bool)
| PyTensor (t : tensor3)
| PyBoundMethod (self : tensor3) (name : string).

(** [t.<name>] for the attributes the notebooks use: [requires_grad] is a
    plain bool, [requires_grad_] is the method that sets it. *)
Definition Tensor_getattr (t : tensor3) (name : string) : result pyobj :=
  if String.eqb name "requires_grad" then Ok (PyBool false)
  else if String.eqb name "requires_grad_" then Ok (PyBoundMethod t name)
  else Raise (AttributeError ("'Tensor' object has no attribute '" ++ name ++ "'")).

(** Calling the value [f] with positional arguments. *)
Definition py_call (f : pyobj) (args : list pyobj) : result pyobj :=
  match f with
  | PyBool _ => Raise (TypeError "'bool' object is not callable")
  | PyTensor _ => Raise (TypeError "'Tensor' object is not callable")
  | PyBoundMethod self _ => Ok (PyTensor self)
  end.

Definition index {A : Type} (l : list A) (i : nat) : result A :=
  match nth_error l i with
  | Some a => Ok a
  | None => Raise (IndexError "index out of range")
  end.

(** ** [PositionalEmbedding] *)

Record PositionalEmbedding : Type := {
  pe_d_model : nat;
  pe_seq_len : nat;
  pe_dropout : Dropout;
  pe : tensor3   (* the buffer, of shape (1, seq_len, d_model) *)
}.

(** [PositionalEmbedding.forward] *)
Definition PositionalEmbedding_forward (self : PositionalEmbedding) (keep : keep3)
    (x : tensor3) : result tensor3 :=
  let sliced := map (firstn (seq_length_of x)) (pe self) in
  requires_grad <- Tensor_getattr sliced "requires_grad" ;;
  r <- py_call requires_grad [PyBool false] ;;
  match r with
  | PyTensor t =>
      x <- tensor_add x t ;;
      Ok (Dropout_forward (pe_dropout self) keep x)
  | _ => Raise (TypeError "unsupported operand type(s) for +")
  end.

(** ** [LayerNormalization] *)

(** [alpha] and [bias] are one-element tensors, held as their element. *)
Record LayerNormalization : Type := {
  eps : R;
  alpha : R;
  ln_bias : R
}.

(** [LayerNormalization.__init__] *)
Definition LayerNormalization_init (eps : R) : result LayerNormalization :=
  _ <- nn_getattr "Paremeter" ;;
  let alpha := 1%R in
  _ <- nn_getattr "Parameter" ;;
  let bias := 0%R in
  Ok {| eps := eps; alpha := alpha; ln_bias := bias |}.

(** [x.mean(dim=-1)] and [x.std(dim=-1)] on one position; [std] is the
    unbiased estimator, torch's default. *)
Definition mean (v : vec) : R := (Rsum v / INR (length v))%R.

Definition variance (v : vec) : R :=
  (Rsum (map (fun a => (a - mean v) * (a - mean v)) v) / (INR (length v) - 1))%R.

Definition std (v : vec) : R := sqrt (variance v).

(** One position of [LayerNormalization.forward].  With a single feature
    [std] is NaN, and a zero denominator gives inf or NaN. *)
Definition LayerNormalization_row (self : LayerNormalization) (v : vec) : result vec :=
  match length v with
  | 0 => Ok []
  | 1 => NonFinite
  | _ =>
      if Req_dec_T (std v + eps self) 0 then NonFinite
      else Ok (map (fun a => (alpha self * (a - mean v) / (std v + eps self) + ln_bias self)%R) v)
  end.

Definition LayerNormalization_forward (self : LayerNormalization) (x : tensor3)
    : result tensor3 :=
  mapM (mapM (LayerNormalization_row self)) x.

(** ** [FeedForwardBlock] *)

Record FeedForwardBlock : Type := {
  linear_1 : Linear;
  ffb_dropout : Dropout;
  linear_2 : Linear
}.

Definition FeedForwardBlock_init (d_model d_ff : nat) (dropout : R)
    (w1 w2 : LinearInit) : result FeedForwardBlock :=
  let linear_1 := nn_Linear d_model d_ff true w1 in
  d <- nn_Dropout dropout ;;
  let linear_2 := nn_Linear d_ff d_model true w2 in
  Ok {| linear_1 := linear_1; ffb_dropout := d; linear_2 := linear_2 |}.

Definition FeedForwardBlock_forward (self : FeedForwardBlock) (keep : keep3)
    (x : tensor3) : result tensor3 :=
  h <- Linear_forward (linear_1 self) x ;;
  let h := Dropout_forward (ffb_dropout self) keep (map (map (map relu)) h) in
  Linear_forward (linear_2 self) h.

(** ** [MultiHeadAttentionBlock] *)

Abbreviation mask4 := (list (list (list (list Z)))).

Record MultiHeadAttentionBlockInit : Type := {
  init_w_q : LinearInit;
  init_w_k : LinearInit;
  init_w_v : LinearInit;
  init_w_o : LinearInit
}.

(** [attention_scores] is the attribute that [forward] sets. *)
Record MultiHeadAttentionBlock : Type := {
  d_model : nat;
  h : nat;
  d_k : nat;
  w_q : Linear;
  w_k : Linear;
  w_v : Linear;
  w_o : Linear;
  mhab_dropout : Dropout;
  attention_scores : option tensor4
}.

(** [MultiHeadAttentionBlock.__init__] *)
Definition MultiHeadAttentionBlock_init (d_model h : nat) (dropout : R)
    (w : MultiHeadAttentionBlockInit) : result MultiHeadAttentionBlock :=
  if h =? 0 then Raise (ZeroDivisionError "integer division or modulo by zero")
  else if negb (d_model mod h =? 0)
  then Raise (AssertionError "d_model is not divisable by h")
  else
    let d_k := d_model / h in
    let w_q := nn_Linear d_model d_model true (init_w_q w) in
    let w_k := nn_Linear d_model d_model true (init_w_k w) in
    let w_v := nn_Linear d_model d_model true (init_w_v w) in
    let w_o := nn_Linear d_model d_model true (init_w_o w) in
    d <- nn_Dropout dropout ;;
    Ok {| d_model := d_model; h := h; d_k := d_k;
          w_q := w_q; w_k := w_k; w_v := w_v; w_o := w_o;
          mhab_dropout := d; attention_scores := None |}.

(** [query @ key.transpose(-2, -1)] for one head of one batch element. *)
Definition matmul_transposed (q k : mat) : result mat :=
  mapM (fun qi =>
    mapM (fun kj =>
      if length qi =? length kj
      then Ok (dot qi kj)
      else Raise (RuntimeError "mat1 and mat2 shapes cannot be multiplied")) k) q.

(** [s / math.sqrt(d_k)]: with [d_k = 0] the scores are [0 / 0]. *)
Definition div_sqrt (d_k : nat) (s : R) : result R :=
  if d_k =? 0 then NonFinite else Ok (s / sqrt (INR d_k))%R.

(** In-place [masked_fill_]: the mask is expanded to the tensor it fills. *)
Definition bfill {A B : Type} (f : A -> B -> result A) (scores : list A) (mask : list B)
    : result (list A) :=
  m <- expand (length scores) mask ;;
  mapM (fun p => f (fst p) (snd p)) (combine scores m).

Definition fill_1e9 (s : R) (m : Z) : result R :=
  Ok (if (m =? 0)%Z then (-1000000000)%R else s).

(** [a @ b] for matrices of reals, [b] having [ncols] columns. *)
Definition matmul (ncols : nat) (a b : mat) : result mat :=
  mapM (fun row =>
    if length row =? length b
    then Ok (tabulate ncols (fun c => dot row (column c b)))
    else Raise (RuntimeError "mat1 and mat2 shapes cannot be multiplied")) a.

Definition keep4 : Type := nat -> nat -> nat -> nat -> bool.

Definition Dropout_forward4 (d : Dropout) (keep : keep4) (x : tensor4) : tensor4 :=
  if training d
  then imap (fun a => imap (fun b => imap (fun i => imap (fun k =>
         dropout_entry d (keep a b i k))))) x
  else x.

Definition last_dim4 (x : tensor4) : nat := length (hd [] (hd [] (hd [] x))).

(** [MultiHeadAttentionBlock.attention] up to
    [attention_scores.softmax(dim = -1)]. *)
Definition MultiHeadAttentionBlock_softmax (query key : tensor4) (mask : option mask4)
    : result tensor4 :=
  let d_k := last_dim4 query in
  attention_scores <- bzip (bzip matmul_transposed) query key ;;
  attention_scores <- mapM (mapM (mapM (mapM (div_sqrt d_k)))) attention_scores ;;
  attention_scores <-
    match mask with
    | Some mask => bfill (bfill (bfill (bfill fill_1e9))) attention_scores mask
    | None => Ok attention_scores
    end ;;
  Ok (map (map (map softmax)) attention_scores).

(** [MultiHeadAttentionBlock.attention] (a static method) *)
Definition MultiHeadAttentionBlock_attention (query key value : tensor4)
    (mask : option mask4) (dropout : option Dropout) (keep : keep4)
    : result (tensor4 * tensor4) :=
  attention_scores <- MultiHeadAttentionBlock_softmax query key mask ;;
  let attention_scores :=
    match dropout with
    | Some d => Dropout_forward4 d keep attention_scores
    | None => attention_scores
    end in
  out <- bzip (bzip (matmul (last_dim4 value))) attention_scores value ;;
  Ok (out, attention_scores).

(** [t.view(t.shape[0], t.shape[1], h, d_k).transpose(1, 2)] *)
Definition split_heads (h d_k : nat) (t : tensor3) : result tensor4 :=
  mapM (fun tb =>
    _ <- mapM (fun row =>
           if length row =? h * d_k then Ok tt
           else Raise (RuntimeError "shape is invalid for input size")) tb ;;
    Ok (tabulate h (fun head => map (fun row => firstn d_k (skipn (head * d_k) row)) tb)))
  t.

(** [x.transpose(1, 2).contiguous().view(x.shape[0], -1, h * d_k)] *)
Definition merge_heads (h d_k : nat) (x : tensor4) : result tensor3 :=
  if length x * (h * d_k) =? 0
  then Raise (RuntimeError "cannot reshape tensor of 0 elements: the unspecified dimension size -1 is ambiguous")
  else mapM (fun xb =>
         if (length xb =? h)
            && forallb (forallb (fun row => length row =? d_k)) xb
         then Ok (tabulate (length (hd [] xb))
                    (fun t => concat (map (fun head => nth t head []) xb)))
         else Raise (RuntimeError "shape is invalid for input size")) x.

Definition set_attention_scores (self : MultiHeadAttentionBlock) (s : tensor4)
    : MultiHeadAttentionBlock :=
  {| d_model := d_model self; h := h self; d_k := d_k self;
     w_q := w_q self; w_k := w_k self; w_v := w_v self; w_o := w_o self;
     mhab_dropout := mhab_dropout self; attention_scores := Some s |}.

(** [MultiHeadAttentionBlock.forward] *)
Definition MultiHeadAttentionBlock_forward (self : MultiHeadAttentionBlock)
    (keep : keep4) (q k v : tensor3) (mask : option mask4)
    : result (tensor3 * MultiHeadAttentionBlock) :=
  query <- Linear_forward (w_q self) q ;;
  key <- Linear_forward (w_k self) k ;;
  value <- Linear_forward (w_v self) v ;;
  query <- split_heads (h self) (d_k self) query ;;
  key <- split_heads (h self) (d_k self) key ;;
  value <- split_heads (h self) (d_k self) value ;;
  '(x, scores) <-
    MultiHeadAttentionBlock_attention query key value mask (Some (mhab_dropout self)) keep ;;
  let self := set_attention_scores self scores in
  x <- merge_heads (h self) (d_k self) x ;;
  y <- Linear_forward (w_o self) x ;;
  Ok (y, self).

(** Positional arguments of a module call. *)
Inductive pyarg : Type :=
| ArgTensor (t : tensor3)
| ArgMask (m : option mask4).

(** Calling a [MultiHeadAttentionBlock] instance: [forward] takes
    [q, k, v, mask]. *)
Definition MultiHeadAttentionBlock_call (self : MultiHeadAttentionBlock) (keep : keep4)
    (args : list pyarg) : result (tensor3 * MultiHeadAttentionBlock) :=
  match args with
  | [ArgTensor q; ArgTensor k; ArgTensor v; ArgMask mask] =>
      MultiHeadAttentionBlock_forward self keep q k v mask
  | [_; _; _; _] =>
      Raise (TypeError "linear(): argument 'input' must be Tensor")
  | [] | [_] | [_; _] | [_; _; _] =>
      Raise (TypeError "forward() missing required positional arguments")
  | _ =>
      Raise (TypeError "forward() takes 5 positional arguments but more were given")
  end.

(** ** [ResidualConnection] *)

Record ResidualConnection : Type := {
  rc_dropout : Dropout;
  rc_norm : LayerNormalization
}.

(** [ResidualConnection.__init__] *)
Definition ResidualConnection_init (dropout : R) : result ResidualConnection :=
  d <- nn_Dropout dropout ;;
  n <- LayerNormalization_init (/ 1000000)%R ;;
  Ok {| rc_dropout := d; rc_norm := n |}.

(** [ResidualConnection.forward].  A sublayer may change the state [S] of
    the module it closes over. *)
Definition ResidualConnection_forward {S : Type} (self : ResidualConnection)
    (keep : keep3) (x : tensor3) (sublayer : tensor3 -> result (tensor3 * S))
    : result (tensor3 * S) :=
  n <- LayerNormalization_forward (rc_norm self) x ;;
  '(y, s) <- sublayer n ;;
  let y := Dropout_forward (rc_dropout self) keep y in
  r <- tensor_add x y ;;
  Ok (r, s).

(** ** [EncoderBlock] and [Encoder] *)

Record EncoderBlock : Type := {
  eb_self_attention_block : MultiHeadAttentionBlock;
  eb_feed_forward_block : FeedForwardBlock;
  residual_connection : list ResidualConnection
}.

Definition EncoderBlock_init (self_attention_block : MultiHeadAttentionBlock)
    (feed_forward_block : FeedForwardBlock) (dropout : R) : result EncoderBlock :=
  _ <- nn_getattr "ModuleList" ;;
  rcs <- mapM (fun _ => ResidualConnection_init dropout) (seq 0 2) ;;
  Ok {| eb_self_attention_block := self_attention_block;
        eb_feed_forward_block := feed_forward_block;
        residual_connection := rcs |}.

(** [EncoderBlock.forward(self, src_mask)]: the body reads the local [x]
    before anything is assigned to it. *)
Definition EncoderBlock_forward (self : EncoderBlock) (src_mask : option mask4)
    : result tensor3 :=
  _ <- index (residual_connection self) 0 ;;
  Raise (UnboundLocalError "local variable 'x' referenced before assignment").

Record Encoder : Type := {
  enc_layers : list EncoderBlock;
  enc_norm : LayerNormalization
}.

(** [Encoder.__init__]: [self.norm - LayerNormalization()] reads [self.norm]
    first. *)
Definition Encoder_init (layers : list EncoderBlock) : result Encoder :=
  _ <- self_getattr "Encoder" ["layers"] "norm" ;;
  n <- LayerNormalization_init (/ 1000000)%R ;;
  Raise (TypeError "unsupported operand type(s) for -").

(** ** [DecoderBlock] and [Decoder] *)

Record DecoderBlock : Type := {
  db_self_attention_block : MultiHeadAttentionBlock;
  db_cross_attention_block : MultiHeadAttentionBlock;
  db_feed_forward_block : FeedForwardBlock;
  residual_connections : list ResidualConnection
}.

Definition DecoderBlock_init (self_attention_block cross_attention_block : MultiHeadAttentionBlock)
    (feed_forward_block : FeedForwardBlock) (dropout : R) : result DecoderBlock :=
  _ <- super_dunder_init 0 ;;
  _ <- nn_getattr "Mpdule" ;;
  rcs <- mapM (fun _ => ResidualConnection_init dropout) (seq 0 3) ;;
  Ok {| db_self_attention_block := self_attention_block;
        db_cross_attention_block := cross_attention_block;
        db_feed_forward_block := feed_forward_block;
        residual_connections := rcs |}.

(** The random choices of one [DecoderBlock.forward] call. *)
Record DecoderNoise : Type := {
  keep_residual : nat -> keep3;
  keep_self_attention : keep4;
  keep_cross_attention : keep4;
  keep_feed_forward : keep3
}.

Definition set_blocks (self : DecoderBlock)
    (sa ca : MultiHeadAttentionBlock) : DecoderBlock :=
  {| db_self_attention_block := sa;
     db_cross_attention_block := ca;
     db_feed_forward_block := db_feed_forward_block self;
     residual_connections := residual_connections self |}.

(** [DecoderBlock.forward] *)
Definition DecoderBlock_forward (self : DecoderBlock) (noise : DecoderNoise)
    (x encoder_output : tensor3) (src_mask tgt_mask : option mask4)
    : result (tensor3 * DecoderBlock) :=
  rc0 <- index (residual_connections self) 0 ;;
  '(x, sa) <- ResidualConnection_forward rc0 (keep_residual noise 0) x
      (fun x => MultiHeadAttentionBlock_call (db_self_attention_block self)
                  (keep_self_attention noise)
                  [ArgTensor x; ArgTensor x; ArgMask tgt_mask]) ;;
  rc1 <- index (residual_connections self) 1 ;;
  '(x, ca) <- ResidualConnection_forward rc1 (keep_residual noise 1) x
      (fun x => MultiHeadAttentionBlock_call (db_cross_attention_block self)
                  (keep_cross_attention noise)
                  [ArgTensor x; ArgTensor encoder_output; ArgMask src_mask]) ;;
  rc2 <- index (residual_connections self) 2 ;;
  '(x, _) <- ResidualConnection_forward rc2 (keep_residual noise 2) x
      (fun x => y <- FeedForwardBlock_forward (db_feed_forward_block self)
                      (keep_feed_forward noise) x ;;
                Ok (y, tt)) ;;
  Ok (x, set_blocks self sa ca).

Record Decoder : Type := {
  dec_layers : list DecoderBlock;
  dec_norm : LayerNormalization
}.

Definition Decoder_init (layers : list DecoderBlock) : result Decoder :=
  n <- LayerNormalization_init (/ 1000000)%R ;;
  Ok {| dec_layers := layers; dec_norm := n |}.

(** ** Statements about the encoder/decoder blocks *)

(** The sum of two tensors of the same shape, entry by entry. *)
Definition tensor_add_pure (a b : tensor3) : tensor3 :=
  zipWith (zipWith (zipWith Rplus)) a b.

(** Standardisation of one position, followed by scale and shift. *)
Definition standardize (e : R) (v : vec) : vec :=
  map (fun a => ((a - mean v) / (sqrt (variance v) + e))%R) v.

Definition scale_shift (a b : R) (v : vec) : vec :=
  map (fun z => (a * z + b)%R) v.

(** ** Well-formed instances of the forecasting model *)

(** A [MultiHeadAttention] for inputs with [F] features and heads of size
    [hs], as [__init__] builds it with at least one head. *)
Definition MultiHeadAttention_wf (F hs : nat) (self : MultiHeadAttention) : Prop :=
  heads self <> [] /\
  Forall (fun a => Attention_wf F a /\ causal a = false /\ out_features (value a) = hs)
         (heads self) /\
  Linear_wf (output_projection self) /\
  in_features (output_projection self) = length (heads self) * hs.

Definition FeedForward_wf (n : nat) (self : FeedForward) : Prop :=
  Linear_wf (net_0 self) /\ Linear_wf (net_3 self) /\
  in_features (net_0 self) = n /\
  in_features (net_3 self) = out_features (net_0 self) /\
  out_features (net_3 self) = n.

Definition TimeSeriesTransformer_wf (n_embd block_size : nat)
    (self : TimeSeriesTransformer) : Prop :=
  shape2 block_size n_embd (position_embedding_table self) /\
  Linear_wf (input_projection self) /\
  in_features (input_projection self) = 1 /\
  out_features (input_projection self) = n_embd /\
  MultiHeadAttention_wf n_embd (n_embd / 4) (sa_heads self) /\
  out_features (output_projection (sa_heads self)) = n_embd /\
  FeedForward_wf n_embd (ffwd self) /\
  Linear_wf (forecast_projection self) /\
  in_features (forecast_projection self) = n_embd /\
  out_features (forecast_projection self) = forecast_horizon self.

(** [attn_weights @ v] for one batch element whose weights are all real. *)
Definition weighted_sum_pure (ncols : nat) (w : list (list fl)) (v : mat) : mat :=
  map (fun row => tabulate ncols (fun c => dot (map fl_val row) (column c v))) w.

(** Regular nested lists with four axes. *)
Definition shape4 {A : Type} (a b n m : nat) (x : list (list (list (list A)))) : Prop :=
  length x = a /\ Forall (shape3 b n m) x.

(** A row of real weights is a probability row. *)
Definition prob_row_R (ws : list R) : Prop :=
  Forall (fun w => (0 <= w)%R) ws /\ Rsum ws = 1%R.

(** What [MultiHeadAttentionBlock.attention] does to the softmax output
    before it multiplies by [value]. *)
Definition attention_dropout (dropout : option Dropout) (keep : keep4) (s : tensor4)
    : tensor4 :=
  match dropout with
  | Some d => Dropout_forward4 d keep s
  | None => s
  end.

(** [query @ key.transpose(-2, -1)] on one head, and the scaled scores of
    all heads, read off well-shaped inputs. *)
Definition matmul_transposed_pure (q k : mat) : mat :=
  map (fun qi => map (fun kj => dot qi kj) k) q.

Definition scaled_scores4 (d : nat) (query key : tensor4) : tensor4 :=
  map (map (map (map (fun s => (s / sqrt (INR d))%R))))
      (zipWith (zipWith matmul_transposed_pure) query key).

Definition matmul_pure (ncols : nat) (a b : mat) : mat :=
  map (fun row => tabulate ncols (fun c => dot row (column c b))) a.

(** ** Small concrete instances *)

Definition zero_Linear_init : LinearInit :=
  {| init_weight := fun _ _ => 0%R; init_bias := fun _ => 0%R |}.

Definition zero_Attention_init : AttentionInit :=
  {| init_key := zero_Linear_init;
     init_query := zero_Linear_init;
     init_value := zero_Linear_init |}.

(** [Attention(1, 1, causal=c)] with all parameters zero. *)
Definition toy_head (c : bool) : Attention :=
  {| key := nn_Linear 1 1 false zero_Linear_init;
     query := nn_Linear 1 1 false zero_Linear_init;
     value := nn_Linear 1 1 false zero_Linear_init;
     scale := (/ sqrt (INR 1))%R;
     causal := c;
     causal_mask := None |}.

(** One sequence of two positions with one feature. *)
Definition toy_x : tensor3 := [[[0%R]; [0%R]]].

(** A padding mask that marks the first key position as padding. *)
Definition left_padding : user_mask := Mask2 [[0%Z; 1%Z]].

(** [LayerNormalization] with the default [eps], [alpha = 1], [bias = 0]. *)
Definition toy_norm : LayerNormalization :=
  {| eps := (/ 1000000)%R; alpha := 1%R; ln_bias := 0%R |}.

(** A residual wrapper in evaluation mode. *)
Definition toy_residual : ResidualConnection :=
  {| rc_dropout := {| p := (1 / 10)%R; training := false |}; rc_norm := toy_norm |}.

Definition no_drop3 : keep3 := fun _ _ _ => true.
Definition no_drop4 : keep4 := fun _ _ _ _ => true.

(** One sequence of one position with two features. *)
Definition toy_x2 : tensor3 := [[[1%R; 3%R]]].

Definition zero_MultiHeadAttention_init : MultiHeadAttentionInit :=
  {| init_heads := fun _ => zero_Attention_init;
     init_output_projection := zero_Linear_init |}.

Definition zero_TimeSeriesTransformer_init : TimeSeriesTransformerInit :=
  {| init_position_embedding_table := fun _ _ => 0%R;
     init_input_projection := zero_Linear_init;
     init_sa_heads := zero_MultiHeadAttention_init;
     init_ffwd := {| init_net_0 := zero_Linear_init; init_net_3 := zero_Linear_init |};
     init_forecast_projection := zero_Linear_init |}.

(** [TimeSeriesTransformer(n_embd=4, block_size=2, forecast_horizon=1)] with
    all parameters zero. *)
Definition toy_forecaster : TimeSeriesTransformer :=
  {| forecast_horizon := 1;
     position_embedding_table := tabulate 2 (fun _ => tabulate 4 (fun _ => 0%R));
     input_projection := nn_Linear 1 4 true zero_Linear_init;
     sa_heads :=
       {| heads := map (fun _ =>
                     {| key := nn_Linear 4 1 false zero_Linear_init;
                        query := nn_Linear 4 1 false zero_Linear_init;
                        value := nn_Linear 4 1 false zero_Linear_init;
                        scale := (/ sqrt (INR 1))%R;
                        causal := false;
                        causal_mask := None |}) (seq 0 4);
          output_projection := nn_Linear (4 * 1) 4 true zero_Linear_init |};
     ffwd := {| net_0 := nn_Linear 4 (4 * 4) true zero_Linear_init;
                net_2 := {| p := (1 / 10)%R; training := true |};
                net_3 := nn_Linear (4 * 4) 4 true zero_Linear_init |};
     forecast_projection := nn_Linear 4 1 true zero_Linear_init |}.

(** A returned tensor exposes the attention weights if they can be read off
    it: some function of the return value gives the weights of every call. *)
Definition exposes_attn_weights : Prop :=
  exists g : tensor3 -> list (list (list fl)),
    forall (self : Attention) (x : tensor3) (mask : option user_mask)
           (output : tensor3) (s : Attention)
           (W : list (list (list fl))) (V : tensor3) (s' : Attention),
      Attention_forward self x mask = Ok (output, s) ->
      Attention_attn_weights self x mask = Ok (W, V, s') ->
      g output = W.

Definition zero_MultiHeadAttentionBlock_init : MultiHeadAttentionBlockInit :=
  {| init_w_q := zero_Linear_init; init_w_k := zero_Linear_init;
     init_w_v := zero_Linear_init; init_w_o := zero_Linear_init |}.

(** [MultiHeadAttentionBlock(d_model=2, h=2, dropout=0.1)] with all
    parameters zero, in training mode (as constructed) or in evaluation
    mode. *)
Definition toy_block_in (mode : bool) : MultiHeadAttentionBlock :=
  {| d_model := 2; h := 2; d_k := 2 / 2;
     w_q := nn_Linear 2 2 true zero_Linear_init;
     w_k := nn_Linear 2 2 true zero_Linear_init;
     w_v := nn_Linear 2 2 true zero_Linear_init;
     w_o := nn_Linear 2 2 true zero_Linear_init;
     mhab_dropout := {| p := (1 / 10)%R; training := mode |};
     attention_scores := None |}.

Definition toy_block : MultiHeadAttentionBlock := toy_block_in false.

(** One batch element, one head, one position, one feature. *)
Definition toy_q4 : tensor4 := [[[[0%R]]]].

Definition toy_feed_forward_block : FeedForwardBlock :=
  {| linear_1 := nn_Linear 2 2 true zero_Linear_init;
     ffb_dropout := {| p := (1 / 10)%R; training := false |};
     linear_2 := nn_Linear 2 2 true zero_Linear_init |}.

(** A decoder block as [__init__] would build it if it returned. *)
Definition toy_decoder_block : DecoderBlock :=
  {| db_self_attention_block := toy_block;
     db_cross_attention_block := toy_block;
     db_feed_forward_block := toy_feed_forward_block;
     residual_connections := [toy_residual; toy_residual; toy_residual] |}.

Definition toy_noise : DecoderNoise :=
  {| keep_residual := fun _ => no_drop3;
     keep_self_attention := no_drop4;
     keep_cross_attention := no_drop4;
     keep_feed_forward := no_drop3 |}.

(** The post-normalisation composition, [norm(x + dropout(sublayer(x)))],
    which the wrapper is to be told apart from. *)
Definition post_norm_forward {S : Type} (self : ResidualConnection) (keep : keep3)
    (x : tensor3) (sublayer : tensor3 -> result (tensor3 * S)) : result (tensor3 * S) :=
  ' (y, s) <- sublayer x ;;
  r <- tensor_add x (Dropout_forward (rc_dropout self) keep y) ;;
  n <- LayerNormalization_forward (rc_norm self) r ;;
  Ok (n, s).

(** A mask that [masked_fill_] can expand to scores of shape
    [(B, H, Tq, Tk)]: every axis has the size of the scores or size one. *)
Definition fits (n : nat) {A : Type} (l : list A) : Prop :=
  length l = n \/ length l = 1.

Definition broadcastable4 (B H Tq Tk : nat) (mask : mask4) : Prop :=
  fits B mask /\
  Forall (fun m3 => fits H m3 /\
    Forall (fun m2 => fits Tq m2 /\
      Forall (fun m1 => fits Tk m1) m2) m3) mask.

(** A [MultiHeadAttentionBlock] as [__init__] builds it, for [dm] features. *)
Definition MultiHeadAttentionBlock_wf (dm : nat) (self : MultiHeadAttentionBlock) : Prop :=
  Linear_wf (w_q self) /\ Linear_wf (w_k self) /\
  Linear_wf (w_v self) /\ Linear_wf (w_o self) /\
  in_features (w_q self) = dm /\ out_features (w_q self) = dm /\
  in_features (w_k self) = dm /\ out_features (w_k self) = dm /\
  in_features (w_v self) = dm /\ out_features (w_v self) = dm /\
  in_features (w_o self) = dm /\ out_features (w_o self) = dm /\
  h self * d_k self = dm.

(** * Further definitions: the rest of the notebooks and what is stated about them *)

(** The output of [Attention.forward] read off weights that are all real. *)
Definition attention_output (self : Attention) (em : option (list (list (list Z))))
    (x : tensor3) : tensor3 :=
  zipWith (weighted_sum_pure (out_features (value self)))
    (map (map F_softmax) (masked_scores self em (seq_length_of x) x))
    (map (map (affine (value self))) x).

(** Every query row keeps a key that is not forbidden. *)
Definition rows_attend (self : Attention) (em : option (list (list (list Z))))
    (B T : nat) : Prop :=
  forall b i, b < B -> i < T -> exists j, j < T /\ allowed self em b i j = true.

(** What the caller of a [forward] sees: the returned tensor, without the
    updated module. *)
Definition output_of {A S : Type} (r : result (A * S)) : result A :=
  match r with
  | Ok (a, _) => Ok a
  | Raise e => Raise e
  | NonFinite => NonFinite
  end.

(** ** [InputEmbeddings] *)

(** [embedding] is the weight of [nn.Embedding(vocab_size, d_model)], one
    row per token id. *)
Record InputEmbeddings : Type := {
  ie_d_model : nat;
  vocal_size : nat;
  embedding : mat
}.

(** [InputEmbeddings.__init__], on the initial table [w]. *)
Definition InputEmbeddings_init (d_model vocab_size : nat) (w : nat -> nat -> R)
    : InputEmbeddings :=
  {| ie_d_model := d_model;
     vocal_size := vocab_size;
     embedding := tabulate vocab_size (fun i => tabulate d_model (w i)) |}.

(** [nn.Embedding.forward] on one token id. *)
Definition Embedding_lookup (table : mat) (id : Z) : result vec :=
  if (id <? 0)%Z then Raise (IndexError "index out of range in self")
  else match nth_error table (Z.to_nat id) with
       | Some row => Ok row
       | None => Raise (IndexError "index out of range in self")
       end.

(** [InputEmbeddings.forward] on a batch of token id sequences. *)
Definition InputEmbeddings_forward (self : InputEmbeddings) (x : list (list Z))
    : result tensor3 :=
  e <- mapM (mapM (Embedding_lookup (embedding self))) x ;;
  Ok (map (map (map (fun a => (a * sqrt (INR (ie_d_model self)))%R))) e).

(** ** [PositionalEmbedding.__init__] *)

(** [len(range(start, d_model, 2))]: the columns that [pe[:, start::2]]
    selects. *)
Definition strided_slots (start d_model : nat) : nat := (d_model - start + 1) / 2.

(** One row of [pe[:, start::2] = src], [src] already of the size of the
    slice or with a single column that is repeated. *)
Definition setitem_row (start : nat) (row src : vec) : vec :=
  imap (fun k old =>
    if (start <=? k) && Nat.even (k - start)
    then match src with
         | [a] => a
         | _ => nth ((k - start) / 2) src 0%R
         end
    else old) row.

(** [pe[:, start::2] = src] for [pe] of shape [(seq_len, d_model)] and
    [src] of shape [(seq_len, src_cols)]: the value is broadcast to the
    slice, so its column count is that of the slice or one. *)
Definition setitem_stride (start d_model src_cols : nat) (pe src : mat) : result mat :=
  if (src_cols =? strided_slots start d_model) || (src_cols =? 1)
  then Ok (zipWith (setitem_row start) pe src)
  else Raise (RuntimeError "The expanded size of the tensor must match the existing size").

(** Entry [i] of
    [torch.exp(torch.arange(0, d_model, 2).float() * (-math.log(10000.0) / d_model))]. *)
Definition div_term (d_model i : nat) : R :=
  exp (INR (2 * i) * (- ln 10000 / INR d_model)).

(** [PositionalEmbedding.__init__] *)
Definition PositionalEmbedding_init (d_model seq_len : nat) (dropout : R)
    : result PositionalEmbedding :=
  d <- nn_Dropout dropout ;;
  let pe := tabulate seq_len (fun _ => repeat 0%R d_model) in
  let position := tabulate seq_len INR in
  if d_model =? 0 then Raise (ZeroDivisionError "float division by zero")
  else
    let n := strided_slots 0 d_model in
    let angle := map (fun pos => tabulate n (fun i => (pos * div_term d_model i)%R))
                     position in
    pe <- setitem_stride 0 d_model n pe (map (map sin) angle) ;;
    pe <- setitem_stride 1 d_model n pe (map (map cos) angle) ;;
    Ok {| pe_d_model := d_model; pe_seq_len := seq_len; pe_dropout := d; pe := [pe] |}.

(** ** [ProjectionLayer] *)

Record ProjectionLayer : Type := {
  proj : Linear
}.

Definition ProjectionLayer_init (d_model vocab_size : nat) (w : LinearInit)
    : ProjectionLayer :=
  {| proj := nn_Linear d_model vocab_size true w |}.

(** [torch.log_softmax(row, dim = -1)] *)
Definition log_softmax (row : vec) : vec :=
  let z := Rsum (map exp row) in
  map (fun s => (s - ln z)%R) row.

(** [ProjectionLayer.forward] *)
Definition ProjectionLayer_forward (self : ProjectionLayer) (x : tensor3)
    : result tensor3 :=
  y <- Linear_forward (proj self) x ;;
  Ok (map (map log_softmax) y).

(** ** [Encoder.forward] and [Decoder.forward] *)

(** Calling an [EncoderBlock] instance: [forward] takes [src_mask] only,
    and its body fails before it reads the argument. *)
Definition EncoderBlock_call (self : EncoderBlock) (args : list pyarg) : result tensor3 :=
  match args with
  | [] => Raise (TypeError "forward() missing 1 required positional argument: 'src_mask'")
  | [ArgMask m] => EncoderBlock_forward self m
  | [ArgTensor _] => EncoderBlock_forward self None
  | _ => Raise (TypeError "forward() takes 2 positional arguments but 3 were given")
  end.

(** [for layer in self.layers: x = layer(x, mask)] *)
Fixpoint Encoder_layers (layers : list EncoderBlock) (x : tensor3) (mask : option mask4)
    : result tensor3 :=
  match layers with
  | [] => Ok x
  | layer :: rest =>
      x <- EncoderBlock_call layer [ArgTensor x; ArgMask mask] ;;
      Encoder_layers rest x mask
  end.

(** [Encoder.forward] *)
Definition Encoder_forward (self : Encoder) (x : tensor3) (mask : option mask4)
    : result tensor3 :=
  x <- Encoder_layers (enc_layers self) x mask ;;
  LayerNormalization_forward (enc_norm self) x.

(** [for layer in self.layers: x = layer(x, encoder_output, src_mask, tgt_mask)],
    layer [n] drawing the random choices [noise n]. *)
Fixpoint Decoder_layers (layers : list DecoderBlock) (noise : nat -> DecoderNoise)
    (n : nat) (x encoder_output : tensor3) (src_mask tgt_mask : option mask4)
    : result (tensor3 * list DecoderBlock) :=
  match layers with
  | [] => Ok (x, [])
  | layer :: rest =>
      '(x, layer) <- DecoderBlock_forward layer (noise n) x encoder_output
                       src_mask tgt_mask ;;
      '(x, rest) <- Decoder_layers rest noise (S n) x encoder_output src_mask tgt_mask ;;
      Ok (x, layer :: rest)
  end.

(** [Decoder.forward] *)
Definition Decoder_forward (self : Decoder) (noise : nat -> DecoderNoise)
    (x encoder_output : tensor3) (src_mask tgt_mask : option mask4)
    : result (tensor3 * Decoder) :=
  '(x, layers) <- Decoder_layers (dec_layers self) noise 0 x encoder_output
                    src_mask tgt_mask ;;
  y <- LayerNormalization_forward (dec_norm self) x ;;
  Ok (y, {| dec_layers := layers; dec_norm := dec_norm self |}).

(** ** Position-wise feed-forward networks *)

(** [Dropout.forward] on the features of one position, [keep] being the
    draws for that position. *)
Definition Dropout_row (d : Dropout) (keep : nat -> bool) (v : vec) : vec :=
  if training d then imap (fun k => dropout_entry d (keep k)) v else v.

(** What [FeedForward.forward] and [FeedForwardBlock.forward] compute at
    one position. *)
Definition FeedForward_position (self : FeedForward) (keep : nat -> bool) (v : vec) : vec :=
  affine (net_3 self) (Dropout_row (net_2 self) keep (map relu (affine (net_0 self) v))).

Definition FeedForwardBlock_position (self : FeedForwardBlock) (keep : nat -> bool)
    (v : vec) : vec :=
  affine (linear_2 self)
    (Dropout_row (ffb_dropout self) keep (map relu (affine (linear_1 self) v))).

(** A [FeedForwardBlock] as [__init__] builds it, for [dm] features. *)
Definition FeedForwardBlock_wf (dm : nat) (self : FeedForwardBlock) : Prop :=
  Linear_wf (linear_1 self) /\ Linear_wf (linear_2 self) /\
  in_features (linear_1 self) = dm /\
  in_features (linear_2 self) = out_features (linear_1 self) /\
  out_features (linear_2 self) = dm.

(** ** The forecasting model on one series *)

(** The rows that [nn.Embedding.forward(torch.arange(T))] returns. *)
Definition position_rows (table : mat) (T : nat) : mat :=
  map (fun i => nth i table []) (seq 0 T).

(** The output of a head without causal or user mask on one batch
    element. *)
Definition head_output (head : Attention) (e : mat) : mat :=
  weighted_sum_pure (out_features (value head))
    (map F_softmax (map (map Sc) (raw_scores head e)))
    (map (affine (value head)) e).

(** [torch.cat(outs, dim=-1)] on one batch element. *)
Definition cat_rows (outs : list mat) : mat :=
  match outs with
  | [] => []
  | o :: os => fold_left (zipWith (@app R)) os o
  end.

Definition MultiHeadAttention_sequence (self : MultiHeadAttention) (e : mat) : mat :=
  map (affine (output_projection self))
      (cat_rows (map (fun head => head_output head e) (heads self))).

(** [TimeSeriesTransformer.forward] on a single series [xb], [keep] being
    the dropout draws for that series. *)
Definition TimeSeriesTransformer_sequence (self : TimeSeriesTransformer)
    (keep : nat -> nat -> bool) (xb : vec) : vec :=
  let e := zipWith (zipWith Rplus)
             (map (fun s => affine (input_projection self) [s]) xb)
             (position_rows (position_embedding_table self) (length xb)) in
  let a := MultiHeadAttention_sequence (sa_heads self) e in
  let h := imap (fun i => FeedForward_position (ffwd self) (keep i)) a in
  affine (forecast_projection self) (last h []).

(** ** The mask of [MultiHeadAttentionBlock.attention], entry by entry *)

(** Entry [i] of a list that broadcasting repeats when it has one element. *)
Definition bnth {A : Type} (i : nat) (l : list A) (d : A) : A :=
  match l with
  | [a] => a
  | _ => nth i l d
  end.

(** The mask entry that [masked_fill_] pairs with the score at
    [(b, n, i, j)]. *)
Definition mask4_at (m : mask4) (b n i j : nat) : Z :=
  bnth j (bnth i (bnth n (bnth b m []) []) []) 1%Z.

(** * Proofs *)

(** ** Lemmas on the result monad and on lists *)

Lemma bind_Ok_inv {A B : Type} (c : result A) (k : A -> result B) (b : B) :
  bind c k = Ok b -> exists a, c = Ok a /\ k a = Ok b.
Proof.
  destruct c as [a | e | ]; simpl; intros H; try discriminate.
  exists a; split; [reflexivity | exact H].
Qed.

Lemma mapM_Ok_Forall2 {A B : Type} (f : A -> result B) (l : list A) (l' : list B) :
  mapM f l = Ok l' <-> Forall2 (fun a b => f a = Ok b) l l'.
Proof.
  revert l'; induction l as [| a l IH]; intros l'; simpl.
  - split; intros H.
    + injection H as <-. constructor.
    + inversion H. reflexivity.
  - split; intros H.
    + apply bind_Ok_inv in H as (b & Hb & H).
      apply bind_Ok_inv in H as (bs & Hbs & H).
      injection H as <-. constructor; [exact Hb | apply IH, Hbs].
    + inversion H as [| ? b ? bs Hb Hbs]; subst.
      rewrite Hb; simpl. apply IH in Hbs. rewrite Hbs. reflexivity.
Qed.

Lemma mapM_pure {A B : Type} (f : A -> result B) (g : A -> B) (l : list A) :
  (forall a, In a l -> f a = Ok (g a)) -> mapM f l = Ok (map g l).
Proof.
  induction l as [| a l IH]; intros H; simpl; [reflexivity |].
  rewrite (H a (or_introl eq_refl)); simpl.
  rewrite IH by (intros; apply H; right; assumption). reflexivity.
Qed.

Lemma mapM_length {A B : Type} (f : A -> result B) (l : list A) (l' : list B) :
  mapM f l = Ok l' -> length l' = length l.
Proof.
  intros H. apply mapM_Ok_Forall2 in H.
  symmetry. eapply Forall2_length; eassumption.
Qed.

Lemma Forall2_nth {A B : Type} (P : A -> B -> Prop) (l : list A) (l' : list B)
    (i : nat) (da : A) (db : B) :
  Forall2 P l l' -> (i < length l)%nat -> P (nth i l da) (nth i l' db).
Proof.
  intros H; revert i; induction H as [| a b l l' Hab _ IH]; intros i Hi; simpl in *.
  - lia.
  - destruct i; [exact Hab | apply IH; lia].
Qed.

Lemma mapM_nth {A B : Type} (f : A -> result B) (l : list A) (l' : list B)
    (i : nat) (da : A) (db : B) :
  mapM f l = Ok l' -> (i < length l)%nat -> f (nth i l da) = Ok (nth i l' db).
Proof.
  intros H Hi. apply mapM_Ok_Forall2 in H.
  exact (Forall2_nth (fun a b => f a = Ok b) l l' i da db H Hi).
Qed.

Lemma tabulate_length {A : Type} (n : nat) (f : nat -> A) :
  length (tabulate n f) = n.
Proof. unfold tabulate. rewrite length_map, length_seq. reflexivity. Qed.

Lemma tabulate_nth {A : Type} (n : nat) (f : nat -> A) (i : nat) (d : A) :
  (i < n)%nat -> nth i (tabulate n f) d = f i.
Proof.
  intros Hi. unfold tabulate.
  rewrite (nth_indep _ d (f 0%nat)) by (rewrite length_map, length_seq; exact Hi).
  rewrite map_nth, seq_nth by exact Hi. reflexivity.
Qed.

(** ** Lemmas on sums and softmax *)

Lemma Rsum_scale (c : R) (l : list R) :
  Rsum (map (fun x => (x / c)%R) l) = (Rsum l / c)%R.
Proof.
  induction l as [| x l IH]; simpl.
  - unfold Rdiv. ring.
  - rewrite IH. unfold Rdiv. ring.
Qed.

Lemma Rsum_nonneg (l : list R) :
  Forall (fun x => (0 <= x)%R) l -> (0 <= Rsum l)%R.
Proof.
  induction 1 as [| x l Hx _ IH]; simpl; lra.
Qed.

Lemma exp_score_nonneg (s : score) : (0 <= exp_score s)%R.
Proof.
  destruct s as [r |]; simpl; [left; apply exp_pos | lra].
Qed.

Lemma Rsum_exp_score_nonneg (row : list score) :
  (0 <= Rsum (map exp_score row))%R.
Proof.
  apply Rsum_nonneg, Forall_forall. intros x Hx.
  apply in_map_iff in Hx as (s & <- & _). apply exp_score_nonneg.
Qed.

Lemma Rsum_exp_score_pos (row : list score) :
  forallb is_neg_inf row = false -> (0 < Rsum (map exp_score row))%R.
Proof.
  induction row as [| s row IH]; simpl; [discriminate |].
  destruct s as [r |]; simpl.
  - intros _. pose proof (exp_pos r). pose proof (Rsum_exp_score_nonneg row). lra.
  - intros H. apply IH in H. lra.
Qed.

Lemma Rsum_exp_pos (row : list R) :
  row <> [] -> (0 < Rsum (map exp row))%R.
Proof.
  destruct row as [| r row]; [congruence | intros _; simpl].
  pose proof (exp_pos r).
  assert (0 <= Rsum (map exp row))%R.
  { apply Rsum_nonneg, Forall_forall. intros x Hx.
    apply in_map_iff in Hx as (s & <- & _). left; apply exp_pos. }
  lra.
Qed.

Lemma F_softmax_prob_row (row : list score) :
  forallb is_neg_inf row = false -> prob_row (F_softmax row).
Proof.
  intros H. unfold F_softmax, prob_row. rewrite H.
  pose proof (Rsum_exp_score_pos row H) as Hz.
  split.
  - apply Forall_forall. intros w Hw.
    apply in_map_iff in Hw as (s & <- & _). simpl. split; [exact I |].
    apply Rmult_le_pos; [apply exp_score_nonneg | left; apply Rinv_0_lt_compat, Hz].
  - rewrite map_map. simpl.
    rewrite <- (map_map exp_score (fun x => (x / Rsum (map exp_score row))%R)).
    rewrite Rsum_scale.
    field. lra.
Qed.

Lemma F_softmax_length (row : list score) : length (F_softmax row) = length row.
Proof.
  unfold F_softmax. destruct (forallb is_neg_inf row); apply length_map.
Qed.

Lemma F_softmax_neg_inf (row : list score) (j : nat) :
  forallb is_neg_inf row = false ->
  nth j row (Sc 0) = NegInf ->
  nth j (F_softmax row) NaN = Fin 0.
Proof.
  intros H Hj. unfold F_softmax. rewrite H.
  destruct (Nat.lt_ge_cases j (length row)) as [Hlt | Hge].
  - rewrite (nth_indep _ NaN (Fin (exp_score (Sc 0) / Rsum (map exp_score row))))
      by (rewrite length_map; exact Hlt).
    rewrite (map_nth (fun s => Fin (exp_score s / Rsum (map exp_score row)))).
    rewrite Hj. simpl. f_equal. unfold Rdiv. ring.
  - rewrite nth_overflow in Hj by exact Hge. discriminate.
Qed.

Lemma F_softmax_all_neg_inf (row : list score) (j : nat) :
  forallb is_neg_inf row = true -> (j < length row)%nat ->
  nth j (F_softmax row) (Fin 0) = NaN.
Proof.
  intros H Hj. unfold F_softmax. rewrite H.
  rewrite (nth_indep _ (Fin 0) NaN) by (rewrite length_map; exact Hj).
  clear H. revert j Hj.
  induction row as [| s row IH]; intros j Hj; simpl in *; [lia |].
  destruct j; [reflexivity | apply IH; lia].
Qed.

(** ** Broadcasting and pairing *)

Lemma zipWith_length {A B C : Type} (g : A -> B -> C) (la : list A) (lb : list B) :
  length la = length lb -> length (zipWith g la lb) = length la.
Proof.
  intros H. unfold zipWith. rewrite length_map, length_combine. lia.
Qed.

Lemma zipWith_nth {A B C : Type} (g : A -> B -> C) (la : list A) (lb : list B)
    (i : nat) (da : A) (db : B) (dc : C) :
  i < length la -> i < length lb ->
  nth i (zipWith g la lb) dc = g (nth i la da) (nth i lb db).
Proof.
  revert lb i; induction la as [| a la IH]; intros [| b lb] i Ha Hb; simpl in *; try lia.
  destruct i; [reflexivity |]. apply IH; lia.
Qed.

Lemma map_nth_lt {A B : Type} (f : A -> B) (l : list A) (i : nat) (da : A) (db : B) :
  i < length l -> nth i (map f l) db = f (nth i l da).
Proof.
  revert i; induction l as [| a l IH]; intros i Hi; simpl in *; [lia |].
  destruct i; [reflexivity | apply IH; lia].
Qed.

Lemma Forall2_combine {A B : Type} (P : A -> B -> Prop) (la : list A) (lb : list B) :
  length la = length lb ->
  (forall a b, In (a, b) (combine la lb) -> P a b) -> Forall2 P la lb.
Proof.
  revert lb; induction la as [| a la IH]; intros [| b lb] Hlen H; simpl in *;
    try discriminate; constructor.
  - apply H. left; reflexivity.
  - apply IH; [lia |]. intros; apply H; right; assumption.
Qed.

Lemma bzip_pure {A B C : Type} (f : A -> B -> result C) (g : A -> B -> C)
    (la : list A) (lb : list B) :
  length la = length lb ->
  (forall a b, In (a, b) (combine la lb) -> f a b = Ok (g a b)) ->
  bzip f la lb = Ok (zipWith g la lb).
Proof.
  intros Hlen H. unfold bzip, zipWith.
  rewrite (proj2 (Nat.eqb_eq _ _) Hlen).
  apply mapM_pure. intros [a b] Hin. simpl. apply H, Hin.
Qed.

Lemma szip_pure {A B C : Type} (f : A -> B -> result C) (g : A -> B -> C)
    (la : list A) (lb : list B) :
  length la = length lb ->
  (forall a b, In (a, b) (combine la lb) -> f a b = Ok (g a b)) ->
  szip f la lb = Ok (zipWith g la lb).
Proof.
  intros Hlen H. unfold szip, zipWith.
  rewrite (proj2 (Nat.eqb_eq _ _) Hlen).
  apply mapM_pure. intros [a b] Hin. simpl. apply H, Hin.
Qed.

Lemma in_combine_nth {A B : Type} (la : list A) (lb : list B) (a : A) (b : B) :
  In (a, b) (combine la lb) ->
  exists i, i < length la /\ i < length lb /\ nth i la a = a /\ nth i lb b = b.
Proof.
  revert lb; induction la as [| a0 la IH]; intros [| b0 lb] Hin; simpl in *;
    try contradiction.
  destruct Hin as [Heq | Hin].
  - injection Heq as <- <-. exists 0. repeat split; lia.
  - apply IH in Hin as (i & Ha & Hb & Hna & Hnb).
    exists (S i). repeat split; try lia; assumption.
Qed.

(** ** Linear layers keep shapes *)

Lemma nn_Linear_wf (in_f out_f : nat) (use_bias : bool) (w : LinearInit) :
  Linear_wf (nn_Linear in_f out_f use_bias w).
Proof.
  unfold Linear_wf, nn_Linear; simpl. repeat split.
  - apply tabulate_length.
  - apply Forall_forall. intros r Hr. unfold tabulate in Hr at 1.
    apply in_map_iff in Hr as (o & <- & _). apply tabulate_length.
  - destruct use_bias; [apply tabulate_length | exact I].
Qed.

Lemma affine_length (l : Linear) (v : vec) :
  Linear_wf l -> length (affine l v) = out_features l.
Proof.
  intros (Hw & _ & Hb). unfold affine.
  destruct (bias l) as [b |].
  - rewrite zipWith_length; rewrite length_map; congruence.
  - rewrite length_map. exact Hw.
Qed.

Lemma Linear_forward2_shape (l : Linear) (n : nat) (x : mat) :
  shape2 n (in_features l) x -> Linear_forward2 l x = Ok (map (affine l) x).
Proof.
  intros [_ Hx]. unfold Linear_forward2. apply mapM_pure.
  intros v Hv. unfold Linear_apply.
  rewrite Forall_forall in Hx. rewrite (Hx v Hv), Nat.eqb_refl. reflexivity.
Qed.

Lemma Linear_forward_shape (l : Linear) (b n : nat) (x : tensor3) :
  shape3 b n (in_features l) x -> Linear_forward l x = Ok (map (map (affine l)) x).
Proof.
  intros [_ Hx]. unfold Linear_forward. apply mapM_pure.
  intros m Hm. rewrite Forall_forall in Hx.
  apply (Linear_forward2_shape l n), Hx, Hm.
Qed.

Lemma affine_shape2 (l : Linear) {n m : nat} {x : mat} :
  Linear_wf l -> shape2 n m x -> shape2 n (out_features l) (map (affine l) x).
Proof.
  intros Hl [Hn _]. split; [rewrite length_map; exact Hn |].
  apply Forall_forall. intros v Hv.
  apply in_map_iff in Hv as (u & <- & _). apply affine_length, Hl.
Qed.

Lemma affine_shape3 (l : Linear) {b n m : nat} {x : tensor3} :
  Linear_wf l -> shape3 b n m x -> shape3 b n (out_features l) (map (map (affine l)) x).
Proof.
  intros Hl [Hb Hx]. split; [rewrite length_map; exact Hb |].
  apply Forall_forall. intros y Hy.
  apply in_map_iff in Hy as (u & <- & Hu).
  rewrite Forall_forall in Hx. apply (affine_shape2 l Hl (Hx u Hu)).
Qed.

(** ** Shapes of nested lists *)

Lemma shape2_nth {A : Type} {n m : nat} {x : list (list A)} (i : nat) :
  shape2 n m x -> i < n -> length (nth i x []) = m.
Proof.
  intros [Hn Hx] Hi. rewrite Forall_forall in Hx.
  apply Hx, nth_In. lia.
Qed.

Lemma shape3_nth {A : Type} {b n m : nat} {x : list (list (list A))} (i : nat) :
  shape3 b n m x -> i < b -> shape2 n m (nth i x []).
Proof.
  intros [Hb Hx] Hi. rewrite Forall_forall in Hx.
  apply Hx, nth_In. lia.
Qed.

Lemma shape2_map {A B : Type} (f : A -> B) {n m : nat} {x : list (list A)} :
  shape2 n m x -> shape2 n m (map (map f) x).
Proof.
  intros [Hn Hx]. split; [rewrite length_map; exact Hn |].
  apply Forall_forall. intros v Hv. apply in_map_iff in Hv as (u & <- & Hu).
  rewrite length_map. rewrite Forall_forall in Hx. apply Hx, Hu.
Qed.

Lemma shape3_map {A B : Type} (f : A -> B) {b n m : nat} {x : list (list (list A))} :
  shape3 b n m x -> shape3 b n m (map (map (map f)) x).
Proof.
  intros [Hb Hx]. split; [rewrite length_map; exact Hb |].
  apply Forall_forall. intros v Hv. apply in_map_iff in Hv as (u & <- & Hu).
  apply shape2_map. rewrite Forall_forall in Hx. apply Hx, Hu.
Qed.

Lemma shape2_zipWith {A B C : Type} (g : A -> B -> C) (n m : nat)
    (la : list (list A)) (lb : list (list B)) :
  shape2 n m la -> shape2 n m lb -> shape2 n m (zipWith (zipWith g) la lb).
Proof.
  intros [Ha HA] [Hb HB]. split; [rewrite zipWith_length; lia |].
  apply Forall_forall. intros v Hv. unfold zipWith in Hv at 1.
  apply in_map_iff in Hv as ([u w] & <- & Hin). simpl.
  rewrite Forall_forall in HA, HB.
  pose proof (in_combine_l _ _ _ _ Hin). pose proof (in_combine_r _ _ _ _ Hin).
  rewrite zipWith_length; [apply HA; assumption |].
  rewrite HA, HB; auto.
Qed.

Lemma shape3_zipWith {A B C : Type} (g : A -> B -> C) (b n m : nat)
    (la : list (list (list A))) (lb : list (list (list B))) :
  shape3 b n m la -> shape3 b n m lb ->
  shape3 b n m (zipWith (zipWith (zipWith g)) la lb).
Proof.
  intros [Ha HA] [Hb HB]. split; [rewrite zipWith_length; lia |].
  apply Forall_forall. intros v Hv. unfold zipWith in Hv at 1.
  apply in_map_iff in Hv as ([u w] & <- & Hin). simpl.
  rewrite Forall_forall in HA, HB.
  apply shape2_zipWith; [apply HA | apply HB];
    [eapply in_combine_l | eapply in_combine_r]; eassumption.
Qed.

Lemma bzip1_shape {A B C : Type} (f : A -> B -> result C) (g : A -> B -> C)
    (la : list A) (lb : list B) :
  (forall a b, f a b = Ok (g a b)) -> length la = length lb ->
  bzip f la lb = Ok (zipWith g la lb).
Proof.
  intros Hf Hlen. apply bzip_pure; [exact Hlen | intros; apply Hf].
Qed.

Lemma bzip2_shape {A B C : Type} (f : A -> B -> result C) (g : A -> B -> C)
    (n m : nat) (la : list (list A)) (lb : list (list B)) :
  (forall a b, f a b = Ok (g a b)) -> shape2 n m la -> shape2 n m lb ->
  bzip (bzip f) la lb = Ok (zipWith (zipWith g) la lb).
Proof.
  intros Hf [Ha HA] [Hb HB]. apply bzip_pure; [lia |].
  intros u w Hin. rewrite Forall_forall in HA, HB.
  apply bzip1_shape; [exact Hf |].
  rewrite HA, HB; [reflexivity | eapply in_combine_r | eapply in_combine_l]; eassumption.
Qed.

Lemma bzip3_shape {A B C : Type} (f : A -> B -> result C) (g : A -> B -> C)
    (b n m : nat) (la : list (list (list A))) (lb : list (list (list B))) :
  (forall x y, f x y = Ok (g x y)) -> shape3 b n m la -> shape3 b n m lb ->
  bzip (bzip (bzip f)) la lb = Ok (zipWith (zipWith (zipWith g)) la lb).
Proof.
  intros Hf [Ha HA] [Hb HB]. apply bzip_pure; [lia |].
  intros u w Hin. rewrite Forall_forall in HA, HB.
  apply (bzip2_shape f g n m); [exact Hf | apply HA | apply HB];
    [eapply in_combine_l | eapply in_combine_r]; eassumption.
Qed.

Lemma combine_map_same {A B C : Type} (f : A -> B) (g : A -> C) (l : list A) :
  combine (map f l) (map g l) = map (fun a => (f a, g a)) l.
Proof.
  induction l as [| a l IH]; simpl; [reflexivity | rewrite IH; reflexivity].
Qed.

Lemma mapM_map {A B C : Type} (f : B -> result C) (g : A -> B) (l : list A) :
  mapM f (map g l) = mapM (fun a => f (g a)) l.
Proof.
  induction l as [| a l IH]; simpl; [reflexivity | rewrite IH; reflexivity].
Qed.

Lemma bzip_map_same {A B C D : Type} (f : B -> C -> result D)
    (f1 : A -> B) (f2 : A -> C) (l : list A) :
  bzip f (map f1 l) (map f2 l) = mapM (fun a => f (f1 a) (f2 a)) l.
Proof.
  unfold bzip. rewrite !length_map, Nat.eqb_refl.
  rewrite combine_map_same, mapM_map. reflexivity.
Qed.

Lemma tril_shape (n : nat) : shape2 n n (tril n).
Proof.
  unfold tril. split; [apply tabulate_length |].
  apply Forall_forall. intros r Hr. unfold tabulate in Hr at 1.
  apply in_map_iff in Hr as (i & <- & _). apply tabulate_length.
Qed.

Lemma tril_nth {n i j : nat} :
  i < n -> j < n -> nth j (nth i (tril n) []) true = (j <=? i).
Proof.
  intros Hi Hj. unfold tril.
  rewrite (tabulate_nth n _ i [] Hi).
  exact (tabulate_nth n (fun j0 => j0 <=? i) j true Hj).
Qed.

Lemma expand_length {A : Type} (n : nat) (l l' : list A) :
  expand n l = Ok l' -> length l' = n.
Proof.
  unfold expand. destruct (length l =? n) eqn:E.
  - intros H; injection H as <-. apply Nat.eqb_eq, E.
  - destruct l as [| a [| ? ?]]; try discriminate.
    intros H; injection H as <-. apply repeat_length.
Qed.

Lemma expand_as_scores_shape (m : user_mask) (B T : nat) (e : list (list (list Z))) :
  expand_as_scores m B T = Ok e -> shape3 B T T e.
Proof.
  destruct m as [m | m]; simpl; intros H.
  - apply bind_Ok_inv in H as (mq & Hmq & H). injection H as <-.
    apply expand_length in Hmq.
    split; [apply repeat_length |].
    apply Forall_forall. intros y Hy. apply repeat_spec in Hy as ->.
    split; [rewrite length_map; exact Hmq |].
    apply Forall_forall. intros r Hr. apply in_map_iff in Hr as (z & <- & _).
    apply repeat_length.
  - apply bind_Ok_inv in H as (mb & Hmb & H).
    apply expand_length in Hmb.
    pose proof (mapM_length _ _ _ H) as Hlen.
    split; [lia |].
    apply mapM_Ok_Forall2 in H.
    apply Forall_forall. intros y Hy.
    apply (In_nth _ _ []) in Hy as (k & Hk & <-).
    pose proof (Forall2_nth _ mb e k [] [] H ltac:(lia)) as Hr. simpl in Hr.
    apply bind_Ok_inv in Hr as (r' & Hr' & Hr). injection Hr as <-.
    apply expand_length in Hr'.
    split; [apply repeat_length |].
    apply Forall_forall. intros v Hv. apply repeat_spec in Hv as ->. exact Hr'.
Qed.

(** ** [Attention.forward]: the scores after masking *)

Lemma raw_scores_shape (self : Attention) {T : nat} {xb : mat} :
  length xb = T -> shape2 T T (raw_scores self xb).
Proof.
  intros H. unfold raw_scores. split; [rewrite length_map; exact H |].
  apply Forall_forall. intros r Hr. apply in_map_iff in Hr as (xi & <- & _).
  rewrite length_map. exact H.
Qed.

Lemma scaled_scores_eq (F : nat) (self : Attention) (n : nat) (xb : mat) :
  Attention_wf F self -> shape2 n F xb ->
  scaled_scores (scale self) (map (affine (query self)) xb) (map (affine (key self)) xb)
  = Ok (raw_scores self xb).
Proof.
  intros (Hk & Hq & _ & _ & _ & _ & Hkq & _) _.
  unfold scaled_scores, raw_scores.
  rewrite mapM_map. apply mapM_pure. intros xi _.
  rewrite mapM_map. apply mapM_pure. intros xj _.
  rewrite !affine_length by assumption.
  rewrite Hkq, Nat.eqb_refl. reflexivity.
Qed.

Lemma causal_buffer_tril {F : nat} {self : Attention} (T : nat) :
  Attention_wf F self -> causal_buffer self T = tril T.
Proof.
  intros (_ & _ & _ & _ & _ & _ & _ & Hc).
  unfold causal_buffer, causal_mask_ok in *.
  destruct (causal_mask self) as [m |]; [| reflexivity].
  destruct (length m =? T) eqn:E; [| reflexivity].
  apply Nat.eqb_eq in E. rewrite Hc, E. reflexivity.
Qed.

Lemma unmasked_scores_shape (self : Attention) {B T F : nat} {x : tensor3} :
  shape3 B T F x ->
  shape3 B T T (map (fun xb => map (map Sc) (raw_scores self xb)) x).
Proof.
  intros [HB Hx]. split; [rewrite length_map; exact HB |].
  apply Forall_forall. intros s Hs. apply in_map_iff in Hs as (xb & <- & Hxb).
  apply shape2_map, raw_scores_shape.
  rewrite Forall_forall in Hx. apply Hx, Hxb.
Qed.

Lemma causal_scores_shape (self : Attention) (B T F : nat) (x : tensor3) :
  shape3 B T F x ->
  shape3 B T T
    (map (fun sb => zipWith (zipWith fill_pure) sb (map (map negb) (tril T)))
         (map (fun xb => map (map Sc) (raw_scores self xb)) x)).
Proof.
  intros Hx. pose proof (unmasked_scores_shape self Hx) as [HB Hs].
  split; [rewrite length_map; exact HB |].
  apply Forall_forall. intros s Hin. apply in_map_iff in Hin as (sb & <- & Hsb).
  rewrite Forall_forall in Hs.
  apply shape2_zipWith; [apply Hs, Hsb | apply shape2_map, tril_shape].
Qed.

Lemma masked_scores_shape (self : Attention) (em : option (list (list (list Z))))
    {B T F : nat} {x : tensor3} :
  shape3 B T F x ->
  match em with Some e => shape3 B T T e | None => True end ->
  shape3 B T T (masked_scores self em T x).
Proof.
  intros Hx He. unfold masked_scores.
  assert (H1 : shape3 B T T
    (if causal self
     then map (fun sb => zipWith (zipWith fill_pure) sb (map (map negb) (tril T)))
              (map (fun xb => map (map Sc) (raw_scores self xb)) x)
     else map (fun xb => map (map Sc) (raw_scores self xb)) x)).
  { destruct (causal self);
      [eapply causal_scores_shape | eapply unmasked_scores_shape]; eassumption. }
  destruct em as [e |]; [| exact H1].
  apply shape3_zipWith; [exact H1 | apply shape3_map, He].
Qed.

Lemma expand_user_mask_shape (mask : option user_mask) (B T : nat)
    (em : option (list (list (list Z)))) :
  expand_user_mask mask B T = Ok em ->
  match em with Some e => shape3 B T T e | None => True end.
Proof.
  destruct mask as [m |]; simpl; intros H.
  - apply bind_Ok_inv in H as (e & He & H). injection H as <-.
    eapply expand_as_scores_shape, He.
  - injection H as <-. exact I.
Qed.

Lemma Attention_attn_weights_eq (F : nat) (self : Attention) (x : tensor3)
    (mask : option user_mask) (em : option (list (list (list Z)))) :
  Attention_wf F self ->
  shape3 (length x) (seq_length_of x) F x ->
  expand_user_mask mask (length x) (seq_length_of x) = Ok em ->
  Attention_attn_weights self x mask
  = Ok (map (map F_softmax) (masked_scores self em (seq_length_of x) x),
        map (map (affine (value self))) x,
        if causal self then set_causal_mask self (tril (seq_length_of x)) else self).
Proof.
  intros Hwf Hx Hm.
  pose proof Hwf as (Hk & Hq & Hv & Fk & Fq & Fv & Hkq & Hc).
  unfold Attention_attn_weights, batch_size_of.
  set (T := seq_length_of x) in *.
  rewrite (Linear_forward_shape (key self) (length x) T) by (rewrite Fk; exact Hx).
  rewrite (Linear_forward_shape (query self) (length x) T) by (rewrite Fq; exact Hx).
  rewrite (Linear_forward_shape (value self) (length x) T) by (rewrite Fv; exact Hx).
  cbn [bind].
  rewrite bzip_map_same.
  rewrite (mapM_pure _ (raw_scores self)).
  2:{ intros xb Hxb. destruct Hx as [_ Hx]. rewrite Forall_forall in Hx.
      eapply scaled_scores_eq; [exact Hwf | apply Hx, Hxb]. }
  cbn [bind]. rewrite map_map.
  rewrite (causal_buffer_tril T Hwf).
  unfold masked_scores.
  destruct (causal self) eqn:Ecausal.
  - rewrite (mapM_pure _
      (fun sb => zipWith (zipWith fill_pure) sb (map (map negb) (tril T)))).
    2:{ intros sb Hsb.
        pose proof (unmasked_scores_shape self Hx) as [_ Hs].
        rewrite Forall_forall in Hs.
        apply (bzip2_shape fill fill_pure T T);
          [reflexivity | apply Hs, Hsb | apply shape2_map, tril_shape]. }
    cbn [bind].
    destruct mask as [m |]; simpl in Hm.
    + apply bind_Ok_inv in Hm as (e & He & Hm). injection Hm as <-.
      rewrite He. cbn [bind].
      rewrite (bzip3_shape fill fill_pure (length x) T T);
        [reflexivity | reflexivity | eapply causal_scores_shape, Hx
        | eapply shape3_map, expand_as_scores_shape, He].
    + injection Hm as <-. reflexivity.
  - cbn [bind].
    destruct mask as [m |]; simpl in Hm.
    + apply bind_Ok_inv in Hm as (e & He & Hm). injection Hm as <-.
      rewrite He. cbn [bind].
      rewrite (bzip3_shape fill fill_pure (length x) T T);
        [reflexivity | reflexivity | eapply unmasked_scores_shape, Hx
        | eapply shape3_map, expand_as_scores_shape, He].
    + injection Hm as <-. reflexivity.
Qed.

Lemma unmasked_scores_entry (self : Attention) {B T F : nat} {x : tensor3} (b i j : nat) :
  shape3 B T F x -> b < B -> i < T -> j < T ->
  nth j (nth i (nth b (map (fun xb => map (map Sc) (raw_scores self xb)) x) []) []) (Sc 0)
  = Sc (nth j (nth i (raw_scores self (nth b x [])) []) 0%R).
Proof.
  intros Hx Hb Hi Hj. pose proof Hx as [HB HX].
  rewrite (map_nth_lt _ x b [] []) by lia.
  pose proof (shape3_nth b Hx Hb) as [Hn _].
  pose proof (raw_scores_shape self Hn) as Hr.
  rewrite (map_nth_lt _ _ i [] []) by (destruct Hr; lia).
  apply map_nth_lt. rewrite (shape2_nth i Hr Hi). exact Hj.
Qed.

Lemma causal_scores_entry (self : Attention) {B T F : nat} {x : tensor3} (b i j : nat) :
  shape3 B T F x -> b < B -> i < T -> j < T ->
  nth j (nth i (nth b
    (map (fun sb => zipWith (zipWith fill_pure) sb (map (map negb) (tril T)))
         (map (fun xb => map (map Sc) (raw_scores self xb)) x)) []) []) (Sc 0)
  = if j <=? i then Sc (nth j (nth i (raw_scores self (nth b x [])) []) 0%R) else NegInf.
Proof.
  intros Hx Hb Hi Hj.
  pose proof (unmasked_scores_shape self Hx) as Hs.
  pose proof (shape3_nth b Hs Hb) as Hsb.
  pose proof (shape2_map negb (tril_shape T)) as Ht.
  rewrite (map_nth_lt _ _ b [] []) by (destruct Hs; lia).
  rewrite (zipWith_nth _ _ _ i [] [] []) by (destruct Hsb, Ht; lia).
  rewrite (zipWith_nth _ _ _ j (Sc 0) true (Sc 0))
    by (rewrite ?(shape2_nth i Hsb Hi), ?(shape2_nth i Ht Hi); exact Hj).
  rewrite (unmasked_scores_entry self b i j Hx Hb Hi Hj).
  rewrite (map_nth_lt _ _ i [] []) by (destruct (tril_shape T); lia).
  rewrite (map_nth_lt negb _ j true true)
    by (rewrite (shape2_nth i (tril_shape T) Hi); exact Hj).
  rewrite (tril_nth Hi Hj).
  destruct (j <=? i); reflexivity.
Qed.

Lemma masked_scores_entry (self : Attention) (em : option (list (list (list Z))))
    {B T F : nat} {x : tensor3} (b i j : nat) :
  shape3 B T F x ->
  match em with Some e => shape3 B T T e | None => True end ->
  b < B -> i < T -> j < T ->
  nth j (nth i (nth b (masked_scores self em T x) []) []) (Sc 0)
  = if allowed self em b i j
    then Sc (nth j (nth i (raw_scores self (nth b x [])) []) 0%R)
    else NegInf.
Proof.
  intros Hx He Hb Hi Hj. unfold masked_scores, allowed.
  assert (H1 :
    nth j (nth i (nth b
      (if causal self
       then map (fun sb => zipWith (zipWith fill_pure) sb (map (map negb) (tril T)))
                (map (fun xb => map (map Sc) (raw_scores self xb)) x)
       else map (fun xb => map (map Sc) (raw_scores self xb)) x) []) []) (Sc 0)
    = if (if causal self then j <=? i else true)
      then Sc (nth j (nth i (raw_scores self (nth b x [])) []) 0%R)
      else NegInf).
  { destruct (causal self);
      [eapply causal_scores_entry | eapply unmasked_scores_entry]; eassumption. }
  assert (S1 : shape3 B T T
    (if causal self
     then map (fun sb => zipWith (zipWith fill_pure) sb (map (map negb) (tril T)))
              (map (fun xb => map (map Sc) (raw_scores self xb)) x)
     else map (fun xb => map (map Sc) (raw_scores self xb)) x)).
  { destruct (causal self);
      [eapply causal_scores_shape | eapply unmasked_scores_shape]; eassumption. }
  destruct em as [e |]; unfold user_allows.
  - pose proof (shape3_map (Z.eqb 0) He) as Hz.
    pose proof (shape3_nth b S1 Hb) as S1b.
    pose proof (shape3_nth b Hz Hb) as Hzb.
    rewrite (zipWith_nth _ _ _ b [] [] []) by (destruct S1, Hz; lia).
    rewrite (zipWith_nth _ _ _ i [] [] []) by (destruct S1b, Hzb; lia).
    rewrite (zipWith_nth _ _ _ j (Sc 0) false (Sc 0))
      by (rewrite ?(shape2_nth i S1b Hi), ?(shape2_nth i Hzb Hi); exact Hj).
    rewrite H1.
    rewrite (map_nth_lt _ e b [] []) by (destruct He; lia).
    pose proof (shape3_nth b He Hb) as Heb.
    rewrite (map_nth_lt _ _ i [] []) by (destruct Heb; lia).
    rewrite (map_nth_lt (Z.eqb 0) _ j 1%Z false)
      by (rewrite (shape2_nth i Heb Hi); exact Hj).
    destruct (if causal self then j <=? i else true);
      destruct (Z.eqb 0 (nth j (nth i (nth b e []) []) 1%Z)); reflexivity.
  - rewrite H1, andb_true_r. reflexivity.
Qed.

(** ** [Attention.forward]: the weights *)

Lemma forallb_neg_inf_false (row : list score) (j : nat) (r : R) :
  nth j row NegInf = Sc r -> forallb is_neg_inf row = false.
Proof.
  revert j; induction row as [| s row IH]; intros j H; simpl in *.
  - destruct j; discriminate.
  - destruct j as [| j]; [rewrite H; reflexivity |].
    rewrite (IH j H). apply andb_false_r.
Qed.

Lemma forallb_neg_inf_true (row : list score) :
  (forall j, j < length row -> nth j row (Sc 0) = NegInf) ->
  forallb is_neg_inf row = true.
Proof.
  induction row as [| s row IH]; intros H; simpl; [reflexivity |].
  pose proof (H 0 ltac:(simpl; lia)) as H0. simpl in H0. rewrite H0.
  simpl. apply IH. intros j Hj. apply (H (S j)). simpl. lia.
Qed.

Lemma softmax_row_at {ms : list (list (list score))} {B T : nat} {b i : nat} :
  shape3 B T T ms -> b < B -> i < T ->
  row_at (map (map F_softmax) ms) b i = F_softmax (nth i (nth b ms []) []).
Proof.
  intros Hs Hb Hi. unfold row_at.
  rewrite (map_nth_lt _ ms b [] []) by (destruct Hs; lia).
  apply map_nth_lt. destruct (shape3_nth b Hs Hb). lia.
Qed.

(** A query row with a key that is not forbidden gets a probability row. *)
Lemma masked_row_prob (self : Attention) (em : option (list (list (list Z))))
    {B T F : nat} {x : tensor3} (b i j : nat) :
  shape3 B T F x ->
  match em with Some e => shape3 B T T e | None => True end ->
  b < B -> i < T -> j < T -> allowed self em b i j = true ->
  prob_row (row_at (map (map F_softmax) (masked_scores self em T x)) b i).
Proof.
  intros Hx He Hb Hi Hj Ha.
  pose proof (masked_scores_shape self em Hx He) as Hs.
  rewrite (softmax_row_at Hs Hb Hi).
  apply F_softmax_prob_row.
  pose proof (masked_scores_entry self em b i j Hx He Hb Hi Hj) as E.
  rewrite Ha in E.
  apply (forallb_neg_inf_false _ j (nth j (nth i (raw_scores self (nth b x [])) []) 0%R)).
  rewrite (nth_indep _ NegInf (Sc 0)); [exact E |].
  rewrite (shape2_nth i (shape3_nth b Hs Hb) Hi). exact Hj.
Qed.

(** A forbidden key of a row that is not forbidden as a whole gets weight
    zero; in a row that is forbidden as a whole every weight is NaN. *)
Lemma masked_weight_zero (self : Attention) (em : option (list (list (list Z))))
    {B T F : nat} {x : tensor3} (b i j j0 : nat) :
  shape3 B T F x ->
  match em with Some e => shape3 B T T e | None => True end ->
  b < B -> i < T -> j < T -> j0 < T ->
  allowed self em b i j0 = true -> allowed self em b i j = false ->
  weight_at (map (map F_softmax) (masked_scores self em T x)) b i j = Fin 0.
Proof.
  intros Hx He Hb Hi Hj Hj0 Ha0 Ha.
  pose proof (masked_scores_shape self em Hx He) as Hs.
  unfold weight_at. fold (row_at (map (map F_softmax) (masked_scores self em T x)) b i).
  rewrite (softmax_row_at Hs Hb Hi).
  pose proof (masked_scores_entry self em b i j Hx He Hb Hi Hj) as E.
  pose proof (masked_scores_entry self em b i j0 Hx He Hb Hi Hj0) as E0.
  rewrite Ha in E. rewrite Ha0 in E0.
  apply F_softmax_neg_inf; [| exact E].
  apply (forallb_neg_inf_false _ j0 (nth j0 (nth i (raw_scores self (nth b x [])) []) 0%R)).
  rewrite (nth_indep _ NegInf (Sc 0)); [exact E0 |].
  rewrite (shape2_nth i (shape3_nth b Hs Hb) Hi). exact Hj0.
Qed.

Lemma masked_weight_nan (self : Attention) (em : option (list (list (list Z))))
    {B T F : nat} {x : tensor3} (b i j : nat) :
  shape3 B T F x ->
  match em with Some e => shape3 B T T e | None => True end ->
  b < B -> i < T -> j < T ->
  (forall j', j' < T -> allowed self em b i j' = false) ->
  weight_at (map (map F_softmax) (masked_scores self em T x)) b i j = NaN.
Proof.
  intros Hx He Hb Hi Hj Hall.
  pose proof (masked_scores_shape self em Hx He) as Hs.
  unfold weight_at. fold (row_at (map (map F_softmax) (masked_scores self em T x)) b i).
  rewrite (softmax_row_at Hs Hb Hi).
  pose proof (shape2_nth i (shape3_nth b Hs Hb) Hi) as Hlen.
  rewrite (nth_indep _ NaN (Fin 0)) by (rewrite F_softmax_length, Hlen; exact Hj).
  apply F_softmax_all_neg_inf; [| rewrite Hlen; exact Hj].
  apply forallb_neg_inf_true. intros j' Hj'. rewrite Hlen in Hj'.
  rewrite (masked_scores_entry self em b i j' Hx He Hb Hi Hj').
  rewrite (Hall j' Hj'). reflexivity.
Qed.

(** The causal mask forbids every later key. *)
Lemma causal_forbids_later (self : Attention) (em : option (list (list (list Z))))
    (b i j : nat) :
  causal self = true -> i < j -> allowed self em b i j = false.
Proof.
  intros Hc Hij. unfold allowed. rewrite Hc.
  destruct (Nat.leb_spec j i); [lia | reflexivity].
Qed.

(** Well-formedness is established by the constructor and kept by
    [forward]. *)
Lemma Attention_init_wf (feature_size head_size : nat) (c : bool) (w : AttentionInit)
    (self : Attention) :
  Attention_init feature_size head_size c w = Ok self ->
  Attention_wf feature_size self /\ causal self = c /\
  out_features (value self) = head_size.
Proof.
  unfold Attention_init. destruct (head_size =? 0); [discriminate |].
  intros H; injection H as <-. unfold Attention_wf, causal_mask_ok; simpl.
  repeat split; apply nn_Linear_wf.
Qed.

Lemma Attention_wf_step (F : nat) (self : Attention) (T : nat) :
  Attention_wf F self ->
  Attention_wf F (if causal self then set_causal_mask self (tril T) else self).
Proof.
  intros Hwf. destruct (causal self); [| exact Hwf].
  destruct Hwf as (Hk & Hq & Hv & Fk & Fq & Fv & Hkq & _).
  unfold Attention_wf, causal_mask_ok, set_causal_mask.
  cbn [key query value scale causal causal_mask].
  repeat (split; [assumption |]).
  pose proof (tril_shape T) as [Hn _]. rewrite Hn. reflexivity.
Qed.

(** * The encoder/decoder blocks *)

(** ** Constructors that cannot return *)

Lemma LayerNormalization_init_raises (e : R) :
  LayerNormalization_init e
  = Raise (AttributeError "module 'torch.nn' has no attribute 'Paremeter'").
Proof. reflexivity. Qed.

Lemma nn_Dropout_cases (rate : R) :
  (exists d, nn_Dropout rate = Ok d) \/ raises (nn_Dropout rate).
Proof.
  unfold nn_Dropout, raises.
  destruct (Rlt_dec rate 0); [right; eauto |].
  destruct (Rlt_dec 1 rate); [right; eauto | left; eauto].
Qed.

Lemma ResidualConnection_init_raises (dropout : R) :
  raises (ResidualConnection_init dropout).
Proof.
  unfold ResidualConnection_init.
  destruct (nn_Dropout_cases dropout) as [[d Hd] | [e He]].
  - rewrite Hd. simpl. eexists; reflexivity.
  - rewrite He. simpl. eexists; reflexivity.
Qed.

Lemma EncoderBlock_init_raises (sa : MultiHeadAttentionBlock) (ff : FeedForwardBlock)
    (dropout : R) :
  raises (EncoderBlock_init sa ff dropout).
Proof.
  unfold EncoderBlock_init.
  destruct (ResidualConnection_init_raises dropout) as [e He].
  cbn [nn_getattr assoc torch_nn String.eqb Ascii.eqb Bool.eqb bind seq mapM].
  rewrite He. simpl. eexists; reflexivity.
Qed.

Lemma Encoder_init_raises (layers : list EncoderBlock) :
  Encoder_init layers = Raise (AttributeError "'Encoder' object has no attribute 'norm'").
Proof. reflexivity. Qed.

Lemma DecoderBlock_init_raises (sa ca : MultiHeadAttentionBlock) (ff : FeedForwardBlock)
    (dropout : R) :
  DecoderBlock_init sa ca ff dropout
  = Raise (TypeError "descriptor '__init__' of 'super' object needs an argument").
Proof. reflexivity. Qed.

Lemma Decoder_init_raises (layers : list DecoderBlock) :
  Decoder_init layers
  = Raise (AttributeError "module 'torch.nn' has no attribute 'Paremeter'").
Proof. reflexivity. Qed.

(** [nn.Mpdule] does not resolve either, so [DecoderBlock.__init__] would
    still raise with the [super] call repaired. *)
Lemma nn_Mpdule_missing :
  nn_getattr "Mpdule" = Raise (AttributeError "module 'torch.nn' has no attribute 'Mpdule'").
Proof. reflexivity. Qed.

(** ** [LayerNormalization.forward] *)

Lemma std_nonneg (v : vec) : (0 <= std v)%R.
Proof. apply sqrt_pos. Qed.

Lemma LayerNormalization_row_eq (self : LayerNormalization) (v : vec) :
  2 <= length v -> (0 < eps self)%R ->
  LayerNormalization_row self v
  = Ok (scale_shift (alpha self) (ln_bias self) (standardize (eps self) v)).
Proof.
  intros Hlen Heps. unfold LayerNormalization_row.
  destruct (length v) as [| [| n]] eqn:E; try lia.
  destruct (Req_dec_T (std v + eps self) 0) as [H0 | _].
  - pose proof (std_nonneg v). lra.
  - f_equal. unfold scale_shift, standardize. rewrite map_map.
    apply map_ext. intros a. unfold std, Rdiv. ring.
Qed.

Lemma LayerNormalization_forward_eq (self : LayerNormalization) (B T F : nat) (x : tensor3) :
  shape3 B T F x -> 2 <= F -> (0 < eps self)%R ->
  LayerNormalization_forward self x
  = Ok (map (map (fun v =>
          scale_shift (alpha self) (ln_bias self) (standardize (eps self) v))) x).
Proof.
  intros [_ Hx] HF Heps. unfold LayerNormalization_forward.
  apply mapM_pure. intros m Hm. apply mapM_pure. intros v Hv.
  rewrite Forall_forall in Hx. destruct (Hx m Hm) as [_ Hm'].
  rewrite Forall_forall in Hm'.
  apply LayerNormalization_row_eq; [rewrite (Hm' v Hv); exact HF | exact Heps].
Qed.

Lemma mean_spec (v : vec) :
  v <> [] -> (mean v * INR (length v) = Rsum v)%R.
Proof.
  intros Hv. unfold mean. field.
  apply not_0_INR. destruct v; [congruence | simpl; lia].
Qed.

Lemma variance_spec (v : vec) :
  2 <= length v ->
  (variance v * (INR (length v) - 1)
   = Rsum (map (fun a => (a - mean v) * (a - mean v)) v))%R.
Proof.
  intros Hv. unfold variance. field.
  apply le_INR in Hv. simpl in Hv. lra.
Qed.

(** ** Dropout and addition keep shapes *)

Lemma imap_length {A B : Type} (f : nat -> A -> B) (l : list A) :
  length (imap f l) = length l.
Proof.
  unfold imap. rewrite zipWith_length; rewrite length_seq; reflexivity.
Qed.

Lemma imap_in {A B : Type} (f : nat -> A -> B) (l : list A) (y : B) :
  In y (imap f l) -> exists i a, In a l /\ y = f i a.
Proof.
  unfold imap, zipWith. intros H.
  apply in_map_iff in H as ([i a] & <- & Hin).
  exists i, a. split; [eapply in_combine_r; exact Hin | reflexivity].
Qed.

Lemma Dropout_forward_shape (d : Dropout) (keep : keep3) {B T F : nat} {x : tensor3} :
  shape3 B T F x -> shape3 B T F (Dropout_forward d keep x).
Proof.
  intros Hx. unfold Dropout_forward. destruct (training d); [| exact Hx].
  destruct Hx as [HB Hx]. rewrite Forall_forall in Hx.
  split; [rewrite imap_length; exact HB |].
  apply Forall_forall. intros m Hm.
  apply imap_in in Hm as (b & m0 & Hm0 & ->).
  destruct (Hx m0 Hm0) as [HT Hm']. rewrite Forall_forall in Hm'.
  split; [rewrite imap_length; exact HT |].
  apply Forall_forall. intros v Hv.
  apply imap_in in Hv as (i & v0 & Hv0 & ->).
  rewrite imap_length. apply Hm', Hv0.
Qed.

Lemma tensor_add_eq (B T F : nat) (a b : tensor3) :
  shape3 B T F a -> shape3 B T F b -> tensor_add a b = Ok (tensor_add_pure a b).
Proof.
  intros Ha Hb. unfold tensor_add, tensor_add_pure.
  apply (bzip3_shape add Rplus B T F); [reflexivity | exact Ha | exact Hb].
Qed.

(** ** [ResidualConnection.forward] *)

Lemma ResidualConnection_forward_eq {S : Type} (self : ResidualConnection) (keep : keep3)
    (x : tensor3) (sublayer : tensor3 -> result (tensor3 * S)) :
  ResidualConnection_forward self keep x sublayer
  = (n <- LayerNormalization_forward (rc_norm self) x ;;
     ' (y, s) <- sublayer n ;;
     r <- tensor_add x (Dropout_forward (rc_dropout self) keep y) ;;
     Ok (r, s)).
Proof. reflexivity. Qed.

Lemma ResidualConnection_forward_same_shape {S : Type} (self : ResidualConnection)
    (keep : keep3) (x : tensor3) (sublayer : tensor3 -> result (tensor3 * S))
    (B T F : nat) (n y : tensor3) (s : S) :
  shape3 B T F x ->
  LayerNormalization_forward (rc_norm self) x = Ok n ->
  sublayer n = Ok (y, s) ->
  shape3 B T F y ->
  ResidualConnection_forward self keep x sublayer
  = Ok (tensor_add_pure x (Dropout_forward (rc_dropout self) keep y), s).
Proof.
  intros Hx Hn Hy Hys. unfold ResidualConnection_forward.
  rewrite Hn. cbn [bind]. rewrite Hy. cbn [bind].
  rewrite (tensor_add_eq B T F) by (try apply Dropout_forward_shape; assumption).
  reflexivity.
Qed.

(** ** [DecoderBlock.forward] *)

Lemma DecoderBlock_forward_eq (self : DecoderBlock) (noise : DecoderNoise)
    (x encoder_output : tensor3) (src_mask tgt_mask : option mask4) :
  DecoderBlock_forward self noise x encoder_output src_mask tgt_mask
  = (rc0 <- index (residual_connections self) 0 ;;
     _ <- LayerNormalization_forward (rc_norm rc0) x ;;
     Raise (TypeError "forward() missing required positional arguments")).
Proof.
  unfold DecoderBlock_forward, ResidualConnection_forward.
  destruct (index (residual_connections self) 0) as [rc0 | e |]; cbn [bind];
    try reflexivity.
  destruct (LayerNormalization_forward (rc_norm rc0) x) as [n | e |]; reflexivity.
Qed.

(** ** [PositionalEmbedding.forward] *)

Lemma PositionalEmbedding_forward_eq (self : PositionalEmbedding) (keep : keep3)
    (x : tensor3) :
  PositionalEmbedding_forward self keep x
  = Raise (TypeError "'bool' object is not callable").
Proof. reflexivity. Qed.

(** * The forecasting model *)

(** ** [Attention.forward] without masks *)

Lemma fl_real_fin (row : list fl) :
  Forall is_fin row -> mapM fl_real row = Ok (map fl_val row).
Proof.
  intros H. apply mapM_pure. intros w Hw.
  rewrite Forall_forall in H. specialize (H w Hw).
  destruct w; [reflexivity | contradiction].
Qed.

Lemma weighted_sum_eq (ncols : nat) (w : list (list fl)) (v : mat) :
  Forall (fun row => length row = length v /\ Forall is_fin row) w ->
  weighted_sum ncols w v = Ok (weighted_sum_pure ncols w v).
Proof.
  intros H. unfold weighted_sum, weighted_sum_pure.
  apply mapM_pure. intros row Hrow.
  rewrite Forall_forall in H. destruct (H row Hrow) as [Hlen Hfin].
  rewrite Hlen, Nat.eqb_refl, (fl_real_fin row Hfin). reflexivity.
Qed.

Lemma weighted_sum_pure_shape (ncols n : nat) (w : list (list fl)) (v : mat) :
  length w = n -> shape2 n ncols (weighted_sum_pure ncols w v).
Proof.
  intros H. unfold weighted_sum_pure. split; [rewrite length_map; exact H |].
  apply Forall_forall. intros r Hr. apply in_map_iff in Hr as (row & <- & _).
  apply tabulate_length.
Qed.

Lemma F_softmax_unmasked_fin (r : list R) : Forall is_fin (F_softmax (map Sc r)).
Proof.
  destruct r as [| a r]; [constructor |].
  pose proof (F_softmax_prob_row (map Sc (a :: r)) eq_refl) as [H _].
  eapply Forall_impl; [| exact H]. intros w [Hw _]. exact Hw.
Qed.

Lemma Attention_forward_unmasked {F : nat} {self : Attention} {x : tensor3} :
  Attention_wf F self -> causal self = false ->
  shape3 (length x) (seq_length_of x) F x ->
  exists out,
    Attention_forward self x None = Ok (out, self) /\
    shape3 (length x) (seq_length_of x) (out_features (value self)) out.
Proof.
  intros Hwf Hc Hx. unfold Attention_forward.
  rewrite (Attention_attn_weights_eq F self x None None) by (assumption || reflexivity).
  cbn [bind]. rewrite Hc. unfold masked_scores. rewrite Hc.
  set (T := seq_length_of x) in *. set (nc := out_features (value self)).
  rewrite map_map.
  rewrite (bzip_map_same (weighted_sum nc)
    (fun xb => map F_softmax (map (map Sc) (raw_scores self xb)))
    (map (affine (value self))) x).
  rewrite (mapM_pure _ (fun xb =>
    weighted_sum_pure nc (map F_softmax (map (map Sc) (raw_scores self xb)))
      (map (affine (value self)) xb))).
  - cbn [bind]. eexists; split; [reflexivity |].
    split; [rewrite length_map; reflexivity |].
    apply Forall_forall. intros y Hy. apply in_map_iff in Hy as (xb & <- & Hxb).
    apply weighted_sum_pure_shape. rewrite !length_map.
    unfold raw_scores. rewrite length_map.
    destruct Hx as [_ Hx]. rewrite Forall_forall in Hx. apply Hx, Hxb.
  - intros xb Hxb. apply weighted_sum_eq.
    destruct Hx as [_ Hx]. rewrite Forall_forall in Hx. destruct (Hx xb Hxb) as [HT _].
    apply Forall_forall. intros row Hrow.
    apply in_map_iff in Hrow as (srow & <- & Hsrow).
    apply in_map_iff in Hsrow as (r & <- & Hr).
    split; [| apply F_softmax_unmasked_fin].
    rewrite F_softmax_length, !length_map.
    pose proof (raw_scores_shape self HT) as [_ Hrs].
    rewrite Forall_forall in Hrs. rewrite (Hrs r Hr). symmetry; exact HT.
Qed.

(** ** [MultiHeadAttention.forward] *)

Lemma cat2_shape {B T k m : nat} {a b : tensor3} :
  shape3 B T k a -> shape3 B T m b ->
  exists c, cat2 a b = Ok c /\ shape3 B T (k + m) c.
Proof.
  intros [Ha HA] [Hb HB]. rewrite Forall_forall in HA, HB.
  exists (zipWith (zipWith (@app R)) a b). split.
  - unfold cat2. apply szip_pure; [lia |].
    intros u w Hin.
    pose proof (HA u (in_combine_l _ _ _ _ Hin)) as [Hu _].
    pose proof (HB w (in_combine_r _ _ _ _ Hin)) as [Hw _].
    apply szip_pure; [lia | reflexivity].
  - split; [rewrite zipWith_length; lia |].
    apply Forall_forall. intros y Hy. unfold zipWith in Hy at 1.
    apply in_map_iff in Hy as ([u w] & <- & Hin). simpl.
    pose proof (HA u (in_combine_l _ _ _ _ Hin)) as [Hu HU].
    pose proof (HB w (in_combine_r _ _ _ _ Hin)) as [Hw HW].
    rewrite Forall_forall in HU, HW.
    split; [rewrite zipWith_length; lia |].
    apply Forall_forall. intros r Hr. unfold zipWith in Hr.
    apply in_map_iff in Hr as ([p q] & <- & Hin'). simpl.
    rewrite length_app.
    rewrite (HU p (in_combine_l _ _ _ _ Hin')), (HW q (in_combine_r _ _ _ _ Hin')).
    reflexivity.
Qed.

Lemma fold_cat2_shape {B T hs : nat} {ts : list tensor3} {k : nat} {a : tensor3} :
  shape3 B T k a -> Forall (shape3 B T hs) ts ->
  exists c, fold_left (fun acc t' => a0 <- acc ;; cat2 a0 t') ts (Ok a) = Ok c /\
            shape3 B T (k + length ts * hs) c.
Proof.
  revert k a; induction ts as [| t ts IH]; intros k a Ha Hts; simpl.
  - exists a. split; [reflexivity |]. rewrite Nat.add_0_r. exact Ha.
  - inversion Hts as [| ? ? Ht Hts']; subst.
    destruct (cat2_shape Ha Ht) as (c & Hc & Hcs).
    rewrite Hc.
    destruct (IH _ _ Hcs Hts') as (c' & Hc' & Hcs').
    exists c'. split; [exact Hc' |].
    replace (k + (hs + length ts * hs)) with (k + hs + length ts * hs) by lia.
    exact Hcs'.
Qed.

Lemma cat_last_shape {B T hs : nat} {ts : list tensor3} :
  ts <> [] -> Forall (shape3 B T hs) ts ->
  exists c, cat_last ts = Ok c /\ shape3 B T (length ts * hs) c.
Proof.
  destruct ts as [| t ts]; [congruence | intros _ Hts].
  inversion Hts as [| ? ? Ht Hts']; subst. simpl.
  apply (fold_cat2_shape Ht Hts').
Qed.

Lemma heads_forward {F hs : nat} {hds : list Attention} {x : tensor3} :
  Forall (fun a => Attention_wf F a /\ causal a = false /\ out_features (value a) = hs) hds ->
  shape3 (length x) (seq_length_of x) F x ->
  exists outs,
    mapM (fun head => Attention_forward head x None) hds = Ok outs /\
    map snd outs = hds /\ length outs = length hds /\
    Forall (shape3 (length x) (seq_length_of x) hs) (map fst outs).
Proof.
  intros Hh Hx. induction Hh as [| a hds (Hwf & Hc & Ho) _ IH]; simpl.
  - exists []. repeat split; constructor.
  - destruct (Attention_forward_unmasked Hwf Hc Hx) as (out & Hout & Hs).
    destruct IH as (outs & Houts & Hsnd & Hlen & Hshapes).
    rewrite Hout. cbn [bind]. rewrite Houts. cbn [bind].
    exists ((out, a) :: outs). simpl. repeat split.
    + rewrite Hsnd. reflexivity.
    + rewrite Hlen. reflexivity.
    + constructor; [rewrite <- Ho; exact Hs | exact Hshapes].
Qed.

Lemma MultiHeadAttention_forward_shape (F hs : nat) (self : MultiHeadAttention)
    (x : tensor3) :
  MultiHeadAttention_wf F hs self ->
  shape3 (length x) (seq_length_of x) F x ->
  exists y,
    MultiHeadAttention_forward self x None = Ok (y, self) /\
    shape3 (length x) (seq_length_of x) (out_features (output_projection self)) y.
Proof.
  intros (Hne & Hh & Hl & Hin) Hx. unfold MultiHeadAttention_forward.
  destruct (heads_forward Hh Hx) as (outs & Houts & Hsnd & Hlen & Hshapes).
  rewrite Houts. cbn [bind].
  assert (Hne' : map fst outs <> []).
  { intros E. apply (f_equal (@length _)) in E. rewrite length_map, Hlen in E.
    destruct (heads self); [congruence | discriminate]. }
  destruct (cat_last_shape Hne' Hshapes) as (c & Hc & Hcs).
  rewrite Hc. cbn [bind].
  rewrite length_map, Hlen, <- Hin in Hcs.
  rewrite (Linear_forward_shape _ _ _ _ Hcs). cbn [bind].
  rewrite Hsnd. destruct self as [hds proj]. simpl.
  eexists; split; [reflexivity |].
  exact (affine_shape3 proj Hl Hcs).
Qed.

Lemma mapM_Ok_Forall {A B : Type} (f : A -> result B) (P : B -> Prop)
    (l : list A) (l' : list B) :
  mapM f l = Ok l' -> (forall a b, In a l -> f a = Ok b -> P b) -> Forall P l'.
Proof.
  intros H HP. apply mapM_Ok_Forall2 in H.
  induction H as [| a b l l' Hab _ IH]; constructor.
  - apply (HP a b); [left; reflexivity | exact Hab].
  - apply IH. intros a0 b0 Hin. apply HP. right; exact Hin.
Qed.

Lemma MultiHeadAttention_init_wf (num_heads head_size feature_size : nat)
    (w : MultiHeadAttentionInit) (self : MultiHeadAttention) :
  MultiHeadAttention_init num_heads head_size feature_size w = Ok self ->
  0 < num_heads ->
  MultiHeadAttention_wf feature_size head_size self /\
  out_features (output_projection self) = feature_size /\
  length (heads self) = num_heads.
Proof.
  unfold MultiHeadAttention_init. intros H Hn.
  apply bind_Ok_inv in H as (hds & Hhds & H). injection H as <-.
  pose proof (mapM_length _ _ _ Hhds) as Hlen. rewrite length_seq in Hlen.
  unfold MultiHeadAttention_wf; cbn [heads output_projection].
  split; [split; [| split; [| split]] | split].
  - intros E. rewrite E in Hlen. simpl in Hlen. lia.
  - apply (mapM_Ok_Forall _ _ _ _ Hhds). intros i a _ Ha.
    apply Attention_init_wf in Ha. exact Ha.
  - apply nn_Linear_wf.
  - rewrite Hlen. reflexivity.
  - reflexivity.
  - exact Hlen.
Qed.

(** ** [FeedForward.forward] *)

Lemma FeedForward_forward_shape (n : nat) (self : FeedForward) (keep : keep3)
    (B T : nat) (x : tensor3) :
  FeedForward_wf n self -> shape3 B T n x ->
  exists y, FeedForward_forward self keep x = Ok y /\ shape3 B T n y.
Proof.
  intros (H0 & H3 & I0 & I3 & O3) Hx. unfold FeedForward_forward.
  rewrite <- I0 in Hx.
  rewrite (Linear_forward_shape _ _ _ _ Hx). cbn [bind].
  pose proof (affine_shape3 (net_0 self) H0 Hx) as S1.
  pose proof (Dropout_forward_shape (net_2 self) keep (shape3_map relu S1)) as S2.
  rewrite <- I3 in S2.
  rewrite (Linear_forward_shape _ _ _ _ S2).
  eexists; split; [reflexivity |].
  rewrite <- O3. exact (affine_shape3 (net_3 self) H3 S2).
Qed.

Lemma FeedForward_init_wf (n e : nat) (rate : R) (w : FeedForwardInit) (self : FeedForward) :
  FeedForward_init n e rate w = Ok self -> FeedForward_wf n self.
Proof.
  unfold FeedForward_init. intros H.
  apply bind_Ok_inv in H as (d & _ & H). injection H as <-.
  unfold FeedForward_wf; cbn [net_0 net_3].
  split; [apply nn_Linear_wf | split; [apply nn_Linear_wf |]].
  repeat split.
Qed.

(** ** [TimeSeriesTransformer.forward] *)

Lemma concat_length_shape2 {A : Type} (B T : nat) (x : list (list A)) :
  shape2 B T x -> length (concat x) = B * T.
Proof.
  intros [HB Hx]. subst B. induction Hx as [| v x Hv _ IH]; simpl; [reflexivity |].
  rewrite length_app, IH, Hv. reflexivity.
Qed.

Lemma In_firstn_skipn {A : Type} (a : A) (n k : nat) (l : list A) :
  In a (firstn n (skipn k l)) -> In a l.
Proof.
  intros H.
  rewrite <- (firstn_skipn k l). apply in_or_app. right.
  rewrite <- (firstn_skipn n (skipn k l)). apply in_or_app. left. exact H.
Qed.

Lemma chunks_shape {A : Type} (B T n : nat) (y : list (list A)) :
  shape2 (B * T) n y ->
  shape3 B T n (tabulate B (fun b => firstn T (skipn (b * T) y))).
Proof.
  intros [Hlen Hy]. split; [apply tabulate_length |].
  apply Forall_forall. intros c Hc. unfold tabulate in Hc.
  apply in_map_iff in Hc as (b & <- & Hb). apply in_seq in Hb.
  split.
  - rewrite length_firstn, length_skipn, Hlen. nia.
  - apply Forall_forall. intros v Hv.
    apply In_firstn_skipn in Hv.
    rewrite Forall_forall in Hy. apply Hy, Hv.
Qed.

Lemma Embedding_arange_eq (table : mat) (bs n T : nat) :
  shape2 bs n table -> T <= bs ->
  exists pos, Embedding_arange table T = Ok pos /\ shape2 T n pos.
Proof.
  intros [Hlen Htab] HT.
  exists (map (fun i => nth i table []) (seq 0 T)). split.
  - unfold Embedding_arange. apply mapM_pure. intros i Hi. apply in_seq in Hi.
    rewrite (nth_error_nth' table []) by lia. reflexivity.
  - split; [rewrite length_map, length_seq; reflexivity |].
    apply Forall_forall. intros r Hr. apply in_map_iff in Hr as (i & <- & Hi).
    apply in_seq in Hi. rewrite Forall_forall in Htab. apply Htab, nth_In. lia.
Qed.

Lemma bzip_singleton_r {A B C : Type} (f : A -> B -> result C) (la : list A) (b : B) :
  bzip f la [b] = mapM (fun a => f a b) la.
Proof.
  destruct la as [| a [| a' la]]; reflexivity.
Qed.

Lemma add_position_shape (B T n : nat) (x : tensor3) (pos : mat) :
  shape3 B T n x -> shape2 T n pos ->
  exists y, tensor_add x [pos] = Ok y /\ shape3 B T n y.
Proof.
  intros [HB Hx] Hp. unfold tensor_add. rewrite bzip_singleton_r.
  exists (map (fun xb => zipWith (zipWith Rplus) xb pos) x). split.
  - apply mapM_pure. intros xb Hxb. rewrite Forall_forall in Hx.
    apply (bzip2_shape add Rplus T n); [reflexivity | apply Hx, Hxb | exact Hp].
  - split; [rewrite length_map; exact HB |].
    apply Forall_forall. intros y Hy. apply in_map_iff in Hy as (xb & <- & Hxb).
    rewrite Forall_forall in Hx. apply shape2_zipWith; [apply Hx, Hxb | exact Hp].
Qed.

Lemma last_map {A B : Type} (f : A -> B) (l : list A) (da : A) (db : B) :
  l <> [] -> last (map f l) db = f (last l da).
Proof.
  induction l as [| a l IH]; [congruence | intros _].
  destruct l as [| a' l]; [reflexivity |].
  change (last (map f (a' :: l)) db = f (last (a' :: l) da)).
  apply IH. discriminate.
Qed.

Lemma select_last_eq (l : Linear) (B T n : nat) (hidden : tensor3) :
  shape3 B T n hidden -> 0 < T ->
  select_last (map (map (affine l)) hidden)
  = Ok (map (fun hb => affine l (last hb [])) hidden).
Proof.
  intros [_ Hh] HT. unfold select_last. rewrite mapM_map.
  apply mapM_pure. intros hb Hhb.
  rewrite Forall_forall in Hh. destruct (Hh hb Hhb) as [Hlen _].
  destruct hb as [| v hb]; [simpl in Hlen; lia |].
  rewrite (last_map (affine l) (v :: hb) [] []) by discriminate.
  reflexivity.
Qed.

Lemma seq_length_of_shape (B T n : nat) (x : tensor3) :
  shape3 B T n x -> 0 < B -> seq_length_of x = T.
Proof.
  intros [HB Hx] Hpos. unfold seq_length_of.
  destruct x as [| m x]; [simpl in HB; lia |].
  apply Forall_inv in Hx. destruct Hx as [Hm _]. exact Hm.
Qed.

Lemma TimeSeriesTransformer_init_wf (n_embd block_size horizon : nat)
    (w : TimeSeriesTransformerInit) (self : TimeSeriesTransformer) :
  TimeSeriesTransformer_init n_embd block_size horizon w = Ok self ->
  TimeSeriesTransformer_wf n_embd block_size self /\ forecast_horizon self = horizon.
Proof.
  unfold TimeSeriesTransformer_init. intros H.
  apply bind_Ok_inv in H as (sa & Hsa & H).
  apply bind_Ok_inv in H as (ff & Hff & H). injection H as <-.
  apply MultiHeadAttention_init_wf in Hsa as (Hsa & Hout & _); [| lia].
  apply FeedForward_init_wf in Hff.
  unfold TimeSeriesTransformer_wf.
  cbn [position_embedding_table input_projection sa_heads ffwd forecast_projection
       forecast_horizon].
  repeat match goal with |- _ /\ _ => split end;
    try assumption; try apply nn_Linear_wf; try reflexivity.
  split; [apply tabulate_length |].
  apply Forall_forall. intros r Hr. unfold tabulate in Hr at 1.
  apply in_map_iff in Hr as (i & <- & _). apply tabulate_length.
Qed.

Lemma shape3_own_dims (B T n : nat) (x : tensor3) :
  shape3 B T n x -> 0 < B -> shape3 (length x) (seq_length_of x) n x.
Proof.
  intros Hx HB. rewrite (seq_length_of_shape B T n x Hx HB).
  destruct Hx as [Hlen Hx]. rewrite Hlen. split; assumption.
Qed.

Lemma TimeSeriesTransformer_hidden_ok (n_embd block_size : nat)
    (self : TimeSeriesTransformer) (keep : keep3) (x : mat) (B T : nat) :
  TimeSeriesTransformer_wf n_embd block_size self ->
  shape2 B T x -> 0 < B -> 0 < T -> T <= block_size ->
  exists hidden,
    TimeSeriesTransformer_hidden self keep x = Ok (hidden, self) /\
    shape3 B T n_embd hidden.
Proof.
  intros (Htab & Hip & Iip & Oip & Hsa & Osa & Hff & _) Hx HB HT Hbs.
  unfold TimeSeriesTransformer_hidden.
  assert (Hlen : length x = B) by (destruct Hx; assumption).
  assert (Hhd : length (hd [] x) = T).
  { destruct Hx as [_ Hx]. destruct x as [| v x]; [simpl in Hlen; lia |].
    apply Forall_inv in Hx. exact Hx. }
  rewrite Hlen, Hhd.
  unfold view_BT_1. rewrite (concat_length_shape2 B T x Hx), Nat.eqb_refl. cbn [bind].
  assert (S0 : shape2 (B * T) (in_features (input_projection self))
                 (map (fun s : R => [s]) (concat x))).
  { split; [rewrite length_map; apply (concat_length_shape2 B T x Hx) |].
    apply Forall_forall. intros v Hv. apply in_map_iff in Hv as (s & <- & _).
    rewrite Iip. reflexivity. }
  rewrite (Linear_forward2_shape _ _ _ S0). cbn [bind].
  pose proof (affine_shape2 (input_projection self) Hip S0) as S1.
  rewrite Oip in S1.
  unfold view_B_T_infer.
  assert (HBT : B * T <> 0) by nia.
  rewrite (proj2 (Nat.eqb_neq _ _) HBT).
  destruct S1 as [L1 F1]. rewrite L1, Nat.eqb_refl. cbn [bind].
  pose proof (chunks_shape B T n_embd _ (conj L1 F1)) as S2.
  destruct (Embedding_arange_eq (position_embedding_table self) block_size n_embd T Htab Hbs)
    as (pos & Hpos & Spos).
  rewrite Hpos. cbn [bind].
  destruct (add_position_shape B T n_embd _ pos S2 Spos) as (x1 & Hx1 & S3).
  rewrite Hx1. cbn [bind].
  destruct (MultiHeadAttention_forward_shape n_embd (n_embd / 4) (sa_heads self) x1 Hsa
              (shape3_own_dims B T n_embd x1 S3 HB)) as (x2 & Hx2 & S4).
  rewrite Hx2. cbn [bind].
  rewrite Osa in S4.
  rewrite (seq_length_of_shape B T n_embd x1 S3 HB) in S4.
  destruct S3 as [L3 _]. rewrite L3 in S4.
  destruct (FeedForward_forward_shape n_embd (ffwd self) keep B T x2 Hff S4)
    as (x3 & Hx3 & S5).
  rewrite Hx3. cbn [bind].
  exists x3. split; [| exact S5].
  destruct self; reflexivity.
Qed.

Lemma TimeSeriesTransformer_forward_ok (n_embd block_size : nat)
    (self : TimeSeriesTransformer) (keep : keep3) (x : mat) (B T : nat) (hidden : tensor3) :
  TimeSeriesTransformer_wf n_embd block_size self ->
  shape2 B T x -> 0 < T ->
  TimeSeriesTransformer_hidden self keep x = Ok (hidden, self) ->
  shape3 B T n_embd hidden ->
  TimeSeriesTransformer_forward self keep x
  = Ok (map (fun hb => affine (forecast_projection self) (last hb [])) hidden, self) /\
  shape2 B (forecast_horizon self)
    (map (fun hb => affine (forecast_projection self) (last hb [])) hidden).
Proof.
  intros (_ & _ & _ & _ & _ & _ & _ & Hfp & Ifp & Ofp) Hx HT Hh Sh.
  assert (Sout : shape2 B (forecast_horizon self)
            (map (fun hb => affine (forecast_projection self) (last hb [])) hidden)).
  { destruct Sh as [LB _]. split; [rewrite length_map; exact LB |].
    apply Forall_forall. intros v Hv. apply in_map_iff in Hv as (hb & <- & _).
    rewrite <- Ofp. apply affine_length, Hfp. }
  split; [| exact Sout].
  unfold TimeSeriesTransformer_forward. rewrite Hh. cbn [bind].
  rewrite <- Ifp in Sh.
  rewrite (Linear_forward_shape _ _ _ _ Sh). cbn [bind].
  rewrite (select_last_eq (forecast_projection self) B T _ hidden Sh HT). cbn [bind].
  unfold view_B_H.
  rewrite (concat_length_shape2 B (forecast_horizon self) _ Sout).
  destruct Hx as [Lx _]. rewrite Lx, Nat.eqb_refl. reflexivity.
Qed.

(** * [MultiHeadAttentionBlock] *)

(** ** Construction *)

Lemma nn_Dropout_raise_inv (rate : R) (e : exn) :
  nn_Dropout rate = Raise e ->
  e = ValueError "dropout probability has to be between 0 and 1".
Proof.
  unfold nn_Dropout.
  destruct (Rlt_dec rate 0); [intros H; injection H as <-; reflexivity |].
  destruct (Rlt_dec 1 rate); [intros H; injection H as <-; reflexivity | discriminate].
Qed.

Lemma MultiHeadAttentionBlock_init_zero_heads (d_model : nat) (dropout : R)
    (w : MultiHeadAttentionBlockInit) :
  MultiHeadAttentionBlock_init d_model 0 dropout w
  = Raise (ZeroDivisionError "integer division or modulo by zero").
Proof. reflexivity. Qed.

Lemma MultiHeadAttentionBlock_init_assert (d_model h : nat) (dropout : R)
    (w : MultiHeadAttentionBlockInit) :
  h <> 0 ->
  (MultiHeadAttentionBlock_init d_model h dropout w
   = Raise (AssertionError "d_model is not divisable by h")
   <-> d_model mod h <> 0).
Proof.
  intros Hh. unfold MultiHeadAttentionBlock_init.
  rewrite (proj2 (Nat.eqb_neq _ _) Hh).
  destruct (d_model mod h =? 0) eqn:E; cbn [negb].
  - apply Nat.eqb_eq in E. split; [| intros H; contradiction].
    intros H. exfalso.
    destruct (nn_Dropout dropout) as [d | e |] eqn:Hd; cbn [bind] in H; try discriminate.
    apply nn_Dropout_raise_inv in Hd. subst e. discriminate.
  - apply Nat.eqb_neq in E. split; [intros _; exact E | reflexivity].
Qed.

Lemma MultiHeadAttentionBlock_init_ok (dm nh : nat) (dropout : R)
    (w : MultiHeadAttentionBlockInit) (self : MultiHeadAttentionBlock) :
  MultiHeadAttentionBlock_init dm nh dropout w = Ok self ->
  nh <> 0 /\ dm mod nh = 0 /\
  d_model self = dm /\ h self = nh /\ h self * d_k self = d_model self.
Proof.
  unfold MultiHeadAttentionBlock_init.
  destruct (nh =? 0) eqn:E0; [discriminate |].
  destruct (dm mod nh =? 0) eqn:E; cbn [negb]; [| discriminate].
  apply Nat.eqb_neq in E0. apply Nat.eqb_eq in E.
  intros H. apply bind_Ok_inv in H as (d & _ & H). injection H as <-.
  cbn [d_model h d_k]. repeat split; try assumption.
  pose proof (Nat.div_mod_eq dm nh). lia.
Qed.

(** [MultiHeadAttention.__init__] fails for [head_size = 0] only. *)
Lemma mapM_total {A B : Type} (f : A -> result B) (l : list A) :
  (forall a, In a l -> exists b, f a = Ok b) -> exists l', mapM f l = Ok l'.
Proof.
  induction l as [| a l IH]; intros H; simpl; [eexists; reflexivity |].
  destruct (H a (or_introl eq_refl)) as (b & Hb).
  destruct IH as (l' & Hl'); [intros; apply H; right; assumption |].
  rewrite Hb, Hl'. eexists; reflexivity.
Qed.

Lemma Attention_init_ok_iff (feature_size head_size : nat) (c : bool) (w : AttentionInit) :
  (exists a, Attention_init feature_size head_size c w = Ok a) <-> head_size <> 0.
Proof.
  unfold Attention_init. destruct (head_size =? 0) eqn:E.
  - apply Nat.eqb_eq in E. split; [intros (a & Ha); discriminate | congruence].
  - apply Nat.eqb_neq in E. split; [intros _; exact E | intros _; eexists; reflexivity].
Qed.

Lemma MultiHeadAttention_init_ok_iff (num_heads head_size feature_size : nat)
    (w : MultiHeadAttentionInit) :
  (exists m, MultiHeadAttention_init num_heads head_size feature_size w = Ok m)
  <-> (num_heads = 0 \/ head_size <> 0).
Proof.
  unfold MultiHeadAttention_init. split.
  - intros (m & H). apply bind_Ok_inv in H as (hds & Hhds & _).
    destruct num_heads as [| n]; [left; reflexivity | right].
    simpl in Hhds. apply bind_Ok_inv in Hhds as (a & Ha & _).
    apply (proj1 (Attention_init_ok_iff feature_size head_size false (init_heads w 0))).
    exists a; exact Ha.
  - intros H.
    destruct (mapM_total
      (fun i => Attention_init feature_size head_size false (init_heads w i))
      (seq 0 num_heads)) as (hds & Hhds).
    + intros i Hi. apply Attention_init_ok_iff.
      destruct H as [-> | H]; [simpl in Hi; contradiction | exact H].
    + rewrite Hhds. eexists; reflexivity.
Qed.

(** ** The softmax output of [MultiHeadAttentionBlock.attention] *)

Lemma softmax_prob_row (r : list R) : r <> [] -> prob_row_R (softmax r).
Proof.
  intros Hr. pose proof (Rsum_exp_pos r Hr) as Hz. unfold softmax, prob_row_R.
  split.
  - apply Forall_forall. intros w Hw. apply in_map_iff in Hw as (s & <- & _).
    apply Rmult_le_pos; [left; apply exp_pos | left; apply Rinv_0_lt_compat, Hz].
  - rewrite <- (map_map exp (fun e => (e / Rsum (map exp r))%R)).
    rewrite Rsum_scale. field. lra.
Qed.

Lemma softmax_length (r : list R) : length (softmax r) = length r.
Proof. unfold softmax. apply length_map. Qed.

Lemma MultiHeadAttentionBlock_softmax_rows (query key : tensor4) (mask : option mask4)
    (S : tensor4) :
  MultiHeadAttentionBlock_softmax query key mask = Ok S ->
  Forall (Forall (Forall (fun row => row <> [] -> prob_row_R row))) S.
Proof.
  unfold MultiHeadAttentionBlock_softmax. intros H.
  apply bind_Ok_inv in H as (s0 & _ & H).
  apply bind_Ok_inv in H as (s1 & _ & H).
  apply bind_Ok_inv in H as (s2 & _ & H). injection H as <-.
  apply Forall_forall. intros a Ha. apply in_map_iff in Ha as (a0 & <- & _).
  apply Forall_forall. intros b Hb. apply in_map_iff in Hb as (b0 & <- & _).
  apply Forall_forall. intros row Hrow. apply in_map_iff in Hrow as (r & <- & _).
  intros Hne. apply softmax_prob_row.
  intros ->. apply Hne. reflexivity.
Qed.

Lemma MultiHeadAttentionBlock_attention_inv (query key value : tensor4)
    (mask : option mask4) (dropout : option Dropout) (keep : keep4)
    (out P : tensor4) :
  MultiHeadAttentionBlock_attention query key value mask dropout keep = Ok (out, P) ->
  exists S,
    MultiHeadAttentionBlock_softmax query key mask = Ok S /\
    P = attention_dropout dropout keep S /\
    bzip (bzip (matmul (last_dim4 value))) P value = Ok out.
Proof.
  unfold MultiHeadAttentionBlock_attention. intros H.
  apply bind_Ok_inv in H as (S & HS & H).
  apply bind_Ok_inv in H as (o & Ho & H). injection H as <- <-.
  exists S. repeat split; [exact HS | exact Ho].
Qed.

Lemma attention_dropout_eval (d : Dropout) (keep : keep4) (S : tensor4) :
  training d = false -> attention_dropout (Some d) keep S = S.
Proof.
  intros H. unfold attention_dropout, Dropout_forward4. rewrite H. reflexivity.
Qed.

Lemma MultiHeadAttentionBlock_forward_inv (self : MultiHeadAttentionBlock) (keep : keep4)
    (q k v : tensor3) (mask : option mask4) (y : tensor3)
    (self' : MultiHeadAttentionBlock) :
  MultiHeadAttentionBlock_forward self keep q k v mask = Ok (y, self') ->
  exists query key value x P,
    (q' <- Linear_forward (w_q self) q ;; split_heads (h self) (d_k self) q') = Ok query /\
    (k' <- Linear_forward (w_k self) k ;; split_heads (h self) (d_k self) k') = Ok key /\
    (v' <- Linear_forward (w_v self) v ;; split_heads (h self) (d_k self) v') = Ok value /\
    MultiHeadAttentionBlock_attention query key value mask (Some (mhab_dropout self)) keep
      = Ok (x, P) /\
    attention_scores self' = Some P /\
    (x' <- merge_heads (h self) (d_k self) x ;; Linear_forward (w_o self) x') = Ok y.
Proof.
  unfold MultiHeadAttentionBlock_forward. intros H.
  apply bind_Ok_inv in H as (q1 & Hq1 & H).
  apply bind_Ok_inv in H as (k1 & Hk1 & H).
  apply bind_Ok_inv in H as (v1 & Hv1 & H).
  apply bind_Ok_inv in H as (q2 & Hq2 & H).
  apply bind_Ok_inv in H as (k2 & Hk2 & H).
  apply bind_Ok_inv in H as (v2 & Hv2 & H).
  apply bind_Ok_inv in H as ([x P] & Hatt & H).
  apply bind_Ok_inv in H as (x1 & Hx1 & H).
  apply bind_Ok_inv in H as (y1 & Hy1 & H). injection H as <- <-.
  exists q2, k2, v2, x, P.
  rewrite Hq1, Hk1, Hv1. cbn [bind].
  repeat split; try assumption.
  cbn [set_attention_scores h d_k w_o] in *. rewrite Hx1. exact Hy1.
Qed.

(** ** [MultiHeadAttentionBlock.attention] on well-shaped inputs *)

Lemma shape4_nth_hd {A : Type} (a b n m : nat) (x : list (list (list (list A)))) :
  shape4 a b n m x -> 0 < a -> 0 < b -> 0 < n ->
  length (hd [] (hd [] (hd [] x))) = m.
Proof.
  intros [Ha Hx] Pa Pb Pn.
  destruct x as [| x0 x]; [simpl in Ha; lia |].
  apply Forall_inv in Hx. destruct Hx as [Hb Hx0]. simpl.
  destruct x0 as [| x00 x0]; [simpl in Hb; lia |].
  apply Forall_inv in Hx0. destruct Hx0 as [Hn Hx00]. simpl.
  destruct x00 as [| r x00]; [simpl in Hn; lia |].
  apply Forall_inv in Hx00. exact Hx00.
Qed.

Lemma matmul_transposed_eq (Tq Tk d : nat) (q k : mat) :
  shape2 Tq d q -> shape2 Tk d k ->
  matmul_transposed q k = Ok (matmul_transposed_pure q k).
Proof.
  intros [_ Hq] [_ Hk]. rewrite Forall_forall in Hq, Hk.
  unfold matmul_transposed, matmul_transposed_pure.
  apply mapM_pure. intros qi Hqi. apply mapM_pure. intros kj Hkj.
  rewrite (Hq qi Hqi), (Hk kj Hkj), Nat.eqb_refl. reflexivity.
Qed.

Lemma matmul_transposed_pure_shape (Tq Tk d : nat) (q k : mat) :
  shape2 Tq d q -> shape2 Tk d k -> shape2 Tq Tk (matmul_transposed_pure q k).
Proof.
  intros [Hq _] [Hk _]. unfold matmul_transposed_pure.
  split; [rewrite length_map; exact Hq |].
  apply Forall_forall. intros r Hr. apply in_map_iff in Hr as (qi & <- & _).
  rewrite length_map. exact Hk.
Qed.

Lemma raw_scores4_eq (B H Tq Tk d : nat) (query key : tensor4) :
  shape4 B H Tq d query -> shape4 B H Tk d key ->
  bzip (bzip matmul_transposed) query key
  = Ok (zipWith (zipWith matmul_transposed_pure) query key) /\
  shape4 B H Tq Tk (zipWith (zipWith matmul_transposed_pure) query key).
Proof.
  intros [Hq HQ] [Hk HK]. rewrite Forall_forall in HQ, HK. split.
  - apply bzip_pure; [lia |]. intros qb kb Hin.
    destruct (HQ qb (in_combine_l _ _ _ _ Hin)) as [Lq Fq].
    destruct (HK kb (in_combine_r _ _ _ _ Hin)) as [Lk Fk].
    rewrite Forall_forall in Fq, Fk.
    apply bzip_pure; [lia |]. intros qh kh Hin'.
    apply (matmul_transposed_eq Tq Tk d);
      [apply Fq; eapply in_combine_l | apply Fk; eapply in_combine_r]; eassumption.
  - split; [rewrite zipWith_length; lia |].
    apply Forall_forall. intros y Hy. unfold zipWith in Hy at 1.
    apply in_map_iff in Hy as ([qb kb] & <- & Hin). simpl.
    destruct (HQ qb (in_combine_l _ _ _ _ Hin)) as [Lq Fq].
    destruct (HK kb (in_combine_r _ _ _ _ Hin)) as [Lk Fk].
    rewrite Forall_forall in Fq, Fk.
    split; [rewrite zipWith_length; lia |].
    apply Forall_forall. intros z Hz. unfold zipWith in Hz.
    apply in_map_iff in Hz as ([qh kh] & <- & Hin'). simpl.
    apply (matmul_transposed_pure_shape Tq Tk d);
      [apply Fq; eapply in_combine_l | apply Fk; eapply in_combine_r]; eassumption.
Qed.

Lemma shape4_map {A B : Type} (f : A -> B) (a b n m : nat)
    (x : list (list (list (list A)))) :
  shape4 a b n m x -> shape4 a b n m (map (map (map (map f))) x).
Proof.
  intros [Ha Hx]. split; [rewrite length_map; exact Ha |].
  apply Forall_forall. intros v Hv. apply in_map_iff in Hv as (u & <- & Hu).
  apply shape3_map. rewrite Forall_forall in Hx. apply Hx, Hu.
Qed.

Lemma shape4_map_rows {A B : Type} (f : list A -> list B) (a b n m : nat)
    (x : list (list (list (list A)))) :
  (forall r, length (f r) = length r) ->
  shape4 a b n m x -> shape4 a b n m (map (map (map f)) x).
Proof.
  intros Hf [Ha Hx]. rewrite Forall_forall in Hx.
  split; [rewrite length_map; exact Ha |].
  apply Forall_forall. intros v Hv. apply in_map_iff in Hv as (u & <- & Hu).
  destruct (Hx u Hu) as [Hb Hu']. rewrite Forall_forall in Hu'.
  split; [rewrite length_map; exact Hb |].
  apply Forall_forall. intros w Hw. apply in_map_iff in Hw as (t & <- & Ht).
  destruct (Hu' t Ht) as [Hn Ht']. rewrite Forall_forall in Ht'.
  split; [rewrite length_map; exact Hn |].
  apply Forall_forall. intros r Hr. apply in_map_iff in Hr as (r0 & <- & Hr0).
  rewrite Hf. apply Ht', Hr0.
Qed.

Lemma mapM4_pure {A B : Type} (f : A -> result B) (g : A -> B)
    (x : list (list (list (list A)))) :
  (forall a, f a = Ok (g a)) ->
  mapM (mapM (mapM (mapM f))) x = Ok (map (map (map (map g))) x).
Proof.
  intros H. apply mapM_pure. intros ? _. apply mapM_pure. intros ? _.
  apply mapM_pure. intros ? _. apply mapM_pure. intros ? _. apply H.
Qed.

Lemma MultiHeadAttentionBlock_softmax_unmasked (B H Tq Tk d : nat) (query key : tensor4) :
  shape4 B H Tq d query -> shape4 B H Tk d key ->
  0 < B -> 0 < H -> 0 < Tq -> 0 < d ->
  MultiHeadAttentionBlock_softmax query key None
  = Ok (map (map (map softmax)) (scaled_scores4 d query key)) /\
  shape4 B H Tq Tk (map (map (map softmax)) (scaled_scores4 d query key)).
Proof.
  intros Hq Hk PB PH PT Pd.
  destruct (raw_scores4_eq B H Tq Tk d query key Hq Hk) as [E S0].
  split.
  - unfold MultiHeadAttentionBlock_softmax, last_dim4.
    rewrite (shape4_nth_hd B H Tq d query Hq PB PH PT).
    rewrite E. cbn [bind].
    rewrite (mapM4_pure (div_sqrt d) (fun s => (s / sqrt (INR d))%R)).
    + reflexivity.
    + intros s. unfold div_sqrt.
      rewrite (proj2 (Nat.eqb_neq d 0)) by lia. reflexivity.
  - apply shape4_map_rows; [apply softmax_length |].
    unfold scaled_scores4. apply shape4_map, S0.
Qed.

Lemma Dropout_forward4_shape (d : Dropout) (keep : keep4) (a b n m : nat) (x : tensor4) :
  shape4 a b n m x -> shape4 a b n m (Dropout_forward4 d keep x).
Proof.
  intros Hx. unfold Dropout_forward4. destruct (training d); [| exact Hx].
  destruct Hx as [Ha Hx]. rewrite Forall_forall in Hx.
  split; [rewrite imap_length; exact Ha |].
  apply Forall_forall. intros y Hy. apply imap_in in Hy as (i & y0 & Hy0 & ->).
  destruct (Hx y0 Hy0) as [Hb Hy']. rewrite Forall_forall in Hy'.
  split; [rewrite imap_length; exact Hb |].
  apply Forall_forall. intros z Hz. apply imap_in in Hz as (j & z0 & Hz0 & ->).
  destruct (Hy' z0 Hz0) as [Hn Hz']. rewrite Forall_forall in Hz'.
  split; [rewrite imap_length; exact Hn |].
  apply Forall_forall. intros r Hr. apply imap_in in Hr as (k & r0 & Hr0 & ->).
  rewrite imap_length. apply Hz', Hr0.
Qed.

Lemma matmul_eq (n k ncols : nat) (a b : mat) :
  shape2 n k a -> length b = k -> matmul ncols a b = Ok (matmul_pure ncols a b).
Proof.
  intros [_ Ha] Hb. rewrite Forall_forall in Ha.
  unfold matmul, matmul_pure. apply mapM_pure. intros row Hrow.
  rewrite (Ha row Hrow), Hb, Nat.eqb_refl. reflexivity.
Qed.

Lemma weighted_values4_eq (B H Tq Tk dv : nat) (P value : tensor4) :
  shape4 B H Tq Tk P -> shape4 B H Tk dv value ->
  bzip (bzip (matmul (last_dim4 value))) P value
  = Ok (zipWith (zipWith (matmul_pure (last_dim4 value))) P value).
Proof.
  intros [Hp HP] [Hv HV]. rewrite Forall_forall in HP, HV.
  apply bzip_pure; [lia |]. intros pb vb Hin.
  destruct (HP pb (in_combine_l _ _ _ _ Hin)) as [Lp Fp].
  destruct (HV vb (in_combine_r _ _ _ _ Hin)) as [Lv Fv].
  rewrite Forall_forall in Fp, Fv.
  apply bzip_pure; [lia |]. intros ph vh Hin'.
  apply (matmul_eq Tq Tk); [apply Fp; eapply in_combine_l; eassumption |].
  destruct (Fv vh (in_combine_r _ _ _ _ Hin')) as [L _]. exact L.
Qed.

(** On well-shaped inputs without a mask [attention] returns. *)
Lemma MultiHeadAttentionBlock_attention_unmasked (B H Tq Tk d dv : nat)
    (query key value : tensor4) (dropout : option Dropout) (keep : keep4) :
  shape4 B H Tq d query -> shape4 B H Tk d key -> shape4 B H Tk dv value ->
  0 < B -> 0 < H -> 0 < Tq -> 0 < d ->
  let P := attention_dropout dropout keep
             (map (map (map softmax)) (scaled_scores4 d query key)) in
  MultiHeadAttentionBlock_attention query key value None dropout keep
  = Ok (zipWith (zipWith (matmul_pure (last_dim4 value))) P value, P).
Proof.
  intros Hq Hk Hv PB PH PT Pd P.
  destruct (MultiHeadAttentionBlock_softmax_unmasked B H Tq Tk d query key Hq Hk PB PH PT Pd)
    as [E S].
  unfold MultiHeadAttentionBlock_attention. rewrite E. cbn [bind].
  fold (attention_dropout dropout keep (map (map (map softmax)) (scaled_scores4 d query key))).
  fold P.
  assert (SP : shape4 B H Tq Tk P).
  { unfold P, attention_dropout. destruct dropout as [dr |];
      [apply Dropout_forward4_shape, S | exact S]. }
  rewrite (weighted_values4_eq B H Tq Tk dv P value SP Hv). reflexivity.
Qed.

(** * Concrete runs *)

Lemma toy_head_init (c : bool) :
  Attention_init 1 1 c zero_Attention_init = Ok (toy_head c).
Proof. reflexivity. Qed.

Lemma toy_head_wf (c : bool) : Attention_wf 1 (toy_head c).
Proof. apply (Attention_init_wf 1 1 c zero_Attention_init), toy_head_init. Qed.

Lemma toy_x_shape : shape3 (length toy_x) (seq_length_of toy_x) 1 toy_x.
Proof. repeat constructor. Qed.

(** With the value projection at zero the output is zero whatever the
    weights are. *)
Lemma toy_forward (c : bool) :
  exists s, Attention_forward (toy_head c) toy_x None = Ok ([[[0%R]; [0%R]]], s).
Proof.
  destruct c; cbn; eexists; f_equal; f_equal;
    repeat (f_equal; try (unfold Rdiv; ring)).
Qed.

(** A key that is not forbidden gets a positive weight. *)
Lemma F_softmax_pos (row : list score) (j : nat) (r : R) :
  nth j row NegInf = Sc r ->
  exists w, nth j (F_softmax row) NaN = Fin w /\ (0 < w)%R.
Proof.
  intros Hj. pose proof (forallb_neg_inf_false row j r Hj) as Hf.
  unfold F_softmax. rewrite Hf.
  assert (Hlt : j < length row).
  { destruct (Nat.lt_ge_cases j (length row)) as [H | H]; [exact H |].
    rewrite nth_overflow in Hj by exact H. discriminate. }
  exists (exp r / Rsum (map exp_score row))%R. split.
  - rewrite (map_nth_lt _ row j NegInf NaN Hlt). rewrite Hj. reflexivity.
  - apply Rdiv_lt_0_compat; [apply exp_pos | apply Rsum_exp_score_pos, Hf].
Qed.

Lemma masked_weight_pos (self : Attention) (em : option (list (list (list Z))))
    {B T F : nat} {x : tensor3} (b i j : nat) :
  shape3 B T F x ->
  match em with Some e => shape3 B T T e | None => True end ->
  b < B -> i < T -> j < T -> allowed self em b i j = true ->
  exists w, weight_at (map (map F_softmax) (masked_scores self em T x)) b i j = Fin w /\
            (0 < w)%R.
Proof.
  intros Hx He Hb Hi Hj Ha.
  pose proof (masked_scores_shape self em Hx He) as Hs.
  unfold weight_at. fold (row_at (map (map F_softmax) (masked_scores self em T x)) b i).
  rewrite (softmax_row_at Hs Hb Hi).
  pose proof (masked_scores_entry self em b i j Hx He Hb Hi Hj) as E.
  rewrite Ha in E.
  apply (F_softmax_pos _ j (nth j (nth i (raw_scores self (nth b x [])) []) 0%R)).
  rewrite (nth_indep _ NegInf (Sc 0)); [exact E |].
  rewrite (shape2_nth i (shape3_nth b Hs Hb) Hi). exact Hj.
Qed.

(** The two toy heads give different weights to the second key in the first
    row. *)
Lemma toy_weights (c : bool) :
  exists W V s,
    Attention_attn_weights (toy_head c) toy_x None = Ok (W, V, s) /\
    (if c then weight_at W 0 0 1 = Fin 0
     else exists w, weight_at W 0 0 1 = Fin w /\ (0 < w)%R).
Proof.
  rewrite (Attention_attn_weights_eq 1 (toy_head c) toy_x None None
             (toy_head_wf c) toy_x_shape eq_refl).
  do 3 eexists. split; [reflexivity |].
  destruct c.
  - apply (masked_weight_zero (toy_head true) None 0 0 1 0 toy_x_shape I);
      unfold toy_x, seq_length_of; simpl; try lia; reflexivity.
  - apply (masked_weight_pos (toy_head false) None 0 0 1 toy_x_shape I);
      unfold toy_x, seq_length_of; simpl; try lia; reflexivity.
Qed.

(** With the first key marked as padding, the first row of a causal head has
    no key left. *)
Lemma toy_left_padding :
  exists W V s,
    Attention_attn_weights (toy_head true) toy_x (Some left_padding) = Ok (W, V, s) /\
    weight_at W 0 0 1 = NaN.
Proof.
  rewrite (Attention_attn_weights_eq 1 (toy_head true) toy_x (Some left_padding)
             (Some [[[0%Z; 1%Z]; [0%Z; 1%Z]]]) (toy_head_wf true) toy_x_shape eq_refl).
  do 3 eexists. split; [reflexivity |].
  apply (masked_weight_nan (toy_head true) (Some [[[0%Z; 1%Z]; [0%Z; 1%Z]]]) 0 0 1
           toy_x_shape).
  - repeat constructor.
  - unfold toy_x; simpl; lia.
  - unfold toy_x, seq_length_of; simpl; lia.
  - unfold toy_x, seq_length_of; simpl; lia.
  - intros [| [| j']] Hj'; [reflexivity | reflexivity |].
    unfold toy_x, seq_length_of in Hj'; simpl in Hj'; lia.
Qed.

Lemma nn_Dropout_ok (rate : R) :
  (0 <= rate <= 1)%R -> nn_Dropout rate = Ok {| p := rate; training := true |}.
Proof.
  intros [H0 H1]. unfold nn_Dropout.
  destruct (Rlt_dec rate 0); [lra |].
  destruct (Rlt_dec 1 rate); [lra | reflexivity].
Qed.

Lemma toy_forecaster_init :
  TimeSeriesTransformer_init 4 2 1 zero_TimeSeriesTransformer_init = Ok toy_forecaster.
Proof.
  unfold TimeSeriesTransformer_init, FeedForward_init.
  rewrite (nn_Dropout_ok (1 / 10)) by lra.
  reflexivity.
Qed.

(** [Attention.forward] returns the same tensor in two calls whose weights
    differ. *)
Lemma Attention_forward_hides_weights : ~ exposes_attn_weights.
Proof.
  intros [g Hg].
  destruct (toy_forward true) as (s1 & H1).
  destruct (toy_forward false) as (s2 & H2).
  destruct (toy_weights true) as (W1 & V1 & t1 & E1 & Z1).
  destruct (toy_weights false) as (W2 & V2 & t2 & E2 & w & Z2 & Hw).
  pose proof (Hg _ _ _ _ _ _ _ _ H1 E1) as G1.
  pose proof (Hg _ _ _ _ _ _ _ _ H2 E2) as G2.
  rewrite G1 in G2. subst W2. rewrite Z1 in Z2. injection Z2 as Z2. lra.
Qed.

(** ** More concrete runs *)

Lemma toy_norm_x2 :
  LayerNormalization_forward toy_norm toy_x2
  = Ok (map (map (fun v => scale_shift 1 0 (standardize (/ 1000000) v))) toy_x2).
Proof.
  apply (LayerNormalization_forward_eq toy_norm 1 1 2 toy_x2).
  - repeat constructor.
  - lia.
  - simpl. lra.
Qed.

Lemma toy_decoder_block_run :
  DecoderBlock_forward toy_decoder_block toy_noise toy_x2 toy_x2 None None
  = Raise (TypeError "forward() missing required positional arguments").
Proof.
  rewrite DecoderBlock_forward_eq.
  cbn [toy_decoder_block residual_connections index nth_error bind toy_residual rc_norm].
  rewrite toy_norm_x2. reflexivity.
Qed.

(** An empty batch and an empty window make [view(B, T, -1)] raise. *)
Lemma TimeSeriesTransformer_forward_empty (self : TimeSeriesTransformer) (keep : keep3) :
  raises (TimeSeriesTransformer_forward self keep []) /\
  raises (TimeSeriesTransformer_forward self keep [[]]).
Proof.
  split; eexists; reflexivity.
Qed.

(** Pre-normalisation and post-normalisation differ: on a position with two
    equal features and the identity as sublayer, the wrapper returns the
    input, post-normalisation returns zero. *)
Lemma mean_pair (c : R) : mean [c; c] = c.
Proof. unfold mean. simpl. field. Qed.

Lemma LayerNormalization_row_pair (c : R) :
  LayerNormalization_row toy_norm [c; c] = Ok [0%R; 0%R].
Proof.
  rewrite LayerNormalization_row_eq by (simpl; try lia; lra).
  unfold scale_shift, standardize. cbn [map toy_norm alpha ln_bias eps].
  rewrite mean_pair. repeat f_equal; unfold Rdiv; ring.
Qed.

Lemma prenorm_is_not_postnorm :
  ResidualConnection_forward toy_residual no_drop3 [[[1; 1]]]%R (fun t => Ok (t, tt))
  = Ok ([[[1; 1]]]%R, tt) /\
  post_norm_forward toy_residual no_drop3 [[[1; 1]]]%R (fun t => Ok (t, tt))
  = Ok ([[[0; 0]]]%R, tt).
Proof.
  split.
  - unfold ResidualConnection_forward, LayerNormalization_forward.
    cbn [mapM toy_residual rc_norm rc_dropout].
    rewrite LayerNormalization_row_pair. cbn.
    repeat f_equal; ring.
  - unfold post_norm_forward. cbn [bind].
    change (tensor_add [[[1; 1]]]
              (Dropout_forward (rc_dropout toy_residual) no_drop3 [[[1; 1]]]))%R
      with (Ok [[[1 + 1; 1 + 1]]]%R : result tensor3).
    cbn [bind]. unfold LayerNormalization_forward.
    cbn [mapM toy_residual rc_norm].
    rewrite LayerNormalization_row_pair. reflexivity.
Qed.

(** ** [masked_fill_] with a broadcastable mask *)

Lemma expand_fits {A : Type} (n : nat) (l : list A) :
  fits n l -> exists l', expand n l = Ok l' /\ length l' = n /\
                         forall a, In a l' -> In a l.
Proof.
  intros [H | H]; unfold expand.
  - rewrite (proj2 (Nat.eqb_eq _ _) H). exists l. repeat split; auto.
  - destruct (length l =? n) eqn:E.
    + apply Nat.eqb_eq in E. exists l. repeat split; auto.
    + destruct l as [| a [| b l]]; try discriminate.
      exists (repeat a n). split; [reflexivity | split; [apply repeat_length |]].
      intros a' Ha'. apply repeat_spec in Ha'. subst. left; reflexivity.
Qed.

Lemma mapM_total_Forall {A B : Type} (f : A -> result B) (P : B -> Prop) (l : list A) :
  (forall a, In a l -> exists b, f a = Ok b /\ P b) ->
  exists l', mapM f l = Ok l' /\ Forall P l'.
Proof.
  induction l as [| a l IH]; intros H; simpl.
  - exists []. split; [reflexivity | constructor].
  - destruct (H a (or_introl eq_refl)) as (b & Hb & Pb).
    destruct IH as (l' & Hl' & Pl'); [intros; apply H; right; assumption |].
    rewrite Hb, Hl'. exists (b :: l'). split; [reflexivity | constructor; assumption].
Qed.

Lemma bfill_total {A B : Type} (f : A -> B -> result A) (P : A -> Prop) (Q : B -> Prop)
    (n : nat) (scores : list A) (mask : list B) :
  length scores = n -> fits n mask ->
  Forall P scores -> Forall Q mask ->
  (forall a b, P a -> Q b -> exists a', f a b = Ok a' /\ P a') ->
  exists r, bfill f scores mask = Ok r /\ length r = n /\ Forall P r.
Proof.
  intros Hn Hfit HP HQ Hf. unfold bfill. rewrite Hn.
  destruct (expand_fits n mask Hfit) as (m & Hm & Lm & Im).
  rewrite Hm. cbn [bind].
  rewrite Forall_forall in HP, HQ.
  destruct (mapM_total_Forall (fun p => f (fst p) (snd p)) P (combine scores m))
    as (r & Hr & Pr).
  - intros [a b] Hin. simpl. apply Hf.
    + apply HP. eapply in_combine_l; exact Hin.
    + apply HQ, Im. eapply in_combine_r; exact Hin.
  - exists r. split; [exact Hr | split; [| exact Pr]].
    rewrite (mapM_length _ _ _ Hr), length_combine. lia.
Qed.

Lemma masked_fill_total (B H Tq Tk : nat) (scores : tensor4) (mask : mask4) :
  shape4 B H Tq Tk scores -> broadcastable4 B H Tq Tk mask ->
  exists r, bfill (bfill (bfill (bfill fill_1e9))) scores mask = Ok r /\
            shape4 B H Tq Tk r.
Proof.
  intros [LB HS] [FB HM].
  destruct (bfill_total (bfill (bfill (bfill fill_1e9)))
              (shape3 H Tq Tk)
              (fun m3 => fits H m3 /\
                 Forall (fun m2 => fits Tq m2 /\ Forall (fun m1 => fits Tk m1) m2) m3)
              B scores mask LB FB HS HM) as (r & Hr & Lr & Pr).
  - intros s3 m3 [LH HS3] [FH HM3].
    destruct (bfill_total (bfill (bfill fill_1e9))
                (shape2 Tq Tk)
                (fun m2 => fits Tq m2 /\ Forall (fun m1 => fits Tk m1) m2)
                H s3 m3 LH FH HS3 HM3) as (r3 & Hr3 & Lr3 & Pr3).
    + intros s2 m2 [LT HS2] [FT HM2].
      destruct (bfill_total (bfill fill_1e9)
                  (fun row : list R => length row = Tk)
                  (fun m1 : list Z => fits Tk m1)
                  Tq s2 m2 LT FT HS2 HM2) as (r2 & Hr2 & Lr2 & Pr2).
      * intros s1 m1 L1 F1.
        destruct (bfill_total fill_1e9 (fun _ => True) (fun _ => True)
                    Tk s1 m1 L1 F1) as (r1 & Hr1 & Lr1 & _).
        -- apply Forall_forall; auto.
        -- apply Forall_forall; auto.
        -- intros a b _ _. eexists; split; [reflexivity | exact I].
        -- exists r1. split; assumption.
      * exists r2. split; [exact Hr2 | split; assumption].
    + exists r3. split; [exact Hr3 | split; assumption].
  - exists r. split; [exact Hr | split; assumption].
Qed.

(** On well-shaped inputs the softmax stage returns for every broadcastable
    mask. *)
Lemma MultiHeadAttentionBlock_softmax_total (B H Tq Tk d : nat) (query key : tensor4)
    (mask : option mask4) :
  shape4 B H Tq d query -> shape4 B H Tk d key ->
  0 < B -> 0 < H -> 0 < Tq -> 0 < d ->
  match mask with Some m => broadcastable4 B H Tq Tk m | None => True end ->
  exists S, MultiHeadAttentionBlock_softmax query key mask = Ok S /\
            shape4 B H Tq Tk S.
Proof.
  intros Hq Hk PB PH PT Pd Hm.
  destruct (raw_scores4_eq B H Tq Tk d query key Hq Hk) as [E S0].
  unfold MultiHeadAttentionBlock_softmax, last_dim4.
  rewrite (shape4_nth_hd B H Tq d query Hq PB PH PT).
  rewrite E. cbn [bind].
  rewrite (mapM4_pure (div_sqrt d) (fun s => (s / sqrt (INR d))%R)).
  2:{ intros s. unfold div_sqrt. rewrite (proj2 (Nat.eqb_neq d 0)) by lia. reflexivity. }
  cbn [bind].
  pose proof (shape4_map (fun s => (s / sqrt (INR d))%R) B H Tq Tk _ S0) as S1.
  destruct mask as [m |].
  - destruct (masked_fill_total B H Tq Tk _ m S1 Hm) as (r & Hr & Sr).
    rewrite Hr. cbn [bind]. eexists; split; [reflexivity |].
    apply shape4_map_rows; [apply softmax_length | exact Sr].
  - cbn [bind]. eexists; split; [reflexivity |].
    apply shape4_map_rows; [apply softmax_length | exact S1].
Qed.

(** ** [MultiHeadAttentionBlock.forward] on well-shaped inputs *)

Lemma split_heads_eq (B T nh dk : nat) (t : tensor3) :
  shape3 B T (nh * dk) t ->
  split_heads nh dk t
  = Ok (map (fun tb =>
          tabulate nh (fun head => map (fun row => firstn dk (skipn (head * dk) row)) tb)) t)
  /\ shape4 B nh T dk
       (map (fun tb =>
          tabulate nh (fun head => map (fun row => firstn dk (skipn (head * dk) row)) tb)) t).
Proof.
  intros [LB Ht]. rewrite Forall_forall in Ht. split.
  - unfold split_heads. apply mapM_pure. intros tb Htb.
    destruct (Ht tb Htb) as [_ Hrows]. rewrite Forall_forall in Hrows.
    rewrite (mapM_pure _ (fun _ => tt)); [reflexivity |].
    intros row Hrow. rewrite (Hrows row Hrow), Nat.eqb_refl. reflexivity.
  - split; [rewrite length_map; exact LB |].
    apply Forall_forall. intros y Hy. apply in_map_iff in Hy as (tb & <- & Htb).
    destruct (Ht tb Htb) as [LT Hrows]. rewrite Forall_forall in Hrows.
    split; [apply tabulate_length |].
    apply Forall_forall. intros z Hz. unfold tabulate in Hz.
    apply in_map_iff in Hz as (head & <- & Hhead). apply in_seq in Hhead.
    split; [rewrite length_map; exact LT |].
    apply Forall_forall. intros r Hr. apply in_map_iff in Hr as (row & <- & Hrow).
    rewrite length_firstn, length_skipn, (Hrows row Hrow). nia.
Qed.

Lemma forallb_rows (nh T dk : nat) (xb : tensor3) :
  shape3 nh T dk xb ->
  forallb (forallb (fun row : list R => length row =? dk)) xb = true.
Proof.
  intros [_ Hx]. rewrite Forall_forall in Hx.
  apply forallb_forall. intros head Hhead.
  destruct (Hx head Hhead) as [_ Hrows]. rewrite Forall_forall in Hrows.
  apply forallb_forall. intros row Hrow. apply Nat.eqb_eq, Hrows, Hrow.
Qed.

Lemma merge_heads_eq (B nh T dk : nat) (x : tensor4) :
  shape4 B nh T dk x -> 0 < B -> 0 < nh -> 0 < dk ->
  exists y, merge_heads nh dk x = Ok y /\ shape3 B T (nh * dk) y.
Proof.
  intros [LB Hx] PB Pn Pd. rewrite Forall_forall in Hx.
  unfold merge_heads. rewrite LB.
  assert (Hne : B * (nh * dk) <> 0) by nia.
  rewrite (proj2 (Nat.eqb_neq _ _) Hne).
  exists (map (fun xb => tabulate T (fun t => concat (map (fun head => nth t head []) xb))) x).
  split.
  - apply mapM_pure. intros xb Hxb. pose proof (Hx xb Hxb) as Sxb.
    destruct Sxb as [Lh Hheads].
    rewrite Lh, Nat.eqb_refl, (forallb_rows nh T dk xb (conj Lh Hheads)). cbn [andb].
    destruct xb as [| head xb]; [simpl in Lh; lia |].
    apply Forall_inv in Hheads. destruct Hheads as [LT _].
    cbn [hd]. rewrite LT. reflexivity.
  - split; [rewrite length_map; exact LB |].
    apply Forall_forall. intros y Hy. apply in_map_iff in Hy as (xb & <- & Hxb).
    destruct (Hx xb Hxb) as [Lh Hheads]. rewrite Forall_forall in Hheads.
    split; [apply tabulate_length |].
    apply Forall_forall. intros r Hr. unfold tabulate in Hr.
    apply in_map_iff in Hr as (t & <- & Ht). apply in_seq in Ht.
    apply concat_length_shape2.
    split; [rewrite length_map; exact Lh |].
    apply Forall_forall. intros row Hrow. apply in_map_iff in Hrow as (head & <- & Hhead).
    apply (shape2_nth t (Hheads head Hhead)). lia.
Qed.

Lemma matmul_pure_shape4 (B H Tq Tk ncols : nat) (P value : tensor4) :
  shape4 B H Tq Tk P -> length value = B ->
  Forall (fun vb => length vb = H) value ->
  shape4 B H Tq ncols (zipWith (zipWith (matmul_pure ncols)) P value).
Proof.
  intros [LP HP] LV HV. rewrite Forall_forall in HP, HV.
  split; [rewrite zipWith_length; lia |].
  apply Forall_forall. intros y Hy. unfold zipWith in Hy at 1.
  apply in_map_iff in Hy as ([pb vb] & <- & Hin). simpl.
  destruct (HP pb (in_combine_l _ _ _ _ Hin)) as [Lp Fp].
  pose proof (HV vb (in_combine_r _ _ _ _ Hin)) as Lv.
  rewrite Forall_forall in Fp.
  split; [rewrite zipWith_length; lia |].
  apply Forall_forall. intros z Hz. unfold zipWith in Hz.
  apply in_map_iff in Hz as ([ph vh] & <- & Hin'). simpl.
  destruct (Fp ph (in_combine_l _ _ _ _ Hin')) as [Lq _].
  unfold matmul_pure. split; [rewrite length_map; exact Lq |].
  apply Forall_forall. intros r Hr. apply in_map_iff in Hr as (row & <- & _).
  apply tabulate_length.
Qed.

Lemma MultiHeadAttentionBlock_attention_total (B H Tq Tk d dv : nat)
    (query key value : tensor4) (mask : option mask4)
    (dropout : option Dropout) (keep : keep4) :
  shape4 B H Tq d query -> shape4 B H Tk d key -> shape4 B H Tk dv value ->
  0 < B -> 0 < H -> 0 < Tq -> 0 < Tk -> 0 < d ->
  match mask with Some m => broadcastable4 B H Tq Tk m | None => True end ->
  exists out S,
    MultiHeadAttentionBlock_softmax query key mask = Ok S /\
    MultiHeadAttentionBlock_attention query key value mask dropout keep
    = Ok (out, attention_dropout dropout keep S) /\
    shape4 B H Tq Tk (attention_dropout dropout keep S) /\
    shape4 B H Tq dv out.
Proof.
  intros Hq Hk Hv PB PH PTq PTk Pd Hm.
  destruct (MultiHeadAttentionBlock_softmax_total B H Tq Tk d query key mask
              Hq Hk PB PH PTq Pd Hm) as (S & HS & SS).
  assert (SP : shape4 B H Tq Tk (attention_dropout dropout keep S)).
  { unfold attention_dropout. destruct dropout as [dr |];
      [apply Dropout_forward4_shape, SS | exact SS]. }
  exists (zipWith (zipWith (matmul_pure (last_dim4 value)))
            (attention_dropout dropout keep S) value), S.
  split; [exact HS |].
  split; [| split; [exact SP |]].
  - unfold MultiHeadAttentionBlock_attention. rewrite HS. cbn [bind].
    fold (attention_dropout dropout keep S).
    rewrite (weighted_values4_eq B H Tq Tk dv _ value SP Hv). reflexivity.
  - unfold last_dim4. rewrite (shape4_nth_hd B H Tk dv value Hv PB PH PTk).
    destruct Hv as [LV HV].
    apply (matmul_pure_shape4 B H Tq Tk dv _ value SP LV).
    eapply Forall_impl; [| exact HV]. intros vb [L _]. exact L.
Qed.

Lemma MultiHeadAttentionBlock_init_wf (dm nh : nat) (dropout : R)
    (w : MultiHeadAttentionBlockInit) (self : MultiHeadAttentionBlock) :
  MultiHeadAttentionBlock_init dm nh dropout w = Ok self ->
  MultiHeadAttentionBlock_wf dm self /\ h self = nh.
Proof.
  intros H.
  pose proof (MultiHeadAttentionBlock_init_ok dm nh dropout w self H)
    as (_ & _ & Hd & Hh & Hm).
  split; [| exact Hh].
  unfold MultiHeadAttentionBlock_init in H.
  destruct (nh =? 0); [discriminate |].
  destruct (negb (dm mod nh =? 0)); [discriminate |].
  apply bind_Ok_inv in H as (d & _ & H). injection H as <-.
  unfold MultiHeadAttentionBlock_wf.
  cbn [w_q w_k w_v w_o h d_k d_model] in *.
  repeat match goal with |- _ /\ _ => split end;
    try apply nn_Linear_wf; try reflexivity.
  rewrite Hm. reflexivity.
Qed.

Lemma MultiHeadAttentionBlock_forward_total (dm : nat) (self : MultiHeadAttentionBlock)
    (keep : keep4) (q k v : tensor3) (mask : option mask4) (B Tq Tk : nat) :
  MultiHeadAttentionBlock_wf dm self ->
  shape3 B Tq dm q -> shape3 B Tk dm k -> shape3 B Tk dm v ->
  0 < B -> 0 < Tq -> 0 < Tk -> 0 < dm ->
  match mask with Some m => broadcastable4 B (h self) Tq Tk m | None => True end ->
  exists y P,
    MultiHeadAttentionBlock_forward self keep q k v mask
    = Ok (y, set_attention_scores self P) /\
    shape3 B Tq dm y /\ shape4 B (h self) Tq Tk P.
Proof.
  intros (Wq & Wk & Wv & Wo & Iq & Oq & Ik & Ok_ & Iv & Ov & Io & Oo & Hhd)
         Sq Sk Sv PB PTq PTk Pdm Hm.
  assert (Ph : 0 < h self) by nia.
  assert (Pd : 0 < d_k self) by nia.
  unfold MultiHeadAttentionBlock_forward.
  rewrite <- Iq in Sq. rewrite <- Ik in Sk. rewrite <- Iv in Sv.
  rewrite (Linear_forward_shape _ _ _ _ Sq).
  rewrite (Linear_forward_shape _ _ _ _ Sk).
  rewrite (Linear_forward_shape _ _ _ _ Sv). cbn [bind].
  pose proof (affine_shape3 (w_q self) Wq Sq) as Sq'.
  pose proof (affine_shape3 (w_k self) Wk Sk) as Sk'.
  pose proof (affine_shape3 (w_v self) Wv Sv) as Sv'.
  rewrite Oq, <- Hhd in Sq'. rewrite Ok_, <- Hhd in Sk'. rewrite Ov, <- Hhd in Sv'.
  destruct (split_heads_eq B Tq (h self) (d_k self) _ Sq') as [Eq Hq4].
  destruct (split_heads_eq B Tk (h self) (d_k self) _ Sk') as [Ek Hk4].
  destruct (split_heads_eq B Tk (h self) (d_k self) _ Sv') as [Ev Hv4].
  rewrite Eq, Ek, Ev. cbn [bind].
  destruct (MultiHeadAttentionBlock_attention_total B (h self) Tq Tk (d_k self) (d_k self)
              _ _ _ mask (Some (mhab_dropout self)) keep
              Hq4 Hk4 Hv4 PB Ph PTq PTk Pd Hm) as (out & S & _ & Hatt & SP & Sout).
  rewrite Hatt. cbn [bind set_attention_scores h d_k w_o].
  destruct (merge_heads_eq B (h self) Tq (d_k self) out Sout PB Ph Pd) as (m & Hmerge & Sm).
  rewrite Hmerge. cbn [bind].
  rewrite Hhd, <- Io in Sm.
  rewrite (Linear_forward_shape _ _ _ _ Sm). cbn [bind].
  eexists. exists (attention_dropout (Some (mhab_dropout self)) keep S).
  split; [reflexivity |]. split; [| exact SP].
  rewrite <- Oo. apply (affine_shape3 (w_o self) Wo Sm).
Qed.

Lemma toy_block_init :
  MultiHeadAttentionBlock_init 2 2 (1 / 10) zero_MultiHeadAttentionBlock_init
  = Ok (toy_block_in true).
Proof.
  unfold MultiHeadAttentionBlock_init. cbn [Nat.eqb Nat.modulo negb].
  change (negb (2 mod 2 =? 0)) with false. cbn iota.
  rewrite (nn_Dropout_ok (1 / 10)) by lra.
  reflexivity.
Qed.

(** * The claims *)

(** C9.  Constructing [LayerNormalization] raises for every [eps]: the
    lookup of [nn.Paremeter] fails before the constructor returns.  As a
    consequence the constructors of [ResidualConnection], [EncoderBlock],
    [Encoder], [DecoderBlock] and [Decoder] raise for all their arguments,
    so no instance of these classes is ever built. *)
Theorem C9_layer_normalization_never_constructed :
  (forall e : R,
     LayerNormalization_init e
     = Raise (AttributeError "module 'torch.nn' has no attribute 'Paremeter'")) /\
  (forall dropout : R, raises (ResidualConnection_init dropout)) /\
  (forall sa ff dropout, raises (EncoderBlock_init sa ff dropout)) /\
  (forall layers, raises (Encoder_init layers)) /\
  (forall sa ca ff dropout, raises (DecoderBlock_init sa ca ff dropout)) /\
  (forall layers, raises (Decoder_init layers)).
Proof.
  split; [exact LayerNormalization_init_raises |].
  split; [exact ResidualConnection_init_raises |].
  split; [exact EncoderBlock_init_raises |].
  split; [intros layers; eexists; apply Encoder_init_raises |].
  split; [intros sa ca ff dropout; eexists; apply DecoderBlock_init_raises |].
  intros layers; eexists; apply Decoder_init_raises.
Qed.

(** C10.  [PositionalEmbedding.forward] raises for every input: it calls
    the bool attribute [requires_grad] of the sliced buffer, so no forward
    pass through the sinusoidal front-end completes. *)
Theorem C10_positional_embedding_forward_raises :
  forall (self : PositionalEmbedding) (keep : keep3) (x : tensor3),
    PositionalEmbedding_forward self keep x
    = Raise (TypeError "'bool' object is not callable").
Proof. exact PositionalEmbedding_forward_eq. Qed.

(** C4 (the code departs from it).  [DecoderBlock.forward] calls its
    self-attention block with three arguments, [(x, x, tgt_mask)], where
    [forward] takes [(q, k, v, mask)].  Whenever the first residual wrapper
    exists and the normalisation of [x] stays finite, the call raises a
    [TypeError]; the cross-attention and feed-forward wrappers are never
    reached, and for no input does [forward] return. *)
Theorem C4_decoder_block_forward_raises :
  (forall (self : DecoderBlock) (noise : DecoderNoise) (x encoder_output : tensor3)
          (src_mask tgt_mask : option mask4),
     DecoderBlock_forward self noise x encoder_output src_mask tgt_mask
     = (rc0 <- index (residual_connections self) 0 ;;
        _ <- LayerNormalization_forward (rc_norm rc0) x ;;
        Raise (TypeError "forward() missing required positional arguments"))) /\
  DecoderBlock_forward toy_decoder_block toy_noise toy_x2 toy_x2 None None
  = Raise (TypeError "forward() missing required positional arguments").
Proof.
  split; [exact DecoderBlock_forward_eq | exact toy_decoder_block_run].
Qed.

(** C3.  [ResidualConnection.forward] normalises the input, passes the
    normalised tensor to the sublayer, applies dropout to what the sublayer
    returns, and adds the result to the original input: for every [x] and
    sublayer it is [x + dropout(sublayer(norm(x)))].  When the sublayer
    returns a tensor of the shape of [x], the sum is taken entry by entry
    with the entries of [x] itself.  This is not post-normalisation: on the
    position [(1, 1)] with the identity as sublayer the wrapper returns
    [(1, 1)], where [norm(x + dropout(sublayer(x)))] is [(0, 0)]. *)
Theorem C3_residual_connection_prenorm :
  (forall (S : Type) (self : ResidualConnection) (keep : keep3) (x : tensor3)
          (sublayer : tensor3 -> result (tensor3 * S)),
     ResidualConnection_forward self keep x sublayer
     = (n <- LayerNormalization_forward (rc_norm self) x ;;
        ' (y, s) <- sublayer n ;;
        r <- tensor_add x (Dropout_forward (rc_dropout self) keep y) ;;
        Ok (r, s))
     /\
     forall (B T F : nat) (n y : tensor3) (s : S),
       shape3 B T F x ->
       LayerNormalization_forward (rc_norm self) x = Ok n ->
       sublayer n = Ok (y, s) ->
       shape3 B T F y ->
       ResidualConnection_forward self keep x sublayer
       = Ok (tensor_add_pure x (Dropout_forward (rc_dropout self) keep y), s)) /\
  (ResidualConnection_forward toy_residual no_drop3 [[[1; 1]]]%R (fun t => Ok (t, tt))
   = Ok ([[[1; 1]]]%R, tt) /\
   post_norm_forward toy_residual no_drop3 [[[1; 1]]]%R (fun t => Ok (t, tt))
   = Ok ([[[0; 0]]]%R, tt)).
Proof.
  split; [| exact prenorm_is_not_postnorm].
  intros S self keep x sublayer. split.
  - apply ResidualConnection_forward_eq.
  - intros B T F n y s. apply ResidualConnection_forward_same_shape.
Qed.

Lemma C3_witness :
  ResidualConnection_forward toy_residual no_drop3 toy_x2 (fun n => Ok (n, tt))
  = Ok (tensor_add_pure toy_x2
          (Dropout_forward (rc_dropout toy_residual) no_drop3
             (map (map (fun v => scale_shift 1 0 (standardize (/ 1000000) v))) toy_x2)),
        tt).
Proof.
  apply (proj2 (proj1 C3_residual_connection_prenorm unit toy_residual no_drop3 toy_x2
                  (fun n => Ok (n, tt)))
           1 1 2
           (map (map (fun v => scale_shift 1 0 (standardize (/ 1000000) v))) toy_x2)).
  - repeat constructor.
  - apply (LayerNormalization_forward_eq toy_norm 1 1 2 toy_x2).
    + repeat constructor.
    + lia.
    + simpl. lra.
  - reflexivity.
  - repeat constructor.
Defined.

(** C6.  [LayerNormalization.forward] standardises every position with the
    mean and the (unbiased) variance taken over the feature axis, the
    epsilon being added to the denominator (the square root of the variance),
    and then applies the scale [alpha] and the shift [bias]. *)
Theorem C6_layer_normalization_standardizes :
  forall (self : LayerNormalization) (B T F : nat) (x : tensor3),
    shape3 B T F x -> 2 <= F -> (0 < eps self)%R ->
    LayerNormalization_forward self x
    = Ok (map (map (fun v =>
            scale_shift (alpha self) (ln_bias self) (standardize (eps self) v))) x)
    /\
    forall m v, In m x -> In v m ->
      (mean v * INR F = Rsum v)%R /\
      (variance v * (INR F - 1)
       = Rsum (map (fun a => (a - mean v) * (a - mean v)) v))%R.
Proof.
  intros self B T F x Hx HF Heps. split.
  - apply (LayerNormalization_forward_eq self B T F x Hx HF Heps).
  - intros m v Hm Hv. destruct Hx as [_ Hx]. rewrite Forall_forall in Hx.
    destruct (Hx m Hm) as [_ Hm']. rewrite Forall_forall in Hm'.
    pose proof (Hm' v Hv) as Hlen. rewrite <- Hlen. split.
    + apply mean_spec. intros ->. simpl in Hlen. lia.
    + apply variance_spec. lia.
Qed.

Lemma C6_witness :
  LayerNormalization_forward toy_norm toy_x2
  = Ok (map (map (fun v => scale_shift 1 0 (standardize (/ 1000000) v))) toy_x2).
Proof.
  apply (C6_layer_normalization_standardizes toy_norm 1 1 2 toy_x2).
  - repeat constructor.
  - lia.
  - simpl. lra.
Defined.

(** C1 as stated fails: a causal head whose user mask marks the first key
    as padding has no key left in its first row, and the weight from query
    [0] to the later key [1] is NaN, not zero. *)
Lemma C1_counterexample :
  exists W V s,
    Attention_attn_weights (toy_head true) toy_x (Some left_padding) = Ok (W, V, s) /\
    causal (toy_head true) = true /\ 0 < 1 /\
    weight_at W 0 0 1 <> Fin 0.
Proof.
  destruct toy_left_padding as (W & V & s & E & HW).
  exists W, V, s. repeat split; [exact E | lia |].
  rewrite HW. discriminate.
Qed.

(** C1, amended.  In a causal forward pass over a sequence of any length,
    with any user mask that [expand_as] accepts or none, the weight from
    query [i] to every later key [j > i] is exactly zero in each query row
    that keeps at least one key that neither mask forbids; a row in which
    every key is forbidden holds NaN in every entry.  The buffer that the
    call leaves behind is again well formed, so this holds for every later
    call too. *)
Theorem C1_causal_weights_zero_above_diagonal :
  forall (F : nat) (self : Attention) (x : tensor3) (mask : option user_mask)
         (em : option (list (list (list Z)))),
    Attention_wf F self ->
    causal self = true ->
    shape3 (length x) (seq_length_of x) F x ->
    expand_user_mask mask (length x) (seq_length_of x) = Ok em ->
    exists W V self',
      Attention_attn_weights self x mask = Ok (W, V, self') /\
      Attention_wf F self' /\
      forall b i j,
        b < length x -> i < seq_length_of x -> j < seq_length_of x ->
        ((exists j0, j0 < seq_length_of x /\ allowed self em b i j0 = true) ->
         i < j -> weight_at W b i j = Fin 0) /\
        ((forall j0, j0 < seq_length_of x -> allowed self em b i j0 = false) ->
         weight_at W b i j = NaN).
Proof.
  intros F self x mask em Hwf Hc Hx Hm.
  pose proof (expand_user_mask_shape _ _ _ _ Hm) as He.
  do 3 eexists. split; [apply (Attention_attn_weights_eq F self x mask em Hwf Hx Hm) |].
  split; [apply Attention_wf_step, Hwf |].
  intros b i j Hb Hi Hj. split.
  - intros (j0 & Hj0 & Ha) Hij.
    apply (masked_weight_zero self em b i j j0 Hx He Hb Hi Hj Hj0 Ha).
    apply causal_forbids_later; assumption.
  - intros Hall. apply (masked_weight_nan self em b i j Hx He Hb Hi Hj Hall).
Qed.

Lemma C1_witness :
  exists W V self',
    Attention_attn_weights (toy_head true) toy_x None = Ok (W, V, self') /\
    Attention_wf 1 self' /\
    forall b i j,
      b < length toy_x -> i < seq_length_of toy_x -> j < seq_length_of toy_x ->
      ((exists j0, j0 < seq_length_of toy_x /\ allowed (toy_head true) None b i j0 = true) ->
       i < j -> weight_at W b i j = Fin 0) /\
      ((forall j0, j0 < seq_length_of toy_x -> allowed (toy_head true) None b i j0 = false) ->
       weight_at W b i j = NaN).
Proof.
  apply (C1_causal_weights_zero_above_diagonal 1 (toy_head true) toy_x None None).
  - apply (Attention_init_wf 1 1 true zero_Attention_init). reflexivity.
  - reflexivity.
  - repeat constructor.
  - reflexivity.
Defined.

(** C2.  After masking and softmax every query row that has a key position
    that is not forbidden sums to one over the key axis and has no negative
    entry.  This holds for the weights of [Attention.forward] under any
    causal setting and user mask, and for the softmax output of
    [MultiHeadAttentionBlock.attention], where a forbidden score is the
    finite [-1e9] and every row with at least one key is such a row. *)
Theorem C2_attention_rows_are_probabilities :
  (forall (F : nat) (self : Attention) (x : tensor3) (mask : option user_mask)
          (em : option (list (list (list Z)))),
     Attention_wf F self ->
     shape3 (length x) (seq_length_of x) F x ->
     expand_user_mask mask (length x) (seq_length_of x) = Ok em ->
     exists W V self',
       Attention_attn_weights self x mask = Ok (W, V, self') /\
       forall b i j,
         b < length x -> i < seq_length_of x -> j < seq_length_of x ->
         allowed self em b i j = true ->
         prob_row (row_at W b i)) /\
  (forall (B H Tq Tk d : nat) (query key : tensor4) (mask : option mask4),
     shape4 B H Tq d query -> shape4 B H Tk d key ->
     0 < B -> 0 < H -> 0 < Tq -> 0 < d ->
     match mask with Some m => broadcastable4 B H Tq Tk m | None => True end ->
     exists S,
       MultiHeadAttentionBlock_softmax query key mask = Ok S /\
       shape4 B H Tq Tk S /\
       Forall (Forall (Forall (fun row => row <> [] -> prob_row_R row))) S) /\
  (forall (query key : tensor4) (mask : option mask4) (S : tensor4),
     MultiHeadAttentionBlock_softmax query key mask = Ok S ->
     Forall (Forall (Forall (fun row => row <> [] -> prob_row_R row))) S).
Proof.
  split; [| split].
  - intros F self x mask em Hwf Hx Hm.
    pose proof (expand_user_mask_shape _ _ _ _ Hm) as He.
    do 3 eexists. split; [apply (Attention_attn_weights_eq F self x mask em Hwf Hx Hm) |].
    intros b i j Hb Hi Hj Ha.
    apply (masked_row_prob self em b i j Hx He Hb Hi Hj Ha).
  - intros B H Tq Tk d query key mask Hq Hk PB PH PT Pd Hm.
    destruct (MultiHeadAttentionBlock_softmax_total B H Tq Tk d query key mask
                Hq Hk PB PH PT Pd Hm) as (S & HS & SS).
    exists S. split; [exact HS | split; [exact SS |]].
    apply (MultiHeadAttentionBlock_softmax_rows query key mask S HS).
  - exact MultiHeadAttentionBlock_softmax_rows.
Qed.

Lemma C2_witness :
  (exists W V self',
     Attention_attn_weights (toy_head true) toy_x (Some left_padding) = Ok (W, V, self') /\
     forall b i j,
       b < length toy_x -> i < seq_length_of toy_x -> j < seq_length_of toy_x ->
       allowed (toy_head true) (Some [[[0%Z; 1%Z]; [0%Z; 1%Z]]]) b i j = true ->
       prob_row (row_at W b i)) /\
  (exists S,
     MultiHeadAttentionBlock_softmax toy_q4 toy_q4 (Some [[[[0%Z]]]]) = Ok S /\
     shape4 1 1 1 1 S /\
     Forall (Forall (Forall (fun row => row <> [] -> prob_row_R row))) S) /\
  Forall (Forall (Forall (fun row => row <> [] -> prob_row_R row)))
    (map (map (map softmax)) (scaled_scores4 1 toy_q4 toy_q4)).
Proof.
  split; [| split].
  - apply (proj1 C2_attention_rows_are_probabilities 1 (toy_head true) toy_x
             (Some left_padding) (Some [[[0%Z; 1%Z]; [0%Z; 1%Z]]])).
    + apply (Attention_init_wf 1 1 true zero_Attention_init). reflexivity.
    + repeat constructor.
    + reflexivity.
  - apply (proj1 (proj2 C2_attention_rows_are_probabilities) 1 1 1 1 1 toy_q4 toy_q4
             (Some [[[[0%Z]]]])); try lia; repeat constructor.
  - apply (proj2 (proj2 C2_attention_rows_are_probabilities) toy_q4 toy_q4 None).
    reflexivity.
Defined.

(** C5 as stated fails for the forecasting variant:
    [TimeSeriesTransformer(n_embd=30, ...)] builds
    [MultiHeadAttention(4, 7, 30)], and the construction succeeds although
    30 is not divisible by the 4 heads. *)
Lemma C5_counterexample :
  30 mod 4 <> 0 /\ 30 / 4 = 7 /\
  exists m, MultiHeadAttention_init 4 (30 / 4) 30 zero_MultiHeadAttention_init = Ok m.
Proof.
  split; [discriminate | split; [reflexivity |]].
  apply MultiHeadAttention_init_ok_iff. right. discriminate.
Qed.

(** C5, amended.  Constructing a [MultiHeadAttentionBlock] with [h > 0]
    heads fails with the assertion error "d_model is not divisable by h"
    exactly when [d_model mod h] is not zero, and with a division error when
    [h = 0]; every block that is constructed has [h * d_k = d_model], so no
    forward pass runs on a violating configuration.  The forecasting
    variant's [MultiHeadAttention] asserts nothing about divisibility: its
    construction succeeds exactly when there is no head or [head_size] is
    not zero, and the forward pass of a constructed instance with at least
    one head returns a tensor of the input's batch and sequence sizes with
    [feature_size] features, without a shape error, whether or not
    [feature_size] is a multiple of the number of heads. *)
Theorem C5_multi_head_construction_contract :
  (forall (dm : nat) (dropout : R) (w : MultiHeadAttentionBlockInit),
     MultiHeadAttentionBlock_init dm 0 dropout w
     = Raise (ZeroDivisionError "integer division or modulo by zero")) /\
  (forall (dm nh : nat) (dropout : R) (w : MultiHeadAttentionBlockInit),
     nh <> 0 ->
     (MultiHeadAttentionBlock_init dm nh dropout w
      = Raise (AssertionError "d_model is not divisable by h")
      <-> dm mod nh <> 0)) /\
  (forall (dm nh : nat) (dropout : R) (w : MultiHeadAttentionBlockInit)
          (self : MultiHeadAttentionBlock),
     MultiHeadAttentionBlock_init dm nh dropout w = Ok self ->
     nh <> 0 /\ dm mod nh = 0 /\
     d_model self = dm /\ h self = nh /\ h self * d_k self = d_model self) /\
  (forall (num_heads head_size feature_size : nat) (w : MultiHeadAttentionInit),
     (exists m, MultiHeadAttention_init num_heads head_size feature_size w = Ok m)
     <-> (num_heads = 0 \/ head_size <> 0)) /\
  (forall (num_heads head_size feature_size : nat) (w : MultiHeadAttentionInit)
          (self : MultiHeadAttention) (x : tensor3),
     MultiHeadAttention_init num_heads head_size feature_size w = Ok self ->
     0 < num_heads ->
     shape3 (length x) (seq_length_of x) feature_size x ->
     exists y,
       MultiHeadAttention_forward self x None = Ok (y, self) /\
       shape3 (length x) (seq_length_of x) feature_size y).
Proof.
  split; [exact MultiHeadAttentionBlock_init_zero_heads |].
  split; [exact MultiHeadAttentionBlock_init_assert |].
  split; [exact MultiHeadAttentionBlock_init_ok |].
  split; [exact MultiHeadAttention_init_ok_iff |].
  intros num_heads head_size feature_size w self x Hinit Hn Hx.
  apply MultiHeadAttention_init_wf in Hinit as (Hwf & Hout & _); [| exact Hn].
  destruct (MultiHeadAttention_forward_shape feature_size head_size self x Hwf Hx)
    as (y & Hy & Hs).
  exists y. split; [exact Hy |]. rewrite Hout in Hs. exact Hs.
Qed.

Lemma C5_witness :
  (MultiHeadAttentionBlock_init 30 4 (1 / 10) zero_MultiHeadAttentionBlock_init
   = Raise (AssertionError "d_model is not divisable by h")
   <-> 30 mod 4 <> 0) /\
  (2 <> 0 /\ 2 mod 2 = 0 /\
   d_model (toy_block_in true) = 2 /\ h (toy_block_in true) = 2 /\
   h (toy_block_in true) * d_k (toy_block_in true) = d_model (toy_block_in true)) /\
  (exists y,
     MultiHeadAttention_forward (sa_heads toy_forecaster) [[[0; 0; 0; 0]]]%R None
     = Ok (y, sa_heads toy_forecaster) /\
     shape3 1 1 4 y).
Proof.
  split; [| split].
  - apply (proj1 (proj2 C5_multi_head_construction_contract) 30 4 (1 / 10)%R
             zero_MultiHeadAttentionBlock_init).
    discriminate.
  - apply (proj1 (proj2 (proj2 C5_multi_head_construction_contract)) 2 2 (1 / 10)%R
             zero_MultiHeadAttentionBlock_init (toy_block_in true)).
    unfold MultiHeadAttentionBlock_init.
    change (negb (2 mod 2 =? 0)) with false. cbn iota.
    rewrite (nn_Dropout_ok (1 / 10)) by lra.
    reflexivity.
  - apply (proj2 (proj2 (proj2 (proj2 C5_multi_head_construction_contract)))
             4 1 4 zero_MultiHeadAttention_init (sa_heads toy_forecaster)
             [[[0; 0; 0; 0]]]%R).
    + reflexivity.
    + lia.
    + repeat constructor.
Defined.

(** C7 as stated fails for [Attention.forward], which returns [output]
    alone: no function of the returned tensor gives the probability matrix,
    since two calls with different weights return the same tensor. *)
Lemma C7_counterexample : ~ exposes_attn_weights.
Proof. exact Attention_forward_hides_weights. Qed.

(** C7, amended.  [MultiHeadAttentionBlock.attention] returns the pair
    [(P @ value, P)] where [P] is the softmax output after the optional
    dropout ([P] is the softmax output itself without a dropout module or in
    evaluation mode); on well-shaped inputs it does return, for every mask
    that broadcasts to the scores.  [MultiHeadAttentionBlock.forward] keeps
    [P] in [self.attention_scores] and returns the projected output of the
    input's shape.  The forecasting variant's [Attention.forward] computes
    the weights and returns the output only. *)
Theorem C7_attention_returns_output_and_probabilities :
  (forall (query key value : tensor4) (mask : option mask4)
          (dropout : option Dropout) (keep : keep4),
     MultiHeadAttentionBlock_attention query key value mask dropout keep
     = (S <- MultiHeadAttentionBlock_softmax query key mask ;;
        out <- bzip (bzip (matmul (last_dim4 value)))
                 (attention_dropout dropout keep S) value ;;
        Ok (out, attention_dropout dropout keep S))) /\
  (forall (rate : R) (keep : keep4) (S : tensor4),
     attention_dropout None keep S = S /\
     attention_dropout (Some {| p := rate; training := false |}) keep S = S) /\
  (forall (B H Tq Tk d dv : nat) (query key value : tensor4) (mask : option mask4)
          (dropout : option Dropout) (keep : keep4),
     shape4 B H Tq d query -> shape4 B H Tk d key -> shape4 B H Tk dv value ->
     0 < B -> 0 < H -> 0 < Tq -> 0 < Tk -> 0 < d ->
     match mask with Some m => broadcastable4 B H Tq Tk m | None => True end ->
     exists out S,
       MultiHeadAttentionBlock_softmax query key mask = Ok S /\
       MultiHeadAttentionBlock_attention query key value mask dropout keep
       = Ok (out, attention_dropout dropout keep S) /\
       shape4 B H Tq Tk (attention_dropout dropout keep S) /\
       shape4 B H Tq dv out) /\
  (forall (dm nh : nat) (dropout : R) (w : MultiHeadAttentionBlockInit)
          (self : MultiHeadAttentionBlock) (keep : keep4) (q k v : tensor3)
          (mask : option mask4) (B Tq Tk : nat),
     MultiHeadAttentionBlock_init dm nh dropout w = Ok self ->
     shape3 B Tq dm q -> shape3 B Tk dm k -> shape3 B Tk dm v ->
     0 < B -> 0 < Tq -> 0 < Tk -> 0 < dm ->
     match mask with Some m => broadcastable4 B nh Tq Tk m | None => True end ->
     exists y P,
       MultiHeadAttentionBlock_forward self keep q k v mask
       = Ok (y, set_attention_scores self P) /\
       shape3 B Tq dm y /\ shape4 B nh Tq Tk P) /\
  (forall (self : MultiHeadAttentionBlock) (keep : keep4) (q k v : tensor3)
          (mask : option mask4) (y : tensor3) (self' : MultiHeadAttentionBlock),
     MultiHeadAttentionBlock_forward self keep q k v mask = Ok (y, self') ->
     exists query key value x P,
       MultiHeadAttentionBlock_attention query key value mask
         (Some (mhab_dropout self)) keep = Ok (x, P) /\
       attention_scores self' = Some P /\
       (x' <- merge_heads (h self) (d_k self) x ;; Linear_forward (w_o self) x') = Ok y) /\
  (forall (self : Attention) (x : tensor3) (mask : option user_mask),
     Attention_forward self x mask
     = (' (attn_weights, v, self') <- Attention_attn_weights self x mask ;;
        output <- bzip (weighted_sum (out_features (value self'))) attn_weights v ;;
        Ok (output, self'))).
Proof.
  split; [reflexivity |].
  split; [intros rate keep S; split; reflexivity |].
  split; [exact MultiHeadAttentionBlock_attention_total |].
  split; [| split; [| reflexivity]].
  - intros dm nh dropout w self keep q k v mask B Tq Tk Hinit Sq Sk Sv PB PTq PTk Pdm Hm.
    apply MultiHeadAttentionBlock_init_wf in Hinit as (Hwf & Hh).
    rewrite <- Hh in Hm |- *.
    apply (MultiHeadAttentionBlock_forward_total dm self keep q k v mask B Tq Tk
             Hwf Sq Sk Sv PB PTq PTk Pdm Hm).
  - intros self keep q k v mask y self' H.
    destruct (MultiHeadAttentionBlock_forward_inv self keep q k v mask y self' H)
      as (query & key & value & x & P & _ & _ & _ & Hatt & Hs & Hy).
    exists query, key, value, x, P. repeat split; assumption.
Qed.

Lemma C7_witness :
  (exists out S,
     MultiHeadAttentionBlock_softmax toy_q4 toy_q4 None = Ok S /\
     MultiHeadAttentionBlock_attention toy_q4 toy_q4 toy_q4 None None no_drop4
     = Ok (out, attention_dropout None no_drop4 S) /\
     shape4 1 1 1 1 (attention_dropout None no_drop4 S) /\
     shape4 1 1 1 1 out) /\
  (exists y P,
     MultiHeadAttentionBlock_forward (toy_block_in true) no_drop4 toy_x2 toy_x2 toy_x2 None
     = Ok (y, set_attention_scores (toy_block_in true) P) /\
     shape3 1 1 2 y /\ shape4 1 2 1 1 P) /\
  (exists y self',
     MultiHeadAttentionBlock_forward toy_block no_drop4 toy_x2 toy_x2 toy_x2 None
     = Ok (y, self') /\
     exists query key value x P,
       MultiHeadAttentionBlock_attention query key value None
         (Some (mhab_dropout toy_block)) no_drop4 = Ok (x, P) /\
       attention_scores self' = Some P /\
       (x' <- merge_heads (h toy_block) (d_k toy_block) x ;;
        Linear_forward (w_o toy_block) x') = Ok y).
Proof.
  split; [| split].
  - apply (proj1 (proj2 (proj2 C7_attention_returns_output_and_probabilities))
             1 1 1 1 1 1 toy_q4 toy_q4 toy_q4 None None no_drop4);
      try lia; try exact I; repeat constructor.
  - apply (proj1 (proj2 (proj2 (proj2 C7_attention_returns_output_and_probabilities)))
             2 2 (1 / 10)%R zero_MultiHeadAttentionBlock_init (toy_block_in true)
             no_drop4 toy_x2 toy_x2 toy_x2 None 1 1 1);
      try lia; try exact I; try (repeat constructor).
    unfold MultiHeadAttentionBlock_init.
    change (negb (2 mod 2 =? 0)) with false. cbn iota.
    rewrite (nn_Dropout_ok (1 / 10)) by lra.
    reflexivity.
  - eexists. eexists. split.
    + cbn. reflexivity.
    + apply (proj1 (proj2 (proj2 (proj2 (proj2
               C7_attention_returns_output_and_probabilities))))
               toy_block no_drop4 toy_x2 toy_x2 toy_x2 None).
      cbn. reflexivity.
Defined.

(** C8.  For a constructed forecasting model and every input of shape
    [(B, T)] with a non-empty batch and a window of [1 <= T <= block_size]
    steps, [forward] returns a tensor of shape [(B, forecast_horizon)],
    whose row for each batch element is the output projection applied to
    the hidden state of the last sequence position alone. *)
Theorem C8_forecast_uses_last_position :
  forall (n_embd block_size horizon : nat) (w : TimeSeriesTransformerInit)
         (self : TimeSeriesTransformer) (keep : keep3) (x : mat) (B T : nat),
    TimeSeriesTransformer_init n_embd block_size horizon w = Ok self ->
    shape2 B T x -> 0 < B -> 0 < T -> T <= block_size ->
    exists hidden,
      TimeSeriesTransformer_hidden self keep x = Ok (hidden, self) /\
      shape3 B T n_embd hidden /\
      TimeSeriesTransformer_forward self keep x
      = Ok (map (fun hb => affine (forecast_projection self) (last hb [])) hidden, self) /\
      shape2 B horizon
        (map (fun hb => affine (forecast_projection self) (last hb [])) hidden).
Proof.
  intros n_embd block_size horizon w self keep x B T Hinit Hx HB HT Hbs.
  apply TimeSeriesTransformer_init_wf in Hinit as (Hwf & Hh).
  destruct (TimeSeriesTransformer_hidden_ok n_embd block_size self keep x B T
              Hwf Hx HB HT Hbs) as (hidden & Hhid & Shid).
  exists hidden. split; [exact Hhid | split; [exact Shid |]].
  rewrite <- Hh.
  apply (TimeSeriesTransformer_forward_ok n_embd block_size self keep x B T hidden
           Hwf Hx HT Hhid Shid).
Qed.

Lemma C8_witness :
  exists hidden,
    TimeSeriesTransformer_hidden toy_forecaster no_drop3 [[0; 0]]%R
    = Ok (hidden, toy_forecaster) /\
    shape3 1 2 4 hidden /\
    TimeSeriesTransformer_forward toy_forecaster no_drop3 [[0; 0]]%R
    = Ok (map (fun hb => affine (forecast_projection toy_forecaster) (last hb [])) hidden,
          toy_forecaster) /\
    shape2 1 1
      (map (fun hb => affine (forecast_projection toy_forecaster) (last hb [])) hidden).
Proof.
  apply (C8_forecast_uses_last_position 4 2 1 zero_TimeSeriesTransformer_init
           toy_forecaster no_drop3 [[0; 0]]%R 1 2).
  - unfold TimeSeriesTransformer_init, FeedForward_init.
    rewrite (nn_Dropout_ok (1 / 10)) by lra.
    reflexivity.
  - repeat constructor.
  - lia.
  - lia.
  - lia.
Defined.

(** * Further properties of the notebooks *)

(** ** Auxiliary lemmas on lists and outcomes *)

Lemma tabulate_S {A : Type} (n : nat) (f : nat -> A) :
  tabulate (S n) f = f 0 :: tabulate n (fun i => f (S i)).
Proof.
  unfold tabulate. cbn [seq map]. rewrite <- seq_shift, map_map. reflexivity.
Qed.

Lemma tabulate_ext {A : Type} (n : nat) (f g : nat -> A) :
  (forall i, i < n -> f i = g i) -> tabulate n f = tabulate n g.
Proof.
  intros H. unfold tabulate. apply map_ext_in. intros i Hi.
  apply in_seq in Hi. apply H. lia.
Qed.

Lemma imap_nth {A B : Type} (f : nat -> A -> B) (l : list A) (k : nat) (da : A) (db : B) :
  k < length l -> nth k (imap f l) db = f k (nth k l da).
Proof.
  intros Hk. unfold imap.
  rewrite (zipWith_nth f _ l k 0 da db) by (rewrite ?length_seq; exact Hk).
  rewrite seq_nth by exact Hk. reflexivity.
Qed.

(** ** [Attention.forward]: outputs *)

Lemma in_zip_nth {A B : Type} (la : list A) (lb : list B) (a : A) (b : B) (da : A) (db : B) :
  In (a, b) (combine la lb) ->
  exists i, i < length la /\ i < length lb /\ nth i la da = a /\ nth i lb db = b.
Proof.
  revert lb; induction la as [| a0 la IH]; intros [| b0 lb] Hin; simpl in *;
    try contradiction.
  destruct Hin as [Heq | Hin].
  - injection Heq as <- <-. exists 0. repeat split; lia.
  - apply IH in Hin as (i & Ha & Hb & Hna & Hnb).
    exists (S i). repeat split; try lia; assumption.
Qed.

Lemma prob_row_fin (ws : list fl) : prob_row ws -> Forall is_fin ws.
Proof.
  intros [H _]. eapply Forall_impl; [| exact H]. intros w [Hw _]. exact Hw.
Qed.

Lemma Attention_forward_eq (F : nat) (self : Attention) (x : tensor3)
    (mask : option user_mask) (em : option (list (list (list Z)))) :
  Attention_wf F self ->
  shape3 (length x) (seq_length_of x) F x ->
  expand_user_mask mask (length x) (seq_length_of x) = Ok em ->
  rows_attend self em (length x) (seq_length_of x) ->
  Attention_forward self x mask
  = Ok (attention_output self em x,
        if causal self then set_causal_mask self (tril (seq_length_of x)) else self).
Proof.
  intros Hwf Hx Hm Hrows.
  pose proof (expand_user_mask_shape _ _ _ _ Hm) as He.
  unfold Attention_forward.
  rewrite (Attention_attn_weights_eq F self x mask em Hwf Hx Hm). cbn [bind].
  assert (Hv : value (if causal self
                      then set_causal_mask self (tril (seq_length_of x)) else self)
               = value self) by (destruct (causal self); reflexivity).
  rewrite Hv.
  set (T := seq_length_of x) in *.
  pose proof (masked_scores_shape self em Hx He) as Hs.
  unfold attention_output. fold T.
  rewrite (bzip_pure (weighted_sum (out_features (value self)))
             (weighted_sum_pure (out_features (value self)))).
  - reflexivity.
  - rewrite !length_map. destruct Hs as [Ls _]. rewrite Ls. reflexivity.
  - intros Wb Vb Hin.
    apply (in_zip_nth _ _ _ _ [] []) in Hin as (b & Hb & Hb' & HW & HV).
    rewrite !length_map in Hb, Hb'. destruct Hs as [Ls Hs']. rewrite Ls in Hb.
    apply weighted_sum_eq. apply Forall_forall. intros row Hrow.
    subst Wb Vb.
    rewrite (map_nth_lt _ _ b [] []) in Hrow by lia.
    apply (In_nth _ _ []) in Hrow as (i & Hi & <-).
    rewrite length_map in Hi.
    pose proof (shape3_nth b (conj Ls Hs') Hb) as Sb.
    assert (Hi' : i < T) by (destruct Sb; lia).
    rewrite (map_nth_lt _ x b [] []) by lia. rewrite length_map.
    destruct (shape3_nth b Hx Hb) as [Lx _]. rewrite Lx.
    destruct (Hrows b i Hb Hi') as (j & Hj & Ha).
    pose proof (masked_row_prob self em b i j Hx He Hb Hi' Hj Ha) as Hp.
    rewrite (softmax_row_at (conj Ls Hs') Hb Hi') in Hp.
    rewrite (map_nth_lt _ _ i [] []) by (destruct Sb; lia).
    split; [| apply prob_row_fin, Hp].
    rewrite F_softmax_length. apply (shape2_nth i Sb Hi').
Qed.

Lemma attention_output_entry (self : Attention) (em : option (list (list (list Z))))
    {B T F : nat} {x : tensor3} (b i : nat) :
  shape3 B T F x -> seq_length_of x = T ->
  match em with Some e => shape3 B T T e | None => True end ->
  b < B -> i < T ->
  nth i (nth b (attention_output self em x) []) []
  = tabulate (out_features (value self)) (fun c =>
      dot (map fl_val (row_at (map (map F_softmax) (masked_scores self em T x)) b i))
          (column c (map (affine (value self)) (nth b x [])))).
Proof.
  intros Hx HT He Hb Hi. unfold attention_output. rewrite HT.
  pose proof (masked_scores_shape self em Hx He) as Hs.
  destruct Hs as [Ls Hs']. pose proof Hx as [Lx _].
  rewrite (zipWith_nth _ _ _ b [] [] []) by (rewrite !length_map; lia).
  unfold weighted_sum_pure.
  pose proof (shape3_nth b (conj Ls Hs') Hb) as [Lb _].
  rewrite (map_nth_lt _ _ i [] []).
  2:{ rewrite (map_nth_lt _ _ b [] []) by lia. rewrite length_map. lia. }
  rewrite (map_nth_lt _ x b [] []) by lia.
  reflexivity.
Qed.

Lemma dot_agree (w v v' : vec) :
  length v = length w -> length v' = length w ->
  (forall j, j < length w -> nth j w 0%R = 0%R \/ nth j v 0%R = nth j v' 0%R) ->
  dot w v = dot w v'.
Proof.
  unfold dot. revert v v'.
  induction w as [| a w IH]; intros [| c v] [| c' v'] Hv Hv' H; simpl in *;
    try discriminate; [reflexivity |].
  f_equal.
  - destruct (H 0 ltac:(lia)) as [-> | ->]; ring.
  - apply IH; [lia | lia |]. intros j Hj. apply (H (S j)). lia.
Qed.

Lemma raw_scores_entry (self : Attention) {T : nat} {xb : mat} (i j : nat) :
  length xb = T -> i < T -> j < T ->
  nth j (nth i (raw_scores self xb) []) 0%R
  = (dot (affine (query self) (nth i xb [])) (affine (key self) (nth j xb [])) *
     scale self)%R.
Proof.
  intros L Hi Hj. unfold raw_scores.
  rewrite (map_nth_lt _ xb i [] []) by lia.
  rewrite (map_nth_lt _ xb j [] 0%R) by lia. reflexivity.
Qed.

Lemma firstn_agree {A : Type} (l l' : list A) (n j : nat) (d : A) :
  firstn n l = firstn n l' -> j < n -> nth j l d = nth j l' d.
Proof.
  intros H Hj.
  rewrite <- (firstn_skipn n l), <- (firstn_skipn n l'), H.
  destruct (Nat.lt_ge_cases j (length (firstn n l'))) as [Hlt | Hge].
  - rewrite !app_nth1 by assumption. reflexivity.
  - assert (Ll : length l <= j).
    { pose proof (length_firstn n l) as E. rewrite H in E. lia. }
    assert (Ll' : length l' <= j).
    { pose proof (length_firstn n l') as E. lia. }
    rewrite !firstn_skipn, <- H, firstn_skipn.
    rewrite !nth_overflow by assumption. reflexivity.
Qed.

(** The output at a query position is a function of the input at that
    position and at the keys that are not forbidden for it. *)
Lemma attention_output_agree (self : Attention) (em : option (list (list (list Z))))
    {B T F : nat} {x x' : tensor3} (b i : nat) :
  shape3 B T F x -> shape3 B T F x' ->
  seq_length_of x = T -> seq_length_of x' = T ->
  match em with Some e => shape3 B T T e | None => True end ->
  b < B -> i < T ->
  (exists j0, j0 < T /\ allowed self em b i j0 = true) ->
  nth i (nth b x []) [] = nth i (nth b x' []) [] ->
  (forall j, j < T -> allowed self em b i j = true ->
     nth j (nth b x []) [] = nth j (nth b x' []) []) ->
  nth i (nth b (attention_output self em x) []) []
  = nth i (nth b (attention_output self em x') []) [].
Proof.
  intros Hx Hx' HT HT' He Hb Hi (j0 & Hj0 & Ha0) Hq Hkeys.
  rewrite (attention_output_entry self em b i Hx HT He Hb Hi).
  rewrite (attention_output_entry self em b i Hx' HT' He Hb Hi).
  pose proof (masked_scores_shape self em Hx He) as Hs.
  pose proof (masked_scores_shape self em Hx' He) as Hs'.
  rewrite (softmax_row_at Hs Hb Hi), (softmax_row_at Hs' Hb Hi).
  pose proof (shape3_nth b Hx Hb) as [Lb _].
  pose proof (shape3_nth b Hx' Hb) as [Lb' _].
  assert (Hrow : nth i (nth b (masked_scores self em T x) []) []
               = nth i (nth b (masked_scores self em T x') []) []).
  { apply (nth_ext _ _ (Sc 0) (Sc 0)).
    - rewrite (shape2_nth i (shape3_nth b Hs Hb) Hi).
      rewrite (shape2_nth i (shape3_nth b Hs' Hb) Hi). reflexivity.
    - intros j Hj. rewrite (shape2_nth i (shape3_nth b Hs Hb) Hi) in Hj.
      rewrite (masked_scores_entry self em b i j Hx He Hb Hi Hj).
      rewrite (masked_scores_entry self em b i j Hx' He Hb Hi Hj).
      destruct (allowed self em b i j) eqn:Ha; [| reflexivity].
      rewrite (raw_scores_entry self i j Lb Hi Hj).
      rewrite (raw_scores_entry self i j Lb' Hi Hj).
      rewrite Hq, (Hkeys j Hj Ha). reflexivity. }
  rewrite <- Hrow.
  apply map_ext_in. intros c _.
  apply dot_agree.
  - unfold column. rewrite !length_map. rewrite F_softmax_length.
    rewrite (shape2_nth i (shape3_nth b Hs Hb) Hi). exact Lb.
  - unfold column. rewrite !length_map. rewrite F_softmax_length.
    rewrite (shape2_nth i (shape3_nth b Hs Hb) Hi). exact Lb'.
  - intros j Hj. rewrite length_map, F_softmax_length in Hj.
    rewrite (shape2_nth i (shape3_nth b Hs Hb) Hi) in Hj.
    destruct (allowed self em b i j) eqn:Ha.
    + right. unfold column.
      rewrite (map_nth_lt _ _ j [] 0%R) by (rewrite length_map; lia).
      rewrite (map_nth_lt _ (map _ (nth b x' [])) j [] 0%R) by (rewrite length_map; lia).
      rewrite (map_nth_lt _ _ j [] []) by lia.
      rewrite (map_nth_lt _ (nth b x' []) j [] []) by lia.
      rewrite (Hkeys j Hj Ha). reflexivity.
    + left.
      pose proof (masked_weight_zero self em b i j j0 Hx He Hb Hi Hj Hj0 Ha0 Ha) as Hz.
      unfold weight_at in Hz.
      fold (row_at (map (map F_softmax) (masked_scores self em T x)) b i) in Hz.
      rewrite (softmax_row_at Hs Hb Hi) in Hz.
      rewrite (map_nth_lt fl_val _ j NaN 0%R).
      2:{ rewrite F_softmax_length.
          rewrite (shape2_nth i (shape3_nth b Hs Hb) Hi). exact Hj. }
      rewrite Hz. reflexivity.
Qed.

(** X1. Causal attention does not look ahead: when [Attention.forward] runs
    in causal mode without a user mask on two inputs of the same shape, it
    returns on both, and the output at position [i] of batch element [b] is
    the same as soon as the two inputs agree on positions [0 .. i] of that
    batch element, whatever the later positions hold. *)
Theorem Attention_forward_causal_prefix (F B T : nat) (self : Attention)
    (x x' : tensor3) :
  Attention_wf F self -> causal self = true ->
  shape3 B T F x -> shape3 B T F x' -> 0 < B ->
  exists out out' s s',
    Attention_forward self x None = Ok (out, s) /\
    Attention_forward self x' None = Ok (out', s') /\
    forall b i, b < B -> i < T ->
      firstn (S i) (nth b x []) = firstn (S i) (nth b x' []) ->
      nth i (nth b out []) [] = nth i (nth b out' []) [].
Proof.
  intros Hwf Hc Hx Hx' HB.
  pose proof (seq_length_of_shape _ _ _ _ Hx HB) as HT.
  pose proof (seq_length_of_shape _ _ _ _ Hx' HB) as HT'.
  pose proof Hx as [Lx _]. pose proof Hx' as [Lx' _].
  assert (Hself : forall i, allowed self None 0 i i = true).
  { intros i. unfold allowed. rewrite Hc, Nat.leb_refl. reflexivity. }
  assert (Hrows : rows_attend self None B T).
  { intros b i _ Hi. exists i. split; [exact Hi | apply Hself]. }
  eexists _, _, _, _.
  split; [| split].
  - apply (Attention_forward_eq F self x None None Hwf);
      rewrite ?Lx, ?HT; [exact Hx | reflexivity | exact Hrows].
  - apply (Attention_forward_eq F self x' None None Hwf);
      rewrite ?Lx', ?HT'; [exact Hx' | reflexivity | exact Hrows].
  - intros b i Hb Hi Hpre.
    apply (attention_output_agree self None b i Hx Hx' HT HT' I Hb Hi).
    + exists i. split; [exact Hi | apply Hself].
    + apply (firstn_agree _ _ (S i)); [exact Hpre | lia].
    + intros j Hj Ha. unfold allowed in Ha. rewrite Hc in Ha.
      apply andb_prop in Ha as [Ha _]. apply Nat.leb_le in Ha.
      apply (firstn_agree _ _ (S i)); [exact Hpre | lia].
Qed.

Lemma Attention_forward_causal_prefix_witness :
  exists out out' s s',
    Attention_forward (toy_head true) [[[0]; [0]]]%R None = Ok (out, s) /\
    Attention_forward (toy_head true) [[[0]; [1]]]%R None = Ok (out', s') /\
    forall b i, b < 1 -> i < 2 ->
      firstn (S i) (nth b [[[0]; [0]]]%R []) = firstn (S i) (nth b [[[0]; [1]]]%R []) ->
      nth i (nth b out []) [] = nth i (nth b out' []) [].
Proof.
  apply (Attention_forward_causal_prefix 1 1 2 (toy_head true)).
  - apply (Attention_init_wf 1 1 true zero_Attention_init). reflexivity.
  - reflexivity.
  - repeat constructor.
  - repeat constructor.
  - lia.
Defined.

(** X2. Padding and masking at the level of the output: when
    [Attention.forward] runs, causal or not, with a user mask that
    [expand_as] accepts and that leaves every query row a key, it returns,
    and the output at query position [i] of batch element [b] is a function
    of the input at position [i] and at the key positions that neither mask
    forbids for [(b, i)]: the values at forbidden (padded or later) keys
    have no effect on it. *)
Theorem Attention_forward_ignores_forbidden_keys (F B T : nat) (self : Attention)
    (x x' : tensor3) (mask : option user_mask) (em : option (list (list (list Z)))) :
  Attention_wf F self ->
  shape3 B T F x -> shape3 B T F x' -> 0 < B ->
  expand_user_mask mask B T = Ok em ->
  rows_attend self em B T ->
  exists out out' s s',
    Attention_forward self x mask = Ok (out, s) /\
    Attention_forward self x' mask = Ok (out', s') /\
    forall b i, b < B -> i < T ->
      (forall j, j < T -> j = i \/ allowed self em b i j = true ->
         nth j (nth b x []) [] = nth j (nth b x' []) []) ->
      nth i (nth b out []) [] = nth i (nth b out' []) [].
Proof.
  intros Hwf Hx Hx' HB Hm Hrows.
  pose proof (seq_length_of_shape _ _ _ _ Hx HB) as HT.
  pose proof (seq_length_of_shape _ _ _ _ Hx' HB) as HT'.
  pose proof Hx as [Lx _]. pose proof Hx' as [Lx' _].
  pose proof (expand_user_mask_shape _ _ _ _ Hm) as He.
  eexists _, _, _, _.
  split; [| split].
  - apply (Attention_forward_eq F self x mask em Hwf);
      rewrite ?Lx, ?HT; assumption.
  - apply (Attention_forward_eq F self x' mask em Hwf);
      rewrite ?Lx', ?HT'; assumption.
  - intros b i Hb Hi Hagree.
    apply (attention_output_agree self em b i Hx Hx' HT HT' He Hb Hi).
    + apply Hrows; assumption.
    + apply Hagree; [exact Hi | left; reflexivity].
    + intros j Hj Ha. apply Hagree; [exact Hj | right; exact Ha].
Qed.

Lemma Attention_forward_ignores_forbidden_keys_witness :
  exists out out' s s',
    Attention_forward (toy_head false) [[[0]; [0]]]%R (Some (Mask2 [[1; 0]]%Z))
    = Ok (out, s) /\
    Attention_forward (toy_head false) [[[0]; [1]]]%R (Some (Mask2 [[1; 0]]%Z))
    = Ok (out', s') /\
    forall b i, b < 1 -> i < 2 ->
      (forall j, j < 2 ->
         j = i \/
         allowed (toy_head false) (Some [[[1; 0]; [1; 0]]]%Z) b i j = true ->
         nth j (nth b [[[0]; [0]]]%R []) [] = nth j (nth b [[[0]; [1]]]%R []) []) ->
      nth i (nth b out []) [] = nth i (nth b out' []) [].
Proof.
  apply (Attention_forward_ignores_forbidden_keys 1 1 2 (toy_head false)).
  - apply (Attention_init_wf 1 1 false zero_Attention_init). reflexivity.
  - repeat constructor.
  - repeat constructor.
  - lia.
  - reflexivity.
  - intros b i Hb Hi. exists 0. split; [lia |].
    destruct b as [| b]; [| lia].
    destruct i as [| [| i]]; [reflexivity | reflexivity | lia].
Defined.

(** ** [Attention.forward]: outputs are averages of values *)

Lemma dot_between (lo hi : R) (w v : vec) :
  length v = length w ->
  Forall (fun a => (0 <= a)%R) w ->
  (forall j, j < length w -> nth j w 0%R = 0%R \/ (lo <= nth j v 0 <= hi)%R) ->
  (lo * Rsum w <= dot w v <= hi * Rsum w)%R.
Proof.
  unfold dot. revert v. induction w as [| a w IH]; intros [| c v] Hlen Hw H;
    simpl in Hlen; try discriminate.
  - simpl. lra.
  - cbn [combine map Rsum fold_right fst snd].
    fold (Rsum (map (fun p => (fst p * snd p)%R) (combine w v))). fold (Rsum w).
    inversion Hw as [| ? ? Ha Hw']; subst.
    assert (IH' := IH v ltac:(lia) Hw' (fun j Hj => H (S j) ltac:(simpl; lia))).
    destruct (H 0 ltac:(simpl; lia)) as [E | [Hlo Hhi]]; simpl in *.
    + subst a. lra.
    + assert (lo * a <= a * c)%R by nra. assert (a * c <= hi * a)%R by nra. lra.
Qed.

(** X3. Attention outputs are weighted averages of the values.  When
    [Attention.forward] runs with a mask that [expand_as] accepts and every
    query row keeps a key, then for each query [(b, i)] and each output
    feature [c] the output entry lies between any two bounds that hold for
    feature [c] of the value vectors of the keys allowed for that query:
    attention never leaves the range spanned by the values it may look at. *)
Theorem Attention_forward_within_values (F B T : nat) (self : Attention) (x : tensor3)
    (mask : option user_mask) (em : option (list (list (list Z)))) :
  Attention_wf F self ->
  shape3 B T F x -> 0 < B ->
  expand_user_mask mask B T = Ok em ->
  rows_attend self em B T ->
  exists out s,
    Attention_forward self x mask = Ok (out, s) /\
    forall b i c (lo hi : R),
      b < B -> i < T -> c < out_features (value self) ->
      (forall j, j < T -> allowed self em b i j = true ->
         (lo <= nth c (affine (value self) (nth j (nth b x []) [])) 0 <= hi)%R) ->
      (lo <= nth c (nth i (nth b out []) []) 0 <= hi)%R.
Proof.
  intros Hwf Hx HB Hm Hrows.
  pose proof (seq_length_of_shape _ _ _ _ Hx HB) as HT.
  pose proof Hx as [Lx _].
  pose proof (expand_user_mask_shape _ _ _ _ Hm) as He.
  eexists _, _. split.
  - apply (Attention_forward_eq F self x mask em Hwf); rewrite ?Lx, ?HT; assumption.
  - intros b i c lo hi Hb Hi Hc Hbounds.
    rewrite (attention_output_entry self em b i Hx HT He Hb Hi).
    rewrite (tabulate_nth _ _ c 0%R Hc).
    pose proof (masked_scores_shape self em Hx He) as Hs.
    destruct (Hrows b i Hb Hi) as (j0 & Hj0 & Ha0).
    pose proof (masked_row_prob self em b i j0 Hx He Hb Hi Hj0 Ha0) as [Hfin Hsum].
    pose proof (shape3_nth b Hx Hb) as [Lb _].
    set (row := row_at (map (map F_softmax) (masked_scores self em T x)) b i) in *.
    assert (Lrow : length row = T).
    { unfold row. rewrite (softmax_row_at Hs Hb Hi), F_softmax_length.
      apply (shape2_nth i (shape3_nth b Hs Hb) Hi). }
    pose proof (dot_between lo hi (map fl_val row)
                  (column c (map (affine (value self)) (nth b x [])))) as Hd.
    rewrite Hsum, !Rmult_1_r in Hd. apply Hd.
    + unfold column. rewrite !length_map. lia.
    + apply Forall_forall. intros a Ha. apply in_map_iff in Ha as (wt & <- & Hwt).
      rewrite Forall_forall in Hfin. apply (Hfin wt Hwt).
    + intros j Hj. rewrite length_map, Lrow in Hj.
      destruct (allowed self em b i j) eqn:Ha.
      * right. unfold column.
        rewrite (map_nth_lt _ _ j [] 0%R) by (rewrite length_map; lia).
        rewrite (map_nth_lt _ _ j [] []) by lia.
        apply Hbounds; assumption.
      * left.
        pose proof (masked_weight_zero self em b i j j0 Hx He Hb Hi Hj Hj0 Ha0 Ha) as Hz.
        unfold weight_at in Hz.
        fold (row_at (map (map F_softmax) (masked_scores self em T x)) b i) in Hz.
        fold row in Hz.
        rewrite (map_nth_lt fl_val row j NaN 0%R) by lia.
        rewrite Hz. reflexivity.
Qed.

Lemma Attention_forward_within_values_witness :
  exists out s,
    Attention_forward (toy_head true) toy_x (Some (Mask2 [[1; 0]]%Z)) = Ok (out, s) /\
    forall b i c (lo hi : R),
      b < 1 -> i < 2 -> c < out_features (value (toy_head true)) ->
      (forall j, j < 2 ->
         allowed (toy_head true) (Some [[[1; 0]; [1; 0]]]%Z) b i j = true ->
         (lo <= nth c (affine (value (toy_head true)) (nth j (nth b toy_x []) [])) 0
          <= hi)%R) ->
      (lo <= nth c (nth i (nth b out []) []) 0 <= hi)%R.
Proof.
  apply (Attention_forward_within_values 1 1 2 (toy_head true) toy_x
           (Some (Mask2 [[1; 0]]%Z))).
  - apply (Attention_init_wf 1 1 true zero_Attention_init). reflexivity.
  - repeat constructor.
  - lia.
  - reflexivity.
  - intros b i Hb Hi. exists 0. split; [lia |].
    destruct b as [| b]; [| lia].
    destruct i as [| [| i]]; [reflexivity | reflexivity | lia].
Defined.

(** ** [Attention.forward]: rows without a key *)

Lemma mapM_NonFinite {A B : Type} (f : A -> result B) (l : list A) :
  (forall a, In a l -> f a = NonFinite \/ exists b, f a = Ok b) ->
  (exists a, In a l /\ f a = NonFinite) ->
  mapM f l = NonFinite.
Proof.
  induction l as [| a l IH]; intros Hall (a0 & Hin & Ha0); simpl in *; [contradiction |].
  destruct (Hall a (or_introl eq_refl)) as [-> | (b & Hb)]; [reflexivity |].
  rewrite Hb. cbn [bind].
  rewrite IH; [reflexivity | intros; apply Hall; right; assumption |].
  destruct Hin as [<- | Hin]; [congruence |].
  exists a0. split; assumption.
Qed.

Lemma mapM_Ok_or_NonFinite {A B : Type} (f : A -> result B) (l : list A) :
  (forall a, In a l -> f a = NonFinite \/ exists b, f a = Ok b) ->
  mapM f l = NonFinite \/ exists l', mapM f l = Ok l'.
Proof.
  induction l as [| a l IH]; intros Hall; simpl; [right; eexists; reflexivity |].
  destruct (Hall a (or_introl eq_refl)) as [-> | (b & ->)]; [left; reflexivity |].
  cbn [bind].
  destruct IH as [-> | (l' & ->)]; [intros; apply Hall; right; assumption | |].
  - left; reflexivity.
  - right; eexists; reflexivity.
Qed.

Lemma fl_real_cases (w : fl) : fl_real w = NonFinite \/ exists r, fl_real w = Ok r.
Proof. destruct w; [right; eexists; reflexivity | left; reflexivity]. Qed.

Lemma weighted_sum_row_cases (ncols : nat) (v : mat) (row : list fl) :
  length row = length v ->
  let f := fun row : list fl =>
    if length row =? length v
    then ws <- mapM fl_real row ;;
         Ok (tabulate ncols (fun c => dot ws (column c v)))
    else Raise (RuntimeError "mat1 and mat2 shapes cannot be multiplied") in
  (f row = NonFinite \/ exists r, f row = Ok r) /\
  (In NaN row -> f row = NonFinite).
Proof.
  intros L f. unfold f. rewrite L, Nat.eqb_refl. split.
  - destruct (mapM_Ok_or_NonFinite fl_real row) as [-> | (ws & ->)].
    + intros w _. apply fl_real_cases.
    + left; reflexivity.
    + right; eexists; reflexivity.
  - intros Hin. rewrite (mapM_NonFinite fl_real row); [reflexivity | |].
    + intros w _. apply fl_real_cases.
    + exists NaN. split; [exact Hin | reflexivity].
Qed.

Lemma in_combine_at {A B : Type} (la : list A) (lb : list B) (i : nat) (da : A) (db : B) :
  length la = length lb -> i < length la ->
  In (nth i la da, nth i lb db) (combine la lb).
Proof.
  intros L Hi. rewrite <- (combine_nth la lb i da db L).
  apply nth_In. rewrite length_combine. lia.
Qed.

Lemma bounded_exists_dec (P : nat -> bool) (n : nat) :
  (exists j, j < n /\ P j = true) \/ (forall j, j < n -> P j = false).
Proof.
  induction n as [| n IH]; [right; intros; lia |].
  destruct IH as [(j & Hj & HP) | Hall]; [left; exists j; split; [lia | exact HP] |].
  destruct (P n) eqn:E; [left; exists n; split; [lia | exact E] |].
  right. intros j Hj. destruct (Nat.eq_dec j n) as [-> | Hne]; [exact E | apply Hall; lia].
Qed.

Lemma bounded_forall_dec (Q R : nat -> Prop) (n : nat) :
  (forall i, i < n -> Q i \/ R i) ->
  (forall i, i < n -> Q i) \/ (exists i, i < n /\ R i).
Proof.
  induction n as [| n IH]; intros H; [left; intros; lia |].
  destruct IH as [Hall | (i & Hi & HR)]; [intros; apply H; lia | |].
  - destruct (H n ltac:(lia)) as [HQ | HR].
    + left. intros i Hi. destruct (Nat.eq_dec i n) as [-> | Hne]; [exact HQ | apply Hall; lia].
    + right. exists n. split; [lia | exact HR].
  - right. exists i. split; [lia | exact HR].
Qed.

Lemma rows_attend_dec (self : Attention) (em : option (list (list (list Z)))) (B T : nat) :
  rows_attend self em B T \/
  exists b i, b < B /\ i < T /\ forall j, j < T -> allowed self em b i j = false.
Proof.
  destruct (bounded_forall_dec
    (fun b => forall i, i < T -> exists j, j < T /\ allowed self em b i j = true)
    (fun b => exists i, i < T /\ forall j, j < T -> allowed self em b i j = false) B)
    as [H | (b & Hb & i & Hi & H)].
  - intros b _.
    apply (bounded_forall_dec
      (fun i => exists j, j < T /\ allowed self em b i j = true)
      (fun i => forall j, j < T -> allowed self em b i j = false) T).
    intros i _. apply bounded_exists_dec.
  - left. intros b i Hb Hi. apply H; assumption.
  - right. exists b, i. repeat split; assumption.
Qed.

Lemma Attention_forward_NonFinite (F B T : nat) (self : Attention) (x : tensor3)
    (mask : option user_mask) (em : option (list (list (list Z)))) (b i : nat) :
  Attention_wf F self ->
  shape3 B T F x -> 0 < B ->
  expand_user_mask mask B T = Ok em ->
  b < B -> i < T ->
  (forall j, j < T -> allowed self em b i j = false) ->
  Attention_forward self x mask = NonFinite.
Proof.
  intros Hwf Hx HB Hm Hb Hi Hbad.
  pose proof (seq_length_of_shape _ _ _ _ Hx HB) as HT.
  pose proof Hx as [Lx _].
  pose proof (expand_user_mask_shape _ _ _ _ Hm) as He.
  unfold Attention_forward.
  rewrite (Attention_attn_weights_eq F self x mask em Hwf);
    rewrite ?Lx, ?HT; try assumption.
  cbn [bind].
  assert (Hv : value (if causal self then set_causal_mask self (tril T) else self)
               = value self) by (destruct (causal self); reflexivity).
  rewrite Hv.
  pose proof (masked_scores_shape self em Hx He) as Hs.
  set (W := map (map F_softmax) (masked_scores self em T x)).
  set (V := map (map (affine (value self))) x).
  assert (LW : length W = B) by (unfold W; rewrite length_map; destruct Hs; assumption).
  assert (LV : length V = B) by (unfold V; rewrite length_map; exact Lx).
  assert (Hrow : forall b' i', b' < B -> i' < T ->
            length (row_at W b' i') = length (nth b' V [])).
  { intros b' i' Hb' Hi'. unfold W. rewrite (softmax_row_at Hs Hb' Hi').
    rewrite F_softmax_length, (shape2_nth i' (shape3_nth b' Hs Hb') Hi').
    unfold V. rewrite (map_nth_lt _ x b' [] []) by lia. rewrite length_map.
    destruct (shape3_nth b' Hx Hb') as [L _]. symmetry. exact L. }
  assert (LWb : forall b', b' < B -> length (nth b' W []) = T).
  { intros b' Hb'. unfold W. rewrite (map_nth_lt _ _ b' [] []) by (destruct Hs; lia).
    rewrite length_map. destruct (shape3_nth b' Hs Hb') as [L _]. exact L. }
  unfold bzip. rewrite LW, LV, Nat.eqb_refl.
  rewrite mapM_NonFinite; [reflexivity | |].
  - intros [Wb Vb] Hin. cbn [fst snd].
    apply (in_zip_nth _ _ _ _ [] []) in Hin as (b' & Hb' & _ & <- & <-).
    rewrite LW in Hb'.
    destruct (mapM_Ok_or_NonFinite
      (fun row : list fl =>
         if length row =? length (nth b' V [])
         then ws <- mapM fl_real row ;;
              Ok (tabulate (out_features (value self))
                    (fun c => dot ws (column c (nth b' V []))))
         else Raise (RuntimeError "mat1 and mat2 shapes cannot be multiplied"))
      (nth b' W [])) as [E | (r & E)].
    + intros row Hin. apply (In_nth _ _ []) in Hin as (i' & Hi' & <-).
      rewrite (LWb b' Hb') in Hi'.
      apply (weighted_sum_row_cases _ _ _ (Hrow b' i' Hb' Hi')).
    + left. exact E.
    + right. exists r. exact E.
  - exists (nth b W [], nth b V []). split.
    + apply in_combine_at; lia.
    + cbn [fst snd]. unfold weighted_sum.
      apply mapM_NonFinite.
      * intros row Hin. apply (In_nth _ _ []) in Hin as (i' & Hi' & <-).
        rewrite (LWb b Hb) in Hi'.
        apply (weighted_sum_row_cases _ _ _ (Hrow b i' Hb Hi')).
      * exists (row_at W b i). split.
        -- apply nth_In. rewrite (LWb b Hb). exact Hi.
        -- apply (weighted_sum_row_cases _ _ _ (Hrow b i Hb Hi)).
           pose proof (masked_weight_nan self em b i 0 Hx He Hb Hi ltac:(lia) Hbad) as Hn.
           unfold weight_at in Hn. fold W in Hn. fold (row_at W b i) in Hn.
           rewrite <- Hn. apply nth_In.
           unfold W. rewrite (softmax_row_at Hs Hb Hi), F_softmax_length.
           rewrite (shape2_nth i (shape3_nth b Hs Hb) Hi). lia.
Qed.

(** X4. When the user mask (if any) is one that [expand_as] accepts,
    [Attention.forward] returns a tensor of real numbers exactly when every
    query row keeps a key that neither the causal mask nor the user mask
    forbids; as soon as one row loses all its keys (a batch element that is
    padding only, or a causal head whose mask pads the first key), the
    softmax of that row is NaN and the returned tensor holds NaN.  No error
    is raised in either case. *)
Theorem Attention_forward_returns_iff (F B T : nat) (self : Attention) (x : tensor3)
    (mask : option user_mask) (em : option (list (list (list Z)))) :
  Attention_wf F self ->
  shape3 B T F x -> 0 < B ->
  expand_user_mask mask B T = Ok em ->
  ((exists out s, Attention_forward self x mask = Ok (out, s))
   <-> rows_attend self em B T) /\
  (~ rows_attend self em B T -> Attention_forward self x mask = NonFinite).
Proof.
  intros Hwf Hx HB Hm.
  pose proof (seq_length_of_shape _ _ _ _ Hx HB) as HT.
  pose proof Hx as [Lx _].
  assert (Hbad : ~ rows_attend self em B T -> Attention_forward self x mask = NonFinite).
  { intros Hn. destruct (rows_attend_dec self em B T) as [H | (b & i & Hb & Hi & H)];
      [contradiction |].
    apply (Attention_forward_NonFinite F B T self x mask em b i); assumption. }
  split; [split |].
  - intros (out & s & H).
    destruct (rows_attend_dec self em B T) as [Hr | (b & i & Hb & Hi & Hr)]; [exact Hr |].
    rewrite (Attention_forward_NonFinite F B T self x mask em b i) in H by assumption.
    discriminate.
  - intros Hr. eexists _, _.
    apply (Attention_forward_eq F self x mask em Hwf); rewrite ?Lx, ?HT; assumption.
  - exact Hbad.
Qed.

Lemma Attention_forward_returns_iff_witness :
  (exists out s, Attention_forward (toy_head true) toy_x None = Ok (out, s)) /\
  Attention_forward (toy_head true) toy_x (Some left_padding) = NonFinite.
Proof.
  assert (Hwf : Attention_wf 1 (toy_head true))
    by (apply (Attention_init_wf 1 1 true zero_Attention_init); reflexivity).
  assert (Hx : shape3 1 2 1 toy_x) by (repeat constructor).
  split.
  - apply (proj1 (Attention_forward_returns_iff 1 1 2 (toy_head true) toy_x None None
                    Hwf Hx ltac:(lia) eq_refl)).
    intros b i _ Hi. exists i. split; [exact Hi |].
    unfold allowed. cbn [toy_head causal user_allows]. rewrite Nat.leb_refl. reflexivity.
  - apply (proj2 (Attention_forward_returns_iff 1 1 2 (toy_head true) toy_x
                    (Some left_padding) (Some [[[0; 1]; [0; 1]]]%Z)
                    Hwf Hx ltac:(lia) eq_refl)).
    intros Hrows. destruct (Hrows 0 0 ltac:(lia) ltac:(lia)) as (j & Hj & Ha).
    destruct j as [| [| j]]; [discriminate | discriminate | lia].
Defined.

(** ** [Attention.forward]: the shape of the user mask *)

Lemma mapM_Raise {A B : Type} (f : A -> result B) (l : list A) (e : exn) :
  l <> [] -> (forall a, In a l -> f a = Raise e) -> mapM f l = Raise e.
Proof.
  destruct l as [| a l]; [congruence |]. intros _ H. simpl.
  rewrite (H a (or_introl eq_refl)). reflexivity.
Qed.

Lemma Attention_forward_mask_raise (F B T : nat) (self : Attention) (x : tensor3)
    (m : user_mask) (e : exn) :
  Attention_wf F self ->
  shape3 B T F x -> 0 < B ->
  expand_as_scores m B T = Raise e ->
  Attention_forward self x (Some m) = Raise e.
Proof.
  intros Hwf Hx HB He.
  pose proof (seq_length_of_shape _ _ _ _ Hx HB) as HT.
  pose proof Hx as [Lx _].
  pose proof Hwf as (Hk & Hq & Hv & Fk & Fq & Fv & Hkq & Hc).
  unfold Attention_forward, Attention_attn_weights, batch_size_of.
  rewrite HT, Lx.
  rewrite (Linear_forward_shape (key self) B T) by (rewrite Fk; exact Hx).
  rewrite (Linear_forward_shape (query self) B T) by (rewrite Fq; exact Hx).
  rewrite (Linear_forward_shape (value self) B T) by (rewrite Fv; exact Hx).
  cbn [bind].
  rewrite bzip_map_same.
  rewrite (mapM_pure _ (raw_scores self)).
  2:{ intros xb Hxb. destruct Hx as [_ Hx]. rewrite Forall_forall in Hx.
      eapply scaled_scores_eq; [exact Hwf | apply Hx, Hxb]. }
  cbn [bind]. rewrite map_map.
  rewrite (causal_buffer_tril T Hwf).
  destruct (causal self) eqn:Ecausal.
  - rewrite (mapM_pure _
      (fun sb => zipWith (zipWith fill_pure) sb (map (map negb) (tril T)))).
    2:{ intros sb Hsb.
        pose proof (unmasked_scores_shape self Hx) as [_ Hs].
        rewrite Forall_forall in Hs.
        apply (bzip2_shape fill fill_pure T T);
          [reflexivity | apply Hs, Hsb | apply shape2_map, tril_shape]. }
    cbn [bind]. rewrite He. reflexivity.
  - cbn [bind]. rewrite He. reflexivity.
Qed.

Lemma expand_raise {A : Type} (n : nat) (l : list A) :
  length l <> n -> length l <> 1 ->
  expand n l
  = Raise (RuntimeError "The expanded size of the tensor must match the existing size").
Proof.
  intros Hn H1. unfold expand.
  destruct (Nat.eqb_spec (length l) n) as [E | _]; [contradiction |].
  destruct l as [| a [| a' l]]; [reflexivity | simpl in H1; lia | reflexivity].
Qed.

Lemma expand_members {A : Type} (n : nat) (l l' : list A) :
  0 < n -> expand n l = Ok l' -> l' <> [] /\ forall a, In a l' -> In a l.
Proof.
  intros Hn H. pose proof (expand_length _ _ _ H) as L.
  split; [intros ->; simpl in L; lia |].
  unfold expand in H. destruct (length l =? n).
  - injection H as <-. auto.
  - destruct l as [| a0 [| ? ?]]; try discriminate. injection H as <-.
    intros a Ha. apply repeat_spec in Ha as ->. left; reflexivity.
Qed.

(** X5. What [mask.unsqueeze(1).expand_as(scores)] demands of the user
    mask of [Attention.forward], for scores of shape [(B, T, T)].  A mask
    with two axes must have [B] or one rows of [T] or one entries, and a
    mask with one axis must have [T] or one entries; any other size raises
    the expansion error.  A mask with two axes is read along the key axis,
    but a mask with one axis of [T] entries is read along the query axis: a
    zero at position [i] forbids every key of query [i], and the output is
    not finite. *)
Theorem Attention_forward_mask_contract (F B T : nat) (self : Attention) (x : tensor3) :
  Attention_wf F self ->
  shape3 B T F x -> 0 < B ->
  (forall m, length m <> B -> length m <> 1 ->
     Attention_forward self x (Some (Mask2 m))
     = Raise (RuntimeError
                "The expanded size of the tensor must match the existing size")) /\
  (forall m, length m = B \/ length m = 1 ->
     Forall (fun r => length r <> T /\ length r <> 1) m ->
     Attention_forward self x (Some (Mask2 m))
     = Raise (RuntimeError
                "The expanded size of the tensor must match the existing size")) /\
  (forall m, length m <> T -> length m <> 1 ->
     Attention_forward self x (Some (Mask1 m))
     = Raise (RuntimeError
                "The expanded size of the tensor must match the existing size")) /\
  (forall m i, length m = T -> i < T -> nth i m 1%Z = 0%Z ->
     Attention_forward self x (Some (Mask1 m)) = NonFinite).
Proof.
  intros Hwf Hx HB.
  repeat match goal with |- _ /\ _ => split end.
  - intros m Hn H1.
    apply (Attention_forward_mask_raise F B T); try assumption.
    simpl. rewrite (expand_raise B m Hn H1). reflexivity.
  - intros m Hlen Hrows.
    apply (Attention_forward_mask_raise F B T); try assumption.
    simpl.
    destruct (expand B m) as [mb | e |] eqn:E.
    + cbn [bind]. apply (expand_members B m mb HB) in E as [Hne Hin].
      apply mapM_Raise; [exact Hne |].
      intros r Hr. apply Hin in Hr. rewrite Forall_forall in Hrows.
      destruct (Hrows r Hr) as [HrT Hr1].
      rewrite (expand_raise T r HrT Hr1). reflexivity.
    + unfold expand in E. destruct Hlen as [Hlen | Hlen].
      * rewrite Hlen, Nat.eqb_refl in E. discriminate.
      * destruct (length m =? B); [discriminate |].
        destruct m as [| a [| ? ?]]; simpl in Hlen; try lia. discriminate.
    + unfold expand in E. destruct (length m =? B); [discriminate |].
      destruct m as [| a [| ? ?]]; discriminate.
  - intros m Hn H1.
    apply (Attention_forward_mask_raise F B T); try assumption.
    simpl. rewrite (expand_raise T m Hn H1). reflexivity.
  - intros m i Hlen Hi Hz.
    apply (Attention_forward_NonFinite F B T self x (Some (Mask1 m))
             (Some (repeat (map (fun z => repeat z T) m) B)) 0 i);
      try assumption.
    + simpl. unfold expand. rewrite Hlen, Nat.eqb_refl. reflexivity.
    + intros j Hj. unfold allowed, user_allows.
      destruct B as [| B']; [lia |]. cbn [repeat nth].
      rewrite (map_nth_lt _ m i 1%Z []) by lia.
      rewrite Hz.
      rewrite (nth_indep _ 1%Z 0%Z) by (rewrite repeat_length; exact Hj).
      rewrite nth_repeat. apply andb_false_r.
Qed.

Lemma Attention_forward_mask_contract_witness :
  (forall m, length m <> 2 -> length m <> 1 ->
     Attention_forward (toy_head false) [[[0]; [0]]; [[0]; [0]]]%R (Some (Mask2 m))
     = Raise (RuntimeError
                "The expanded size of the tensor must match the existing size")) /\
  (forall m, length m = 2 \/ length m = 1 ->
     Forall (fun r => length r <> 2 /\ length r <> 1) m ->
     Attention_forward (toy_head false) [[[0]; [0]]; [[0]; [0]]]%R (Some (Mask2 m))
     = Raise (RuntimeError
                "The expanded size of the tensor must match the existing size")) /\
  (forall m, length m <> 2 -> length m <> 1 ->
     Attention_forward (toy_head false) [[[0]; [0]]; [[0]; [0]]]%R (Some (Mask1 m))
     = Raise (RuntimeError
                "The expanded size of the tensor must match the existing size")) /\
  (forall m i, length m = 2 -> i < 2 -> nth i m 1%Z = 0%Z ->
     Attention_forward (toy_head false) [[[0]; [0]]; [[0]; [0]]]%R (Some (Mask1 m)) = NonFinite).
Proof.
  apply (Attention_forward_mask_contract 1 2 2 (toy_head false) [[[0]; [0]]; [[0]; [0]]]%R).
  - apply (Attention_init_wf 1 1 false zero_Attention_init). reflexivity.
  - repeat constructor.
  - lia.
Defined.

(** ** [Attention.forward]: the cached causal mask *)






(** ** [MultiHeadAttention.forward] with a user mask *)

Lemma attention_output_shape (self : Attention) (em : option (list (list (list Z))))
    {B T F : nat} {x : tensor3} :
  shape3 B T F x -> seq_length_of x = T ->
  match em with Some e => shape3 B T T e | None => True end ->
  shape3 B T (out_features (value self)) (attention_output self em x).
Proof.
  intros Hx HT He. unfold attention_output. rewrite HT.
  pose proof (masked_scores_shape self em Hx He) as Hs.
  pose proof Hs as [Ls Hs']. pose proof Hx as [Lx _].
  split; [rewrite zipWith_length; rewrite !length_map; lia |].
  apply Forall_forall. intros y Hy. unfold zipWith in Hy.
  apply in_map_iff in Hy as ([Wb Vb] & <- & Hin). cbn [fst snd].
  apply weighted_sum_pure_shape.
  apply in_combine_l in Hin. apply in_map_iff in Hin as (sb & <- & Hsb).
  rewrite length_map. rewrite Forall_forall in Hs'. destruct (Hs' sb Hsb) as [L _]. exact L.
Qed.

Lemma allowed_noncausal (self : Attention) (em : option (list (list (list Z))))
    (b i j : nat) :
  causal self = false -> allowed self em b i j = user_allows em b i j.
Proof. intros Hc. unfold allowed. rewrite Hc. reflexivity. Qed.

Lemma heads_forward_masked {F hs B T : nat} {hds : list Attention} {x : tensor3}
    (mask : option user_mask) (em : option (list (list (list Z)))) :
  Forall (fun a => Attention_wf F a /\ causal a = false /\ out_features (value a) = hs) hds ->
  shape3 B T F x -> 0 < B ->
  expand_user_mask mask B T = Ok em ->
  (forall b i, b < B -> i < T -> exists j, j < T /\ user_allows em b i j = true) ->
  exists outs,
    mapM (fun head => Attention_forward head x mask) hds = Ok outs /\
    map snd outs = hds /\ length outs = length hds /\
    Forall (shape3 B T hs) (map fst outs).
Proof.
  intros Hh Hx HB Hm Hrows.
  pose proof (seq_length_of_shape _ _ _ _ Hx HB) as HT.
  pose proof Hx as [Lx _].
  pose proof (expand_user_mask_shape _ _ _ _ Hm) as He.
  induction Hh as [| a hds (Hwf & Hc & Ho) _ IH]; simpl.
  - exists []. repeat split; constructor.
  - rewrite (Attention_forward_eq F a x mask em Hwf); rewrite ?Lx, ?HT; try assumption.
    2:{ intros b i Hb Hi. destruct (Hrows b i Hb Hi) as (j & Hj & Hu).
        exists j. split; [exact Hj |]. rewrite allowed_noncausal; assumption. }
    destruct IH as (outs & Houts & Hsnd & Hlen & Hshapes).
    cbn [bind]. rewrite Houts. cbn [bind]. rewrite Hc.
    eexists. split; [reflexivity |]. simpl. repeat split.
    + rewrite Hsnd. reflexivity.
    + rewrite Hlen. reflexivity.
    + constructor; [| exact Hshapes].
      rewrite <- Ho. apply (attention_output_shape a em Hx HT He).
Qed.

(** X7. [MultiHeadAttention.forward] hands the same user mask to every
    head.  For an instance built with at least one head, an input of shape
    [(B, T, feature_size)] and a mask that [expand_as] accepts: if every
    query row keeps a key the mask allows, the call returns a tensor of
    shape [(B, T, feature_size)] and leaves the module as it was; if some
    row has no allowed key, the result is not finite.  An instance built
    with no head raises on every input and mask, because [torch.cat] is
    given an empty list. *)
Theorem MultiHeadAttention_forward_masked (num_heads head_size feature_size : nat)
    (w : MultiHeadAttentionInit) (self : MultiHeadAttention) (x : tensor3)
    (mask : option user_mask) (em : option (list (list (list Z)))) (B T : nat) :
  MultiHeadAttention_init num_heads head_size feature_size w = Ok self ->
  shape3 B T feature_size x -> 0 < B ->
  expand_user_mask mask B T = Ok em ->
  (0 < num_heads ->
   (forall b i, b < B -> i < T -> exists j, j < T /\ user_allows em b i j = true) ->
   exists y,
     MultiHeadAttention_forward self x mask = Ok (y, self) /\
     shape3 B T feature_size y) /\
  (0 < num_heads ->
   (exists b i, b < B /\ i < T /\ forall j, j < T -> user_allows em b i j = false) ->
   MultiHeadAttention_forward self x mask = NonFinite) /\
  (num_heads = 0 ->
   MultiHeadAttention_forward self x mask
   = Raise (RuntimeError "torch.cat(): expected a non-empty list of Tensors")).
Proof.
  intros Hinit Hx HB Hm.
  repeat match goal with |- _ /\ _ => split end.
  - intros Hn Hrows.
    apply MultiHeadAttention_init_wf in Hinit as ((Hne & Hh & Hl & Hin) & Hout & Hlen);
      [| exact Hn].
    unfold MultiHeadAttention_forward.
    destruct (heads_forward_masked mask em Hh Hx HB Hm Hrows)
      as (outs & Houts & Hsnd & Hlo & Hshapes).
    rewrite Houts. cbn [bind].
    assert (Hne' : map fst outs <> []).
    { intros E. apply (f_equal (@length _)) in E. rewrite length_map, Hlo in E.
      destruct (heads self); [congruence | discriminate]. }
    destruct (cat_last_shape Hne' Hshapes) as (c & Hc & Hcs).
    rewrite Hc. cbn [bind].
    rewrite length_map, Hlo, <- Hin in Hcs.
    rewrite (Linear_forward_shape _ _ _ _ Hcs). cbn [bind].
    rewrite Hsnd. destruct self as [hds proj]. simpl in *.
    eexists; split; [reflexivity |].
    rewrite <- Hout. exact (affine_shape3 proj Hl Hcs).
  - intros Hn (b & i & Hb & Hi & Hbad).
    apply MultiHeadAttention_init_wf in Hinit as ((Hne & Hh & _) & _); [| exact Hn].
    unfold MultiHeadAttention_forward.
    destruct (heads self) as [| a hds]; [congruence |].
    apply Forall_inv in Hh. destruct Hh as (Hwf & Hc & _).
    cbn [mapM].
    rewrite (Attention_forward_NonFinite feature_size B T a x mask em b i);
      try assumption; [reflexivity |].
    intros j Hj. rewrite allowed_noncausal by exact Hc. apply Hbad, Hj.
  - intros ->. unfold MultiHeadAttention_init in Hinit. simpl in Hinit.
    injection Hinit as <-. reflexivity.
Qed.

Lemma MultiHeadAttention_forward_masked_witness :
  exists self,
    MultiHeadAttention_init 1 1 1 zero_MultiHeadAttention_init = Ok self /\
    (exists y,
       MultiHeadAttention_forward self toy_x (Some (Mask2 [[1; 0]]%Z)) = Ok (y, self) /\
       shape3 1 2 1 y) /\
    MultiHeadAttention_forward self toy_x (Some (Mask2 [[0; 0]]%Z)) = NonFinite.
Proof.
  eexists. split; [reflexivity |]. split.
  - apply (MultiHeadAttention_forward_masked 1 1 1 zero_MultiHeadAttention_init _ toy_x
             (Some (Mask2 [[1; 0]]%Z)) (Some [[[1; 0]; [1; 0]]]%Z) 1 2
             eq_refl ltac:(repeat constructor) ltac:(lia) eq_refl).
    + lia.
    + intros b i Hb Hi. exists 0. split; [lia |].
      destruct b as [| b]; [| lia].
      destruct i as [| [| i]]; [reflexivity | reflexivity | lia].
  - apply (MultiHeadAttention_forward_masked 1 1 1 zero_MultiHeadAttention_init _ toy_x
             (Some (Mask2 [[0; 0]]%Z)) (Some [[[0; 0]; [0; 0]]]%Z) 1 2
             eq_refl ltac:(repeat constructor) ltac:(lia) eq_refl).
    + lia.
    + exists 0, 0. split; [lia |]. split; [lia |].
      intros j Hj. destruct j as [| [| j]]; [reflexivity | reflexivity | lia].
Defined.

(** ** [FeedForward.forward] and [FeedForwardBlock.forward] are position-wise *)

Lemma Dropout_forward_nth (d : Dropout) (keep : keep3) (x : tensor3) (b i : nat) :
  b < length x -> i < length (nth b x []) ->
  nth i (nth b (Dropout_forward d keep x) []) []
  = Dropout_row d (keep b i) (nth i (nth b x []) []).
Proof.
  intros Hb Hi. unfold Dropout_forward, Dropout_row.
  destruct (training d); [| reflexivity].
  rewrite (imap_nth _ x b [] [] Hb).
  rewrite (imap_nth _ (nth b x []) i [] [] Hi). reflexivity.
Qed.

Lemma feed_forward_positionwise (l0 l3 : Linear) (d : Dropout) (keep : keep3)
    (B T n : nat) (x : tensor3) :
  Linear_wf l0 -> in_features l0 = n -> in_features l3 = out_features l0 ->
  shape3 B T n x ->
  (h <- Linear_forward l0 x ;;
   Linear_forward l3 (Dropout_forward d keep (map (map (map relu)) h)))
  = Ok (imap (fun b => imap (fun i v =>
          affine l3 (Dropout_row d (keep b i) (map relu (affine l0 v))))) x).
Proof.
  intros H0 I0 I3 Hx. rewrite <- I0 in Hx.
  rewrite (Linear_forward_shape _ _ _ _ Hx). cbn [bind].
  pose proof (affine_shape3 l0 H0 Hx) as S1.
  pose proof (Dropout_forward_shape d keep (shape3_map relu S1)) as S2.
  rewrite <- I3 in S2.
  rewrite (Linear_forward_shape _ _ _ _ S2). f_equal.
  pose proof Hx as [Lx _]. pose proof S2 as [L2 _].
  apply (nth_ext _ _ [] []).
  - rewrite length_map, imap_length. lia.
  - intros b Hb. rewrite length_map, L2 in Hb.
    pose proof (shape3_nth b Hx Hb) as [Lb _].
    pose proof (shape3_nth b S2 Hb) as [L2b _].
    rewrite (map_nth_lt _ _ b [] []) by lia.
    rewrite (imap_nth _ x b [] []) by lia.
    apply (nth_ext _ _ [] []).
    + rewrite length_map, imap_length. lia.
    + intros i Hi. rewrite length_map, L2b in Hi.
      rewrite (map_nth_lt _ _ i [] []) by lia.
      rewrite (imap_nth _ (nth b x []) i [] []) by lia.
      f_equal.
      rewrite Dropout_forward_nth.
      * rewrite (map_nth_lt _ _ b [] []) by (rewrite length_map; lia).
        rewrite (map_nth_lt _ x b [] []) by lia.
        rewrite (map_nth_lt _ _ i [] []) by (rewrite length_map; lia).
        rewrite (map_nth_lt _ _ i [] []) by lia. reflexivity.
      * rewrite !length_map. lia.
      * rewrite (map_nth_lt _ _ b [] []) by (rewrite length_map; lia).
        rewrite (map_nth_lt _ x b [] []) by lia. rewrite !length_map. lia.
Qed.

Lemma FeedForwardBlock_init_wf (dm d_ff : nat) (dropout : R) (w1 w2 : LinearInit)
    (self : FeedForwardBlock) :
  FeedForwardBlock_init dm d_ff dropout w1 w2 = Ok self -> FeedForwardBlock_wf dm self.
Proof.
  unfold FeedForwardBlock_init. intros H.
  apply bind_Ok_inv in H as (d & _ & H). injection H as <-.
  unfold FeedForwardBlock_wf; cbn [linear_1 linear_2].
  split; [apply nn_Linear_wf | split; [apply nn_Linear_wf |]].
  repeat split.
Qed.

(** X8. Both feed-forward networks act on every position by itself.  For
    a [FeedForward] (forecasting model) or a [FeedForwardBlock]
    (encoder/decoder) with parameters of the shapes [__init__] gives them and
    an input of shape [(B, T, n)], [forward] returns, and its output at
    position [(b, i)] is [linear(dropout(relu(linear(x[b][i]))))], computed
    from the input at [(b, i)] and the dropout draws at [(b, i)] alone; in
    evaluation mode it does not depend on the draws at all.  No position
    sees another one, and the sequence length is free. *)
Theorem feed_forward_networks_positionwise :
  (forall (n : nat) (self : FeedForward) (keep : keep3) (B T : nat) (x : tensor3),
     FeedForward_wf n self -> shape3 B T n x ->
     FeedForward_forward self keep x
     = Ok (imap (fun b => imap (fun i => FeedForward_position self (keep b i))) x) /\
     (training (net_2 self) = false ->
      FeedForward_forward self keep x
      = Ok (map (map (FeedForward_position self (fun _ => true))) x))) /\
  (forall (dm : nat) (self : FeedForwardBlock) (keep : keep3) (B T : nat) (x : tensor3),
     FeedForwardBlock_wf dm self -> shape3 B T dm x ->
     FeedForwardBlock_forward self keep x
     = Ok (imap (fun b => imap (fun i => FeedForwardBlock_position self (keep b i))) x) /\
     (training (ffb_dropout self) = false ->
      FeedForwardBlock_forward self keep x
      = Ok (map (map (FeedForwardBlock_position self (fun _ => true))) x))).
Proof.
  assert (Heval : forall (l0 l3 : Linear) (d : Dropout) (keep : keep3) (x : tensor3),
            training d = false ->
            imap (fun b => imap (fun i v =>
              affine l3 (Dropout_row d (keep b i) (map relu (affine l0 v))))) x
            = map (map (fun v =>
                affine l3 (Dropout_row d (fun _ => true) (map relu (affine l0 v))))) x).
  { intros l0 l3 d keep x Ht. unfold Dropout_row. rewrite Ht.
    apply (nth_ext _ _ [] []); [rewrite imap_length, length_map; reflexivity |].
    intros b Hb. rewrite imap_length in Hb.
    rewrite (imap_nth _ x b [] []) by lia.
    rewrite (map_nth_lt _ x b [] []) by lia.
    apply (nth_ext _ _ [] []); [rewrite imap_length, length_map; reflexivity |].
    intros i Hi. rewrite imap_length in Hi.
    rewrite (imap_nth _ _ i [] []) by lia.
    rewrite (map_nth_lt _ _ i [] []) by lia. reflexivity. }
  split.
  - intros n self keep B T x (H0 & H3 & I0 & I3 & O3) Hx.
    pose proof (feed_forward_positionwise (net_0 self) (net_3 self) (net_2 self) keep
                  B T n x H0 I0 I3 Hx) as E.
    split; [exact E |].
    intros Ht. unfold FeedForward_position.
    rewrite <- (Heval (net_0 self) (net_3 self) (net_2 self) keep x Ht). exact E.
  - intros dm self keep B T x (H1 & H2 & I1 & I2 & O2) Hx.
    pose proof (feed_forward_positionwise (linear_1 self) (linear_2 self) (ffb_dropout self)
                  keep B T dm x H1 I1 I2 Hx) as E.
    split; [exact E |].
    intros Ht. unfold FeedForwardBlock_position.
    rewrite <- (Heval (linear_1 self) (linear_2 self) (ffb_dropout self) keep x Ht).
    exact E.
Qed.

Lemma feed_forward_networks_positionwise_witness :
  (FeedForward_forward (ffwd toy_forecaster) no_drop3 [[[0; 0; 0; 0]]]%R
   = Ok (imap (fun b => imap (fun i =>
           FeedForward_position (ffwd toy_forecaster) (no_drop3 b i))) [[[0; 0; 0; 0]]]%R)) /\
  (FeedForwardBlock_forward toy_feed_forward_block no_drop3 toy_x2
   = Ok (map (map (FeedForwardBlock_position toy_feed_forward_block (fun _ => true)))
           toy_x2)).
Proof.
  destruct feed_forward_networks_positionwise as [H1 H2].
  split.
  - apply (proj1 (H1 4 (ffwd toy_forecaster) no_drop3 1 1 [[[0; 0; 0; 0]]]%R
                    (FeedForward_init_wf 4 4 (1 / 10)
                       (init_ffwd zero_TimeSeriesTransformer_init) _
                       ltac:(unfold FeedForward_init;
                             rewrite (nn_Dropout_ok (1 / 10)) by lra; reflexivity))
                    ltac:(repeat constructor))).
  - apply (proj2 (H2 2 toy_feed_forward_block no_drop3 1 1 toy_x2
                    (conj (nn_Linear_wf 2 2 true zero_Linear_init)
                       (conj (nn_Linear_wf 2 2 true zero_Linear_init)
                          (conj eq_refl (conj eq_refl eq_refl))))
                    ltac:(repeat constructor))).
    reflexivity.
Defined.

(** ** [TimeSeriesTransformer]: when it is built and when it runs *)

Lemma TimeSeriesTransformer_init_small (n_embd block_size horizon : nat)
    (w : TimeSeriesTransformerInit) :
  n_embd < 4 ->
  TimeSeriesTransformer_init n_embd block_size horizon w
  = Raise (ZeroDivisionError "0.0 cannot be raised to a negative power").
Proof.
  intros H. unfold TimeSeriesTransformer_init, MultiHeadAttention_init.
  rewrite (Nat.div_small n_embd 4 H). reflexivity.
Qed.

Lemma TimeSeriesTransformer_init_large (n_embd block_size horizon : nat)
    (w : TimeSeriesTransformerInit) :
  4 <= n_embd ->
  exists self, TimeSeriesTransformer_init n_embd block_size horizon w = Ok self.
Proof.
  intros H. unfold TimeSeriesTransformer_init.
  destruct (proj2 (MultiHeadAttention_init_ok_iff 4 (n_embd / 4) n_embd (init_sa_heads w)))
    as (m & Hm).
  { right. intros E. apply Nat.div_small_iff in E; lia. }
  rewrite Hm. cbn [bind]. unfold FeedForward_init.
  rewrite (nn_Dropout_ok (1 / 10)) by lra.
  eexists. reflexivity.
Qed.

(** X9. [TimeSeriesTransformer(n_embd, block_size, forecast_horizon)] is
    built exactly when [n_embd >= 4].  With a smaller [n_embd] the head size
    [n_embd // 4] is zero and [head_size ** -0.5] in [Attention.__init__]
    raises a [ZeroDivisionError]; [block_size] and [forecast_horizon] are
    not checked, and [n_embd] need not be a multiple of four. *)
Theorem TimeSeriesTransformer_init_iff (n_embd block_size horizon : nat)
    (w : TimeSeriesTransformerInit) :
  ((exists self, TimeSeriesTransformer_init n_embd block_size horizon w = Ok self)
   <-> 4 <= n_embd) /\
  (TimeSeriesTransformer_init n_embd block_size horizon w
   = Raise (ZeroDivisionError "0.0 cannot be raised to a negative power")
   <-> n_embd < 4).
Proof.
  destruct (Nat.lt_ge_cases n_embd 4) as [Hlt | Hge].
  - pose proof (TimeSeriesTransformer_init_small n_embd block_size horizon w Hlt) as E.
    split; split.
    + intros (self & H). rewrite E in H. discriminate.
    + lia.
    + intros _. exact Hlt.
    + intros _. exact E.
  - destruct (TimeSeriesTransformer_init_large n_embd block_size horizon w Hge)
      as (self & E).
    split; split.
    + intros _. exact Hge.
    + intros _. exists self. exact E.
    + intros H. rewrite E in H. discriminate.
    + lia.
Qed.

Lemma mapM_raise_at {A B : Type} (f : A -> result B) (l1 l2 : list A) (a : A) (e : exn) :
  (forall a', In a' l1 -> exists b, f a' = Ok b) ->
  f a = Raise e ->
  mapM f (l1 ++ a :: l2) = Raise e.
Proof.
  intros H1 Ha. induction l1 as [| a1 l1 IH]; simpl.
  - rewrite Ha. reflexivity.
  - destruct (H1 a1 (or_introl eq_refl)) as (b & ->). cbn [bind].
    rewrite IH by (intros; apply H1; right; assumption). reflexivity.
Qed.

Lemma Embedding_arange_out_of_range (table : mat) (T : nat) :
  length table < T ->
  Embedding_arange table T = Raise (IndexError "index out of range in self").
Proof.
  intros H. unfold Embedding_arange.
  replace T with (length table + S (T - S (length table))) by lia.
  rewrite seq_app. cbn [seq]. apply mapM_raise_at.
  - intros i Hi. apply in_seq in Hi.
    destruct (nth_error table i) as [row |] eqn:E; [eexists; reflexivity |].
    apply nth_error_None in E. lia.
  - rewrite (proj2 (nth_error_None table (0 + length table))) by lia. reflexivity.
Qed.

Lemma TimeSeriesTransformer_forward_empty_input (self : TimeSeriesTransformer)
    (keep : keep3) (x : mat) (B T : nat) :
  shape2 B T x -> B = 0 \/ T = 0 ->
  TimeSeriesTransformer_forward self keep x
  = Raise (RuntimeError
      "cannot reshape tensor of 0 elements: the unspecified dimension size -1 is ambiguous").
Proof.
  intros Hx H0.
  assert (Hlen : length x = B) by (destruct Hx; assumption).
  assert (Hhd : B * length (hd [] x) = 0).
  { destruct H0 as [-> | ->]; [reflexivity |].
    destruct Hx as [_ Hx]. destruct x as [| v x]; [simpl; lia |].
    apply Forall_inv in Hx. simpl. rewrite Hx. lia. }
  assert (Hc : concat x = []).
  { apply length_zero_iff_nil. rewrite (concat_length_shape2 B T x Hx).
    destruct H0 as [-> | ->]; lia. }
  unfold TimeSeriesTransformer_forward, TimeSeriesTransformer_hidden.
  rewrite Hlen. unfold view_BT_1. rewrite Hc. cbn [length]. rewrite Hhd.
  cbn [Nat.eqb bind map Linear_forward2 mapM]. unfold view_B_T_infer.
  rewrite Hhd. reflexivity.
Qed.

Lemma TimeSeriesTransformer_forward_too_long (n_embd block_size : nat)
    (self : TimeSeriesTransformer) (keep : keep3) (x : mat) (B T : nat) :
  TimeSeriesTransformer_wf n_embd block_size self ->
  shape2 B T x -> 0 < B -> block_size < T ->
  TimeSeriesTransformer_forward self keep x
  = Raise (IndexError "index out of range in self").
Proof.
  intros (Htab & Hip & Iip & Oip & _) Hx HB HT.
  unfold TimeSeriesTransformer_forward, TimeSeriesTransformer_hidden.
  assert (Hlen : length x = B) by (destruct Hx; assumption).
  assert (Hhd : length (hd [] x) = T).
  { destruct Hx as [_ Hx]. destruct x as [| v x]; [simpl in Hlen; lia |].
    apply Forall_inv in Hx. exact Hx. }
  rewrite Hlen, Hhd.
  unfold view_BT_1. rewrite (concat_length_shape2 B T x Hx), Nat.eqb_refl. cbn [bind].
  assert (S0 : shape2 (B * T) (in_features (input_projection self))
                 (map (fun s : R => [s]) (concat x))).
  { split; [rewrite length_map; apply (concat_length_shape2 B T x Hx) |].
    apply Forall_forall. intros v Hv. apply in_map_iff in Hv as (s & <- & _).
    rewrite Iip. reflexivity. }
  rewrite (Linear_forward2_shape _ _ _ S0). cbn [bind].
  pose proof (affine_shape2 (input_projection self) Hip S0) as S1.
  unfold view_B_T_infer.
  assert (HBT : B * T <> 0) by nia.
  rewrite (proj2 (Nat.eqb_neq _ _) HBT).
  destruct S1 as [L1 F1]. rewrite L1, Nat.eqb_refl. cbn [bind].
  rewrite Embedding_arange_out_of_range; [reflexivity |].
  destruct Htab as [Lt _]. lia.
Qed.

(** X10. A constructed forecasting model accepts exactly the windows it has
    position embeddings for: on an input of shape [(B, T)],
    [TimeSeriesTransformer.forward] returns if and only if the batch is not
    empty and [1 <= T <= block_size]. *)
Theorem TimeSeriesTransformer_forward_returns_iff (n_embd block_size horizon : nat)
    (w : TimeSeriesTransformerInit) (self : TimeSeriesTransformer) (keep : keep3)
    (x : mat) (B T : nat) :
  TimeSeriesTransformer_init n_embd block_size horizon w = Ok self ->
  shape2 B T x ->
  ((exists y s, TimeSeriesTransformer_forward self keep x = Ok (y, s))
   <-> 0 < B /\ 0 < T /\ T <= block_size).
Proof.
  intros Hinit Hx.
  apply TimeSeriesTransformer_init_wf in Hinit as [Hwf _].
  split.
  - intros (y & s & H).
    destruct (Nat.eq_dec B 0) as [HB | HB].
    { rewrite (TimeSeriesTransformer_forward_empty_input self keep x B T Hx (or_introl HB))
        in H. discriminate. }
    destruct (Nat.eq_dec T 0) as [HT | HT].
    { rewrite (TimeSeriesTransformer_forward_empty_input self keep x B T Hx (or_intror HT))
        in H. discriminate. }
    destruct (Nat.le_gt_cases T block_size) as [Hle | Hgt]; [lia |].
    rewrite (TimeSeriesTransformer_forward_too_long n_embd block_size self keep x B T)
      in H by (assumption || lia).
    discriminate.
  - intros (HB & HT & Hle).
    destruct (TimeSeriesTransformer_hidden_ok n_embd block_size self keep x B T
                Hwf Hx HB HT Hle) as (hidden & Hh & Sh).
    destruct (TimeSeriesTransformer_forward_ok n_embd block_size self keep x B T hidden
                Hwf Hx HT Hh Sh) as [E _].
    eexists _, _. exact E.
Qed.

Lemma TimeSeriesTransformer_forward_returns_iff_witness :
  (exists y s, TimeSeriesTransformer_forward toy_forecaster no_drop3 [[0; 0; 0]]%R
               = Ok (y, s))
  <-> 0 < 1 /\ 0 < 3 /\ 3 <= 2.
Proof.
  apply (TimeSeriesTransformer_forward_returns_iff 4 2 1 zero_TimeSeriesTransformer_init).
  - exact toy_forecaster_init.
  - repeat constructor.
Defined.

(** X11. How [TimeSeriesTransformer.forward] fails on a constructed model.
    An input with no batch element or no time step fails in
    [.view(B, T, -1)], whose last size cannot be inferred from zero
    elements; a window longer than [block_size] fails in the lookup of the
    position embedding table with an [IndexError], before the attention
    runs. *)
Theorem TimeSeriesTransformer_forward_errors (n_embd block_size horizon : nat)
    (w : TimeSeriesTransformerInit) (self : TimeSeriesTransformer) (keep : keep3)
    (x : mat) (B T : nat) :
  TimeSeriesTransformer_init n_embd block_size horizon w = Ok self ->
  shape2 B T x ->
  (B = 0 \/ T = 0 ->
   TimeSeriesTransformer_forward self keep x
   = Raise (RuntimeError
       "cannot reshape tensor of 0 elements: the unspecified dimension size -1 is ambiguous"))
  /\
  (0 < B -> block_size < T ->
   TimeSeriesTransformer_forward self keep x
   = Raise (IndexError "index out of range in self")).
Proof.
  intros Hinit Hx.
  apply TimeSeriesTransformer_init_wf in Hinit as [Hwf _].
  split.
  - apply TimeSeriesTransformer_forward_empty_input. exact Hx.
  - intros HB HT.
    apply (TimeSeriesTransformer_forward_too_long n_embd block_size self keep x B T);
      assumption.
Qed.

Lemma TimeSeriesTransformer_forward_errors_witness :
  TimeSeriesTransformer_forward toy_forecaster no_drop3 [[]; []]
  = Raise (RuntimeError
      "cannot reshape tensor of 0 elements: the unspecified dimension size -1 is ambiguous")
  /\
  TimeSeriesTransformer_forward toy_forecaster no_drop3 [[0; 0; 0]]%R
  = Raise (IndexError "index out of range in self").
Proof.
  split.
  - apply (proj1 (TimeSeriesTransformer_forward_errors 4 2 1
                    zero_TimeSeriesTransformer_init toy_forecaster no_drop3 [[]; []] 2 0
                    toy_forecaster_init ltac:(repeat constructor))).
    right. reflexivity.
  - apply (proj2 (TimeSeriesTransformer_forward_errors 4 2 1
                    zero_TimeSeriesTransformer_init toy_forecaster no_drop3
                    [[0; 0; 0]]%R 1 3
                    toy_forecaster_init ltac:(repeat constructor))); lia.
Defined.

(** ** [TimeSeriesTransformer.forward] series by series *)

Lemma chunks_concat {A : Type} (B T : nat) (x : list (list A)) :
  shape2 B T x ->
  tabulate B (fun b => firstn T (skipn (b * T) (concat x))) = x.
Proof.
  intros [HB Hx]. subst B. induction Hx as [| v x Hv Hx IH]; [reflexivity |].
  cbn [length]. rewrite tabulate_S. cbn [concat Nat.mul skipn]. f_equal.
  - rewrite <- Hv, firstn_app, firstn_all, Nat.sub_diag. cbn [firstn]. apply app_nil_r.
  - rewrite <- IH at 2. apply tabulate_ext. intros b _.
    f_equal. cbn [Nat.mul]. rewrite <- Hv at 1.
    rewrite skipn_app.
    rewrite (skipn_all2 v) by lia. cbn [app]. f_equal. lia.
Qed.

Lemma view_B_T_infer_eq (ip : Linear) (B T : nat) (x : mat) :
  shape2 B T x -> 0 < B -> 0 < T ->
  view_B_T_infer B T (map (affine ip) (map (fun s => [s]) (concat x)))
  = Ok (map (map (fun s => affine ip [s])) x).
Proof.
  intros Hx HB HT. unfold view_B_T_infer.
  assert (HBT : B * T <> 0) by nia.
  rewrite (proj2 (Nat.eqb_neq _ _) HBT).
  rewrite !length_map, (concat_length_shape2 B T x Hx), Nat.eqb_refl. f_equal.
  rewrite map_map.
  rewrite (tabulate_ext B _
    (fun b => map (fun s => affine ip [s]) (firstn T (skipn (b * T) (concat x)))))
    by (intros b _; rewrite <- firstn_map, <- skipn_map; reflexivity).
  transitivity (map (map (fun s => affine ip [s]))
                  (tabulate B (fun b => firstn T (skipn (b * T) (concat x))))).
  - unfold tabulate. rewrite map_map. reflexivity.
  - rewrite (chunks_concat B T x Hx). reflexivity.
Qed.

Lemma Embedding_arange_rows (table : mat) (T : nat) :
  T <= length table -> Embedding_arange table T = Ok (position_rows table T).
Proof.
  intros HT. unfold Embedding_arange, position_rows. apply mapM_pure.
  intros i Hi. apply in_seq in Hi.
  rewrite (nth_error_nth' table []) by lia. reflexivity.
Qed.

Lemma add_position_eq (B T n : nat) (x : tensor3) (pos : mat) :
  shape3 B T n x -> shape2 T n pos ->
  tensor_add x [pos] = Ok (map (fun xb => zipWith (zipWith Rplus) xb pos) x).
Proof.
  intros [HB Hx] Hp. unfold tensor_add. rewrite bzip_singleton_r.
  apply mapM_pure. intros xb Hxb. rewrite Forall_forall in Hx.
  apply (bzip2_shape add Rplus T n); [reflexivity | apply Hx, Hxb | exact Hp].
Qed.

Lemma Attention_forward_plain {F : nat} {self : Attention} {x : tensor3} :
  Attention_wf F self -> causal self = false ->
  shape3 (length x) (seq_length_of x) F x ->
  Attention_forward self x None = Ok (map (head_output self) x, self).
Proof.
  intros Hwf Hc Hx. unfold Attention_forward.
  rewrite (Attention_attn_weights_eq F self x None None) by (assumption || reflexivity).
  cbn [bind]. rewrite Hc. unfold masked_scores. rewrite Hc.
  set (T := seq_length_of x) in *. set (nc := out_features (value self)).
  rewrite map_map.
  rewrite (bzip_map_same (weighted_sum nc)
    (fun xb => map F_softmax (map (map Sc) (raw_scores self xb)))
    (map (affine (value self))) x).
  rewrite (mapM_pure _ (head_output self)); [reflexivity |].
  intros xb Hxb. apply weighted_sum_eq.
  destruct Hx as [_ Hx]. rewrite Forall_forall in Hx. destruct (Hx xb Hxb) as [HT _].
  apply Forall_forall. intros row Hrow.
  apply in_map_iff in Hrow as (srow & <- & Hsrow).
  apply in_map_iff in Hsrow as (r & <- & Hr).
  split; [| apply F_softmax_unmasked_fin].
  rewrite F_softmax_length, !length_map.
  pose proof (raw_scores_shape self HT) as [_ Hrs].
  rewrite Forall_forall in Hrs. rewrite (Hrs r Hr). symmetry; exact HT.
Qed.

Lemma zipWith_map_same {A B C D : Type} (g : B -> C -> D) (f1 : A -> B) (f2 : A -> C)
    (l : list A) :
  zipWith g (map f1 l) (map f2 l) = map (fun a => g (f1 a) (f2 a)) l.
Proof.
  induction l as [| a l IH]; [reflexivity |].
  unfold zipWith in *. cbn [map combine fst snd]. rewrite IH. reflexivity.
Qed.

Lemma cat2_eq {B T k m : nat} {a b : tensor3} :
  shape3 B T k a -> shape3 B T m b ->
  cat2 a b = Ok (zipWith (zipWith (@app R)) a b).
Proof.
  intros [Ha HA] [Hb HB]. rewrite Forall_forall in HA, HB.
  unfold cat2. apply szip_pure; [lia |].
  intros u w Hin.
  pose proof (HA u (in_combine_l _ _ _ _ Hin)) as [Hu _].
  pose proof (HB w (in_combine_r _ _ _ _ Hin)) as [Hw _].
  apply szip_pure; [lia | reflexivity].
Qed.

Lemma head_output_shape (head : Attention) {B T F : nat} {x : tensor3} :
  shape3 B T F x -> shape3 B T (out_features (value head)) (map (head_output head) x).
Proof.
  intros [LB Hx]. split; [rewrite length_map; exact LB |].
  apply Forall_forall. intros y Hy. apply in_map_iff in Hy as (xb & <- & Hxb).
  rewrite Forall_forall in Hx. destruct (Hx xb Hxb) as [LT _].
  unfold head_output. apply weighted_sum_pure_shape.
  rewrite !length_map. unfold raw_scores. rewrite length_map. exact LT.
Qed.

Lemma cat_fold_eq (B T hs : nat) (x : tensor3) (fs : list (mat -> mat)) :
  Forall (fun f => shape3 B T hs (map f x)) fs ->
  forall (k : nat) (g : mat -> mat),
    shape3 B T k (map g x) ->
    fold_left (fun acc t' => a0 <- acc ;; cat2 a0 t') (map (fun f => map f x) fs)
      (Ok (map g x))
    = Ok (map (fun xb => fold_left (zipWith (@app R)) (map (fun f => f xb) fs) (g xb)) x).
Proof.
  induction 1 as [| f fs Hf _ IH]; intros k g Hg; [reflexivity |].
  cbn [map fold_left bind].
  rewrite (cat2_eq Hg Hf).
  destruct (cat2_shape Hg Hf) as (c & Hc & Sc).
  rewrite (cat2_eq Hg Hf) in Hc. injection Hc as <-.
  rewrite zipWith_map_same in Sc |- *.
  apply (IH (k + hs) (fun xb => zipWith (@app R) (g xb) (f xb)) Sc).
Qed.

Lemma MultiHeadAttention_forward_plain (F hs : nat) (self : MultiHeadAttention)
    (x : tensor3) :
  MultiHeadAttention_wf F hs self ->
  shape3 (length x) (seq_length_of x) F x ->
  MultiHeadAttention_forward self x None
  = Ok (map (MultiHeadAttention_sequence self) x, self).
Proof.
  intros (Hne & Hh & Hl & Hin) Hx. unfold MultiHeadAttention_forward.
  rewrite (mapM_pure _ (fun head => (map (head_output head) x, head))).
  2:{ intros head Hhead. rewrite Forall_forall in Hh.
      destruct (Hh head Hhead) as (Hwf & Hc & _).
      apply (Attention_forward_plain Hwf Hc Hx). }
  cbn [bind]. rewrite !map_map. cbn [fst snd]. rewrite map_id.
  assert (Hshapes : Forall (fun f => shape3 (length x) (seq_length_of x) hs (map f x))
                      (map head_output (heads self))).
  { apply Forall_forall. intros f Hf. apply in_map_iff in Hf as (head & <- & Hhead).
    rewrite Forall_forall in Hh. destruct (Hh head Hhead) as (_ & _ & <-).
    apply (head_output_shape head Hx). }
  assert (Hcat : cat_last (map (fun head => map (head_output head) x) (heads self))
                 = Ok (map (fun xb =>
                         cat_rows (map (fun head => head_output head xb) (heads self))) x)).
  { destruct (heads self) as [| head hds]; [congruence |].
    inversion Hshapes as [| ? ? H0 Hrest]; subst.
    cbn [map cat_last cat_rows].
    rewrite <- (map_map head_output (fun f => map f x) hds).
    rewrite (cat_fold_eq _ _ hs x (map head_output hds) Hrest hs (head_output head) H0).
    f_equal. apply map_ext. intros xb. rewrite map_map. reflexivity. }
  rewrite Hcat. cbn [bind].
  assert (Scat : shape3 (length x) (seq_length_of x) (in_features (output_projection self))
                   (map (fun xb =>
                      cat_rows (map (fun head => head_output head xb) (heads self))) x)).
  { assert (Hne' : map (fun head => map (head_output head) x) (heads self) <> []).
    { destruct (heads self); [congruence | discriminate]. }
    assert (Hs' : Forall (shape3 (length x) (seq_length_of x) hs)
                    (map (fun head => map (head_output head) x) (heads self))).
    { apply Forall_forall. intros t Ht. apply in_map_iff in Ht as (head & <- & Hhead).
      rewrite Forall_forall in Hh. destruct (Hh head Hhead) as (_ & _ & <-).
      apply (head_output_shape head Hx). }
    destruct (cat_last_shape Hne' Hs') as (c & Hc & Scc).
    rewrite Hcat in Hc. injection Hc as <-.
    rewrite length_map, <- Hin in Scc. exact Scc. }
  rewrite (Linear_forward_shape _ _ _ _ Scat). cbn [bind].
  unfold MultiHeadAttention_sequence. rewrite map_map.
  destruct self; reflexivity.
Qed.

Lemma FeedForward_forward_eq (n : nat) (self : FeedForward) (keep : keep3)
    (B T : nat) (x : tensor3) :
  FeedForward_wf n self -> shape3 B T n x ->
  FeedForward_forward self keep x
  = Ok (imap (fun b => imap (fun i => FeedForward_position self (keep b i))) x).
Proof.
  intros (H0 & H3 & I0 & I3 & O3) Hx.
  exact (feed_forward_positionwise (net_0 self) (net_3 self) (net_2 self) keep
           B T n x H0 I0 I3 Hx).
Qed.

Lemma TimeSeriesTransformer_hidden_eq (n_embd block_size : nat)
    (self : TimeSeriesTransformer) (keep : keep3) (x : mat) (B T : nat) :
  TimeSeriesTransformer_wf n_embd block_size self ->
  shape2 B T x -> 0 < B -> 0 < T -> T <= block_size ->
  TimeSeriesTransformer_hidden self keep x
  = Ok (imap (fun b => imap (fun i => FeedForward_position (ffwd self) (keep b i)))
          (map (fun xb =>
             MultiHeadAttention_sequence (sa_heads self)
               (zipWith (zipWith Rplus)
                  (map (fun s => affine (input_projection self) [s]) xb)
                  (position_rows (position_embedding_table self) T))) x),
        self).
Proof.
  intros (Htab & Hip & Iip & Oip & Hsa & Osa & Hff & _) Hx HB HT Hbs.
  unfold TimeSeriesTransformer_hidden.
  assert (Hlen : length x = B) by (destruct Hx; assumption).
  assert (Hhd : length (hd [] x) = T).
  { destruct Hx as [_ Hx]. destruct x as [| v x]; [simpl in Hlen; lia |].
    apply Forall_inv in Hx. exact Hx. }
  rewrite Hlen, Hhd.
  unfold view_BT_1. rewrite (concat_length_shape2 B T x Hx), Nat.eqb_refl. cbn [bind].
  assert (S0 : shape2 (B * T) (in_features (input_projection self))
                 (map (fun s : R => [s]) (concat x))).
  { split; [rewrite length_map; apply (concat_length_shape2 B T x Hx) |].
    apply Forall_forall. intros v Hv. apply in_map_iff in Hv as (s & <- & _).
    rewrite Iip. reflexivity. }
  rewrite (Linear_forward2_shape _ _ _ S0). cbn [bind].
  pose proof (affine_shape2 (input_projection self) Hip S0) as S1.
  rewrite Oip in S1.
  pose proof (chunks_shape B T n_embd _ S1) as S2.
  pose proof (view_B_T_infer_eq (input_projection self) B T x Hx HB HT) as E1.
  assert (E1' : tabulate B (fun b => firstn T (skipn (b * T)
                   (map (affine (input_projection self))
                      (map (fun s : R => [s]) (concat x)))))
                = map (map (fun s => affine (input_projection self) [s])) x).
  { unfold view_B_T_infer in E1.
    assert (HBT : B * T <> 0) by nia.
    rewrite (proj2 (Nat.eqb_neq _ _) HBT) in E1.
    destruct S1 as [L1 _]. rewrite L1, Nat.eqb_refl in E1. injection E1 as E1. exact E1. }
  rewrite E1, E1' in *. cbn [bind].
  destruct Htab as [Ltab Htab].
  rewrite (Embedding_arange_rows _ T) by lia. cbn [bind].
  assert (Spos : shape2 T n_embd (position_rows (position_embedding_table self) T)).
  { destruct (Embedding_arange_eq (position_embedding_table self) block_size n_embd T
                (conj Ltab Htab) Hbs) as (pos & Hpos & Sp).
    rewrite (Embedding_arange_rows _ T) in Hpos by lia. injection Hpos as <-. exact Sp. }
  rewrite (add_position_eq B T n_embd _ _ S2 Spos). cbn [bind].
  destruct (add_position_shape B T n_embd _ _ S2 Spos) as (x1 & Hx1 & S3).
  rewrite (add_position_eq B T n_embd _ _ S2 Spos) in Hx1. injection Hx1 as Hx1.
  rewrite map_map in Hx1 |- *. rewrite Hx1.
  rewrite (MultiHeadAttention_forward_plain n_embd (n_embd / 4) (sa_heads self) x1 Hsa
             (shape3_own_dims B T n_embd x1 S3 HB)).
  cbn [bind].
  destruct (MultiHeadAttention_forward_shape n_embd (n_embd / 4) (sa_heads self) x1 Hsa
              (shape3_own_dims B T n_embd x1 S3 HB)) as (x2 & Hx2 & S4).
  rewrite (MultiHeadAttention_forward_plain n_embd (n_embd / 4) (sa_heads self) x1 Hsa
             (shape3_own_dims B T n_embd x1 S3 HB)) in Hx2.
  injection Hx2 as Hx2.
  rewrite Osa in S4.
  rewrite (seq_length_of_shape B T n_embd x1 S3 HB) in S4.
  destruct S3 as [L3 _]. rewrite L3 in S4. rewrite <- Hx2 in S4.
  rewrite (FeedForward_forward_eq n_embd (ffwd self) keep B T _ Hff S4). cbn [bind].
  rewrite <- Hx1, map_map.
  destruct self; reflexivity.
Qed.

Lemma TimeSeriesTransformer_forward_eq (n_embd block_size : nat)
    (self : TimeSeriesTransformer) (keep : keep3) (x : mat) (B T : nat) :
  TimeSeriesTransformer_wf n_embd block_size self ->
  shape2 B T x -> 0 < B -> 0 < T -> T <= block_size ->
  TimeSeriesTransformer_forward self keep x
  = Ok (imap (fun b => TimeSeriesTransformer_sequence self (keep b)) x, self).
Proof.
  intros Hwf Hx HB HT Hbs.
  destruct (TimeSeriesTransformer_hidden_ok n_embd block_size self keep x B T
              Hwf Hx HB HT Hbs) as (hidden & Hh & Sh).
  destruct (TimeSeriesTransformer_forward_ok n_embd block_size self keep x B T hidden
              Hwf Hx HT Hh Sh) as [E _].
  rewrite E. f_equal. f_equal.
  rewrite (TimeSeriesTransformer_hidden_eq n_embd block_size self keep x B T
             Hwf Hx HB HT Hbs) in Hh.
  injection Hh as <-.
  pose proof Hx as [Lx Hrows].
  apply (nth_ext _ _ [] []).
  - rewrite length_map, !imap_length, length_map. reflexivity.
  - intros b Hb. rewrite length_map, imap_length, length_map in Hb.
    rewrite (map_nth_lt _ _ b [] []) by (rewrite imap_length, length_map; exact Hb).
    rewrite (imap_nth _ _ b [] []) by (rewrite length_map; exact Hb).
    rewrite (imap_nth _ x b [] []) by exact Hb.
    rewrite (map_nth_lt _ x b [] []) by exact Hb.
    unfold TimeSeriesTransformer_sequence.
    rewrite (shape2_nth b Hx) by lia. reflexivity.
Qed.

(** X12. The forecasting model treats every series of a batch by itself.
    For a constructed model and an input of shape [(B, T)] with
    [1 <= T <= block_size], [TimeSeriesTransformer.forward] returns [B]
    forecasts, and the forecast for batch element [b] is exactly what the
    model returns when it is given that series alone as a batch of one
    (with the same dropout draws): no information flows between the
    series of a batch. *)
Theorem TimeSeriesTransformer_forward_batch_independent
    (n_embd block_size horizon : nat) (w : TimeSeriesTransformerInit)
    (self : TimeSeriesTransformer) (keep : keep3) (x : mat) (B T : nat) :
  TimeSeriesTransformer_init n_embd block_size horizon w = Ok self ->
  shape2 B T x -> 0 < B -> 0 < T -> T <= block_size ->
  exists y,
    TimeSeriesTransformer_forward self keep x = Ok (y, self) /\
    length y = B /\
    forall b, b < B ->
      TimeSeriesTransformer_forward self (fun _ => keep b) [nth b x []]
      = Ok ([nth b y []], self).
Proof.
  intros Hinit Hx HB HT Hbs.
  apply TimeSeriesTransformer_init_wf in Hinit as [Hwf _].
  pose proof Hx as [Lx Hrows].
  eexists. split; [| split].
  - apply (TimeSeriesTransformer_forward_eq n_embd block_size self keep x B T);
      assumption.
  - rewrite imap_length. exact Lx.
  - intros b Hb.
    assert (Hxb : shape2 1 T [nth b x []]).
    { split; [reflexivity |]. constructor; [| constructor].
      apply (shape2_nth b Hx Hb). }
    rewrite (TimeSeriesTransformer_forward_eq n_embd block_size self (fun _ => keep b)
               [nth b x []] 1 T Hwf Hxb ltac:(lia) HT Hbs).
    rewrite (imap_nth _ x b [] []) by lia. reflexivity.
Qed.

Lemma TimeSeriesTransformer_forward_batch_independent_witness :
  exists y,
    TimeSeriesTransformer_forward toy_forecaster no_drop3 [[0; 1]; [2; 3]]%R
    = Ok (y, toy_forecaster) /\
    length y = 2 /\
    forall b, b < 2 ->
      TimeSeriesTransformer_forward toy_forecaster (fun _ => no_drop3 b)
        [nth b [[0; 1]; [2; 3]]%R []]
      = Ok ([nth b y []], toy_forecaster).
Proof.
  apply (TimeSeriesTransformer_forward_batch_independent 4 2 1
           zero_TimeSeriesTransformer_init toy_forecaster no_drop3
           [[0; 1]; [2; 3]]%R 2 2).
  - exact toy_forecaster_init.
  - repeat constructor.
  - lia.
  - lia.
  - lia.
Defined.

(** ** [InputEmbeddings] *)

Lemma mapM_Ok_or_Raise {A B : Type} (f : A -> result B) (l : list A) (e : exn) :
  (forall a, In a l -> f a = Raise e \/ exists b, f a = Ok b) ->
  mapM f l = Raise e \/ exists l', mapM f l = Ok l'.
Proof.
  induction l as [| a l IH]; intros Hall; simpl; [right; eexists; reflexivity |].
  destruct (Hall a (or_introl eq_refl)) as [-> | (b & ->)]; [left; reflexivity |].
  cbn [bind].
  destruct IH as [-> | (l' & ->)]; [intros; apply Hall; right; assumption | |].
  - left; reflexivity.
  - right; eexists; reflexivity.
Qed.

Lemma mapM_Raise_some {A B : Type} (f : A -> result B) (l : list A) (e : exn) :
  (forall a, In a l -> f a = Raise e \/ exists b, f a = Ok b) ->
  Exists (fun a => f a = Raise e) l ->
  mapM f l = Raise e.
Proof.
  intros Hall Hex. induction Hex as [a l Ha | a l _ IH]; simpl.
  - rewrite Ha. reflexivity.
  - destruct (Hall a (or_introl eq_refl)) as [-> | (b & ->)]; [reflexivity |].
    cbn [bind]. rewrite IH; [reflexivity |]. intros; apply Hall; right; assumption.
Qed.

Lemma Embedding_lookup_cases (table : mat) (id : Z) :
  ((0 <= id < Z.of_nat (length table))%Z ->
   Embedding_lookup table id = Ok (nth (Z.to_nat id) table [])) /\
  ((id < 0 \/ Z.of_nat (length table) <= id)%Z ->
   Embedding_lookup table id = Raise (IndexError "index out of range in self")).
Proof.
  unfold Embedding_lookup. split.
  - intros [H0 H1]. destruct (Z.ltb_spec id 0) as [Hneg | _]; [lia |].
    rewrite (nth_error_nth' table []) by lia. reflexivity.
  - intros H. destruct (Z.ltb_spec id 0) as [Hneg | Hpos]; [reflexivity |].
    rewrite (proj2 (nth_error_None table (Z.to_nat id))) by lia. reflexivity.
Qed.

Lemma Embedding_lookup_Ok_or_Raise (table : mat) (id : Z) :
  Embedding_lookup table id = Raise (IndexError "index out of range in self") \/
  exists row, Embedding_lookup table id = Ok row.
Proof.
  destruct (Embedding_lookup_cases table id) as [Hin Hout].
  destruct (Z_lt_ge_dec id 0) as [Hneg | Hpos]; [left; apply Hout; lia |].
  destruct (Z_lt_ge_dec id (Z.of_nat (length table))) as [Hlt | Hge].
  - right. eexists. apply Hin. lia.
  - left. apply Hout. lia.
Qed.

(** X13. [InputEmbeddings.forward] on a batch of token ids.  When every
    id lies in [0 .. vocab_size - 1] the call returns, for each id, its row
    of the embedding table multiplied by [sqrt(d_model)], so the result has
    [d_model] features per token.  As soon as one id is negative or not
    below [vocab_size] the call raises an [IndexError]; no id is wrapped
    around or clamped. *)
Theorem InputEmbeddings_forward_lookup (dm vocab_size : nat) (w : nat -> nat -> R)
    (x : list (list Z)) :
  (Forall (Forall (fun id => (0 <= id < Z.of_nat vocab_size)%Z)) x ->
   InputEmbeddings_forward (InputEmbeddings_init dm vocab_size w) x
   = Ok (map (map (fun id =>
           tabulate dm (fun k => (w (Z.to_nat id) k * sqrt (INR dm))%R))) x)) /\
  (Exists (Exists (fun id => (id < 0 \/ Z.of_nat vocab_size <= id)%Z)) x ->
   InputEmbeddings_forward (InputEmbeddings_init dm vocab_size w) x
   = Raise (IndexError "index out of range in self")).
Proof.
  unfold InputEmbeddings_forward, InputEmbeddings_init.
  cbn [embedding ie_d_model].
  set (table := tabulate vocab_size (fun i => tabulate dm (w i))).
  assert (Lt : length table = vocab_size) by apply tabulate_length.
  split.
  - intros Hx. rewrite Forall_forall in Hx.
    rewrite (mapM_pure _ (map (fun id => tabulate dm (w (Z.to_nat id))))).
    + cbn [bind]. f_equal. rewrite map_map. apply map_ext. intros row.
      rewrite map_map. apply map_ext. intros id.
      unfold tabulate. rewrite map_map. reflexivity.
    + intros row Hrow. apply mapM_pure. intros id Hid.
      pose proof (Hx row Hrow) as Hr. rewrite Forall_forall in Hr.
      pose proof (Hr id Hid) as Hrange.
      rewrite (proj1 (Embedding_lookup_cases table id)) by (rewrite Lt; exact Hrange).
      f_equal. unfold table.
      apply (tabulate_nth vocab_size (fun i => tabulate dm (w i))). lia.
  - intros Hx.
    rewrite (mapM_Raise_some _ x (IndexError "index out of range in self"));
      [reflexivity | |].
    + intros row _. apply mapM_Ok_or_Raise. intros id _.
      apply Embedding_lookup_Ok_or_Raise.
    + eapply Exists_impl; [| exact Hx]. intros row Hrow.
      apply mapM_Raise_some.
      * intros id _. apply Embedding_lookup_Ok_or_Raise.
      * eapply Exists_impl; [| exact Hrow]. intros id Hid.
        apply (proj2 (Embedding_lookup_cases table id)). rewrite Lt. exact Hid.
Qed.

Lemma InputEmbeddings_forward_lookup_witness :
  InputEmbeddings_forward (InputEmbeddings_init 2 3 (fun i k => INR (i + k))) [[2; 0]]%Z
  = Ok (map (map (fun id =>
          tabulate 2 (fun k => (INR (Z.to_nat id + k) * sqrt (INR 2))%R))) [[2; 0]]%Z) /\
  InputEmbeddings_forward (InputEmbeddings_init 2 3 (fun i k => INR (i + k))) [[2; 3]]%Z
  = Raise (IndexError "index out of range in self").
Proof.
  split.
  - apply (proj1 (InputEmbeddings_forward_lookup 2 3 (fun i k => INR (i + k)) [[2; 0]]%Z)).
    repeat constructor; lia.
  - apply (proj2 (InputEmbeddings_forward_lookup 2 3 (fun i k => INR (i + k)) [[2; 3]]%Z)).
    constructor. apply Exists_cons_tl. constructor. right. simpl. lia.
Defined.

(** ** [PositionalEmbedding.__init__] *)

Lemma setitem_row_length (start : nat) (row src : vec) :
  length (setitem_row start row src) = length row.
Proof. apply imap_length. Qed.

Lemma broadcast_nth (src : vec) (j : nat) :
  j < length src ->
  match src with [a] => a | _ => nth j src 0%R end = nth j src 0%R.
Proof.
  destruct src as [| a [| b src]]; simpl; intros H; try reflexivity.
  destruct j; [reflexivity | lia].
Qed.

Lemma setitem_row_even (row src : vec) (i : nat) :
  2 * i < length row -> i < length src ->
  nth (2 * i) (setitem_row 0 row src) 0%R = nth i src 0%R.
Proof.
  intros Hk Hi. unfold setitem_row.
  rewrite (imap_nth _ row (2 * i) 0%R 0%R Hk).
  cbn [Nat.leb andb]. rewrite Nat.sub_0_r.
  replace (Nat.even (2 * i)) with true
    by (symmetry; apply Nat.even_spec; exists i; reflexivity).
  replace (2 * i / 2) with i by (rewrite Nat.mul_comm, Nat.div_mul; lia).
  apply broadcast_nth, Hi.
Qed.

Lemma setitem_row_odd (row src : vec) (i : nat) :
  2 * i + 1 < length row -> i < length src ->
  nth (2 * i + 1) (setitem_row 1 row src) 0%R = nth i src 0%R.
Proof.
  intros Hk Hi. unfold setitem_row.
  rewrite (imap_nth _ row (2 * i + 1) 0%R 0%R Hk).
  replace (1 <=? 2 * i + 1) with true by (symmetry; apply Nat.leb_le; lia).
  replace (2 * i + 1 - 1) with (2 * i) by lia.
  replace (Nat.even (2 * i)) with true
    by (symmetry; apply Nat.even_spec; exists i; reflexivity).
  cbn [andb].
  replace (2 * i / 2) with i by (rewrite Nat.mul_comm, Nat.div_mul; lia).
  apply broadcast_nth, Hi.
Qed.

Lemma setitem_row_keeps_even (row src : vec) (i : nat) :
  2 * i < length row ->
  nth (2 * i) (setitem_row 1 row src) 0%R = nth (2 * i) row 0%R.
Proof.
  intros Hk. unfold setitem_row.
  rewrite (imap_nth _ row (2 * i) 0%R 0%R Hk).
  destruct (Nat.leb_spec 1 (2 * i)) as [H1 | H1]; [| reflexivity].
  replace (Nat.even (2 * i - 1)) with false; [reflexivity |].
  symmetry. rewrite <- Nat.negb_odd. apply negb_false_iff.
  apply Nat.odd_spec. exists (i - 1). lia.
Qed.

Lemma div_term_power (d i : nat) (pos : R) :
  0 < d ->
  (pos * div_term d i = pos / Rpower 10000 (INR (2 * i) / INR d))%R.
Proof.
  intros Hd. unfold div_term, Rpower.
  transitivity (pos * / exp (INR (2 * i) / INR d * ln 10000))%R; [| reflexivity].
  f_equal. rewrite <- exp_Ropp. f_equal. field.
  apply not_0_INR. lia.
Qed.

(** X14. The sinusoidal table that [PositionalEmbedding.__init__]
    registers.  For an even [d_model > 0] and a dropout rate in [0, 1] the
    constructor returns, its buffer [pe] has shape [(1, seq_len, d_model)],
    and for every position [pos] and every [i] with [2i < d_model] the
    entry at feature [2i] is [sin(pos / 10000^(2i / d_model))] and the entry
    at feature [2i + 1] is [cos(pos / 10000^(2i / d_model))]: sines and
    cosines interleave, and every entry lies in [-1, 1]. *)
Theorem PositionalEmbedding_init_table (dm seq_len : nat) (dropout : R) :
  (0 <= dropout <= 1)%R -> 0 < dm -> Nat.even dm = true ->
  exists self,
    PositionalEmbedding_init dm seq_len dropout = Ok self /\
    shape3 1 seq_len dm (pe self) /\
    forall pos i, pos < seq_len -> 2 * i < dm ->
      nth (2 * i) (nth pos (nth 0 (pe self) []) []) 0%R
      = sin (INR pos / Rpower 10000 (INR (2 * i) / INR dm)) /\
      nth (2 * i + 1) (nth pos (nth 0 (pe self) []) []) 0%R
      = cos (INR pos / Rpower 10000 (INR (2 * i) / INR dm)) /\
      (-1 <= nth (2 * i) (nth pos (nth 0 (pe self) []) []) 0 <= 1)%R /\
      (-1 <= nth (2 * i + 1) (nth pos (nth 0 (pe self) []) []) 0 <= 1)%R.
Proof.
  intros Hrate Hpos Heven.
  apply Nat.even_spec in Heven as (m & Hm).
  assert (Hn0 : strided_slots 0 dm = m).
  { unfold strided_slots. rewrite Nat.sub_0_r, Hm.
    replace (2 * m + 1) with (1 + m * 2) by lia.
    rewrite Nat.div_add by lia. reflexivity. }
  assert (Hn1 : strided_slots 1 dm = m).
  { unfold strided_slots. rewrite Hm.
    replace (2 * m - 1 + 1) with (m * 2) by lia.
    apply Nat.div_mul. lia. }
  unfold PositionalEmbedding_init.
  rewrite (nn_Dropout_ok dropout Hrate). cbn [bind].
  replace (dm =? 0) with false by (symmetry; apply Nat.eqb_neq; lia).
  unfold setitem_stride. rewrite Hn0, Hn1, Nat.eqb_refl. cbn [orb bind].
  eexists. split; [reflexivity |]. cbn [pe].
  set (angle := map (fun pos => tabulate m (fun i => (pos * div_term dm i)%R))
                    (tabulate seq_len INR)).
  set (pe0 := tabulate seq_len (fun _ => repeat 0%R dm)).
  assert (La : length angle = seq_len)
    by (unfold angle; rewrite length_map; apply tabulate_length).
  assert (L0 : length pe0 = seq_len) by apply tabulate_length.
  assert (L1 : length (zipWith (setitem_row 0) pe0 (map (map sin) angle)) = seq_len).
  { rewrite zipWith_length; rewrite ?length_map; lia. }
  assert (Hrow0 : forall pos, pos < seq_len -> nth pos pe0 [] = repeat 0%R dm).
  { intros pos Hp. unfold pe0. apply (tabulate_nth seq_len (fun _ => repeat 0%R dm)). exact Hp. }
  assert (Hang : forall pos, pos < seq_len ->
            nth pos angle [] = tabulate m (fun i => (INR pos * div_term dm i)%R)).
  { intros pos Hp. unfold angle.
    rewrite (map_nth_lt _ _ pos 0%R []) by (rewrite tabulate_length; exact Hp).
    rewrite (tabulate_nth seq_len INR pos 0%R Hp). reflexivity. }
  assert (Hrow : forall pos, pos < seq_len ->
            nth pos (zipWith (setitem_row 1)
                       (zipWith (setitem_row 0) pe0 (map (map sin) angle))
                       (map (map cos) angle)) []
            = setitem_row 1
                (setitem_row 0 (repeat 0%R dm)
                   (map sin (tabulate m (fun i => (INR pos * div_term dm i)%R))))
                (map cos (tabulate m (fun i => (INR pos * div_term dm i)%R)))).
  { intros pos Hp.
    rewrite (zipWith_nth _ _ _ pos [] [] []) by (rewrite ?length_map; lia).
    rewrite (zipWith_nth _ _ _ pos [] [] []) by (rewrite ?length_map; lia).
    rewrite !(map_nth_lt _ angle pos [] []) by lia.
    rewrite (Hrow0 pos Hp), (Hang pos Hp). reflexivity. }
  split.
  - split; [reflexivity |]. constructor; [| constructor].
    split; [rewrite zipWith_length; rewrite ?length_map; lia |].
    apply Forall_forall. intros r Hr.
    apply (In_nth _ _ []) in Hr as (pos & Hp & <-).
    rewrite zipWith_length in Hp by (rewrite ?length_map; lia). rewrite L1 in Hp.
    rewrite (Hrow pos Hp), !setitem_row_length. apply repeat_length.
  - intros pos i Hp Hi. cbn [nth].
    rewrite (Hrow pos Hp).
    assert (Him : i < m) by lia.
    assert (E0 : nth (2 * i)
              (setitem_row 1
                 (setitem_row 0 (repeat 0%R dm)
                    (map sin (tabulate m (fun i => (INR pos * div_term dm i)%R))))
                 (map cos (tabulate m (fun i => (INR pos * div_term dm i)%R)))) 0%R
            = sin (INR pos / Rpower 10000 (INR (2 * i) / INR dm))).
    { rewrite setitem_row_keeps_even by (rewrite setitem_row_length, repeat_length; lia).
      rewrite setitem_row_even
        by (rewrite ?repeat_length, ?length_map, ?tabulate_length; lia).
      rewrite (map_nth_lt sin _ i 0%R 0%R) by (rewrite tabulate_length; lia).
      rewrite (tabulate_nth m _ i 0%R Him).
      rewrite (div_term_power dm i (INR pos) Hpos). reflexivity. }
    assert (E1 : nth (2 * i + 1)
              (setitem_row 1
                 (setitem_row 0 (repeat 0%R dm)
                    (map sin (tabulate m (fun i => (INR pos * div_term dm i)%R))))
                 (map cos (tabulate m (fun i => (INR pos * div_term dm i)%R)))) 0%R
            = cos (INR pos / Rpower 10000 (INR (2 * i) / INR dm))).
    { rewrite setitem_row_odd
        by (rewrite ?setitem_row_length, ?repeat_length, ?length_map, ?tabulate_length; lia).
      rewrite (map_nth_lt cos _ i 0%R 0%R) by (rewrite tabulate_length; lia).
      rewrite (tabulate_nth m _ i 0%R Him).
      rewrite (div_term_power dm i (INR pos) Hpos). reflexivity. }
    rewrite E0, E1.
    split; [reflexivity |]. split; [reflexivity |].
    split; [apply SIN_bound | apply COS_bound].
Qed.

Lemma PositionalEmbedding_init_table_witness :
  exists self,
    PositionalEmbedding_init 4 3 (1 / 10) = Ok self /\
    shape3 1 3 4 (pe self) /\
    forall pos i, pos < 3 -> 2 * i < 4 ->
      nth (2 * i) (nth pos (nth 0 (pe self) []) []) 0%R
      = sin (INR pos / Rpower 10000 (INR (2 * i) / INR 4)) /\
      nth (2 * i + 1) (nth pos (nth 0 (pe self) []) []) 0%R
      = cos (INR pos / Rpower 10000 (INR (2 * i) / INR 4)) /\
      (-1 <= nth (2 * i) (nth pos (nth 0 (pe self) []) []) 0 <= 1)%R /\
      (-1 <= nth (2 * i + 1) (nth pos (nth 0 (pe self) []) []) 0 <= 1)%R.
Proof.
  apply (PositionalEmbedding_init_table 4 3 (1 / 10)).
  - lra.
  - lia.
  - reflexivity.
Defined.

(** X15. [PositionalEmbedding.__init__] has no table for an odd
    [d_model >= 3]: the sine columns [0::2] take all [(d_model + 1) / 2]
    frequencies, but the cosine columns [1::2] are one fewer, and the second
    assignment raises.  With [d_model = 0] the constructor raises a
    [ZeroDivisionError] when it divides by [d_model]. *)
Theorem PositionalEmbedding_init_errors (dm seq_len : nat) (dropout : R) :
  (0 <= dropout <= 1)%R ->
  (Nat.odd dm = true -> 3 <= dm ->
   PositionalEmbedding_init dm seq_len dropout
   = Raise (RuntimeError
              "The expanded size of the tensor must match the existing size")) /\
  (dm = 0 ->
   PositionalEmbedding_init dm seq_len dropout
   = Raise (ZeroDivisionError "float division by zero")).
Proof.
  intros Hrate. split.
  - intros Hodd Hge. apply Nat.odd_spec in Hodd as (m & Hm).
    assert (Hn0 : strided_slots 0 dm = m + 1).
    { unfold strided_slots. rewrite Nat.sub_0_r, Hm.
      replace (2 * m + 1 + 1) with ((m + 1) * 2) by lia.
      apply Nat.div_mul. lia. }
    assert (Hn1 : strided_slots 1 dm = m).
    { unfold strided_slots. rewrite Hm.
      replace (2 * m + 1 - 1 + 1) with (1 + m * 2) by lia.
      rewrite Nat.div_add by lia. reflexivity. }
    unfold PositionalEmbedding_init.
    rewrite (nn_Dropout_ok dropout Hrate). cbn [bind].
    replace (dm =? 0) with false by (symmetry; apply Nat.eqb_neq; lia).
    unfold setitem_stride. rewrite Hn0, Hn1, Nat.eqb_refl. cbn [orb bind].
    replace (m + 1 =? m) with false by (symmetry; apply Nat.eqb_neq; lia).
    replace (m + 1 =? 1) with false by (symmetry; apply Nat.eqb_neq; lia).
    reflexivity.
  - intros ->. unfold PositionalEmbedding_init.
    rewrite (nn_Dropout_ok dropout Hrate). reflexivity.
Qed.

Lemma PositionalEmbedding_init_errors_witness :
  PositionalEmbedding_init 5 3 (1 / 10)
  = Raise (RuntimeError "The expanded size of the tensor must match the existing size") /\
  PositionalEmbedding_init 0 3 (1 / 10)
  = Raise (ZeroDivisionError "float division by zero").
Proof.
  assert (Hrate : (0 <= 1 / 10 <= 1)%R) by lra.
  split.
  - apply (proj1 (PositionalEmbedding_init_errors 5 3 (1 / 10) Hrate)).
    + reflexivity.
    + lia.
  - apply (proj2 (PositionalEmbedding_init_errors 0 3 (1 / 10) Hrate)). reflexivity.
Defined.

(** ** [LayerNormalization.forward]: moments and invariance *)













(** ** [MultiHeadAttentionBlock.forward]: splitting and merging heads *)

Lemma tabulate_nth_id {A : Type} (l : list A) (d : A) :
  tabulate (length l) (fun i => nth i l d) = l.
Proof.
  induction l as [| a l IH]; [reflexivity |].
  cbn [length]. rewrite tabulate_S. cbn [nth]. rewrite IH. reflexivity.
Qed.

Lemma concat_chunks {A : Type} (n d : nat) (row : list A) :
  length row = n * d ->
  concat (tabulate n (fun head => firstn d (skipn (head * d) row))) = row.
Proof.
  revert row; induction n as [| n IH]; intros row H.
  - simpl in H. apply length_zero_iff_nil in H. subst. reflexivity.
  - rewrite tabulate_S. cbn [concat]. cbn [Nat.mul skipn].
    rewrite (tabulate_ext n _ (fun head => firstn d (skipn (head * d) (skipn d row)))).
    + rewrite IH by (rewrite length_skipn; simpl in H; lia).
      apply firstn_skipn.
    + intros i _. rewrite skipn_skipn. f_equal. f_equal. lia.
Qed.

(** X18. Splitting into heads and merging back is the identity: for a
    tensor of shape [(B, T, h * d_k)] with [B], [h], [d_k] positive,
    [.view(B, T, h, d_k).transpose(1, 2)] followed by
    [.transpose(1, 2).contiguous().view(B, -1, h * d_k)] returns the tensor
    it started from; head [n] holds the features
    [n * d_k .. (n + 1) * d_k - 1] of every position. *)
Theorem merge_heads_split_heads (B T nh dk : nat) (t : tensor3) :
  shape3 B T (nh * dk) t -> 0 < B -> 0 < nh -> 0 < dk ->
  exists t4,
    split_heads nh dk t = Ok t4 /\
    shape4 B nh T dk t4 /\
    (forall b n i, b < B -> n < nh -> i < T ->
       nth i (nth n (nth b t4 []) []) []
       = firstn dk (skipn (n * dk) (nth i (nth b t []) []))) /\
    merge_heads nh dk t4 = Ok t.
Proof.
  intros Ht PB Pn Pd.
  destruct (split_heads_eq B T nh dk t Ht) as [E S4].
  eexists. split; [exact E |]. split; [exact S4 |]. split.
  - intros b n i Hb Hn Hi. pose proof Ht as [Lt _].
    pose proof (shape3_nth b Ht Hb) as [Lb _].
    rewrite (map_nth_lt _ t b [] []) by lia.
    rewrite (tabulate_nth _ _ n []) by exact Hn.
    rewrite (map_nth_lt _ _ i [] []) by lia. reflexivity.
  - pose proof S4 as [L4 H4]. rewrite Forall_forall in H4.
    unfold merge_heads. rewrite L4.
    assert (Hne : B * (nh * dk) <> 0) by nia.
    rewrite (proj2 (Nat.eqb_neq _ _) Hne).
    rewrite mapM_map.
    rewrite <- (map_id t) at 2. apply mapM_pure. intros tb Htb.
    destruct Ht as [_ Ht]. rewrite Forall_forall in Ht.
    destruct (Ht tb Htb) as [LT Hrows]. rewrite Forall_forall in Hrows.
    assert (S3 : shape3 nh T dk
              (tabulate nh (fun head =>
                 map (fun row => firstn dk (skipn (head * dk) row)) tb))).
    { apply H4. apply in_map_iff. exists tb. split; [reflexivity | exact Htb]. }
    rewrite tabulate_length, Nat.eqb_refl, (forallb_rows nh T dk _ S3). cbn [andb].
    f_equal.
    assert (Lhd : length (hd [] (tabulate nh (fun head =>
                    map (fun row => firstn dk (skipn (head * dk) row)) tb))) = T).
    { destruct S3 as [L3 H3].
      destruct (tabulate nh _) as [| h0 r]; [simpl in L3; lia |].
      apply Forall_inv in H3. destruct H3 as [L _]. exact L. }
    rewrite Lhd. cbn [id].
    transitivity (tabulate T (fun i => nth i tb []));
      [| rewrite <- LT; apply tabulate_nth_id].
    apply tabulate_ext. intros i Hi.
    unfold tabulate at 1. rewrite map_map.
    rewrite (map_ext_in _ (fun head => firstn dk (skipn (head * dk) (nth i tb [])))).
    + apply (concat_chunks nh dk). apply Hrows, nth_In. lia.
    + intros n _.
      apply (map_nth_lt (fun row => firstn dk (skipn (n * dk) row)) tb i [] []). lia.
Qed.

Lemma merge_heads_split_heads_witness :
  exists t4,
    split_heads 2 1 toy_x2 = Ok t4 /\
    shape4 1 2 1 1 t4 /\
    (forall b n i, b < 1 -> n < 2 -> i < 1 ->
       nth i (nth n (nth b t4 []) []) []
       = firstn 1 (skipn (n * 1) (nth i (nth b toy_x2 []) []))) /\
    merge_heads 2 1 t4 = Ok toy_x2.
Proof.
  apply (merge_heads_split_heads 1 1 2 1 toy_x2).
  - repeat constructor.
  - lia.
  - lia.
  - lia.
Defined.

(** ** [MultiHeadAttentionBlock.attention]: what the mask does *)

Lemma expand_nth {A : Type} (n : nat) (l l' : list A) (i : nat) (d : A) :
  expand n l = Ok l' -> i < n -> nth i l' d = bnth i l d.
Proof.
  unfold expand, bnth. intros H Hi. destruct (Nat.eqb_spec (length l) n) as [E | E].
  - injection H as <-. destruct l as [| a [| a' l]]; try reflexivity.
    simpl in E. subst n. destruct i; [reflexivity | lia].
  - destruct l as [| a [| a' l]]; try discriminate. injection H as <-.
    apply nth_repeat_lt. exact Hi.
Qed.

Lemma bnth_In {A : Type} (n : nat) (l : list A) (i : nat) (d : A) :
  fits n l -> i < n -> In (bnth i l d) l.
Proof.
  intros [H | H] Hi; unfold bnth.
  - destruct l as [| a [| a' l]]; [simpl in H; lia | left; reflexivity |].
    apply nth_In. lia.
  - destruct l as [| a [| a' l]]; simpl in H; try lia. left; reflexivity.
Qed.

Lemma bfill_nth {A B : Type} (f : A -> B -> result A) (scores r : list A) (mask : list B)
    (i : nat) (da : A) (db : B) :
  bfill f scores mask = Ok r -> i < length scores ->
  f (nth i scores da) (bnth i mask db) = Ok (nth i r da).
Proof.
  unfold bfill. intros H Hi.
  apply bind_Ok_inv in H as (m & Hm & H).
  pose proof (expand_length _ _ _ Hm) as Lm.
  pose proof (mapM_nth _ _ _ i (da, db) da H) as E.
  rewrite length_combine, Lm, Nat.min_id in E. specialize (E Hi).
  rewrite combine_nth in E by lia. cbn [fst snd] in E.
  rewrite (expand_nth _ _ _ i db Hm Hi) in E. exact E.
Qed.

Lemma shape4_nth {A : Type} {a b n m : nat} {x : list (list (list (list A)))}
    (i1 i2 i3 : nat) :
  shape4 a b n m x -> i1 < a -> i2 < b -> i3 < n ->
  length x = a /\ length (nth i1 x []) = b /\ length (nth i2 (nth i1 x []) []) = n /\
  length (nth i3 (nth i2 (nth i1 x []) []) []) = m.
Proof.
  intros [Lx Hx] H1 H2 H3. rewrite Forall_forall in Hx.
  assert (S3 : shape3 b n m (nth i1 x [])) by (apply Hx, nth_In; lia).
  pose proof (shape3_nth i2 S3 H2) as S2.
  pose proof (shape2_nth i3 S2 H3) as L4.
  destruct S3 as [L2 _]. destruct S2 as [L3 _].
  repeat split; assumption.
Qed.

Lemma masked_fill_entry (B H Tq Tk : nat) (s r : tensor4) (m : mask4) (b n i j : nat) :
  shape4 B H Tq Tk s -> broadcastable4 B H Tq Tk m ->
  bfill (bfill (bfill (bfill fill_1e9))) s m = Ok r ->
  b < B -> n < H -> i < Tq -> j < Tk ->
  nth j (nth i (nth n (nth b r []) []) []) 0%R
  = if (mask4_at m b n i j =? 0)%Z then (-1000000000)%R
    else nth j (nth i (nth n (nth b s []) []) []) 0%R.
Proof.
  intros Ss [FB HM] Hr Hb Hn Hi Hj.
  destruct (shape4_nth b n i Ss Hb Hn Hi) as (L1 & L2 & L3 & L4).
  rewrite Forall_forall in HM.
  pose proof (bfill_nth _ s r m b [] [] Hr ltac:(lia)) as E1.
  destruct (HM _ (bnth_In B m b [] FB Hb)) as [FH HM3].
  rewrite Forall_forall in HM3.
  pose proof (bfill_nth _ _ _ _ n [] [] E1 ltac:(lia)) as E2.
  destruct (HM3 _ (bnth_In H (bnth b m []) n [] FH Hn)) as [FT HM2].
  pose proof (bfill_nth _ _ _ _ i [] [] E2 ltac:(lia)) as E3.
  pose proof (bfill_nth _ _ _ _ j 0%R 1%Z E3 ltac:(lia)) as E4.
  unfold fill_1e9 in E4. injection E4 as E4. symmetry. exact E4.
Qed.

Lemma Rsum_repeat (c : R) (n : nat) : Rsum (repeat c n) = (INR n * c)%R.
Proof.
  induction n as [| n IH]; [simpl; ring |].
  cbn [repeat Rsum fold_right]. fold (Rsum (repeat c n)). rewrite IH, S_INR. ring.
Qed.

Lemma softmax_constant (c : R) (row : vec) (j : nat) :
  (forall k, k < length row -> nth k row 0%R = c) -> j < length row ->
  nth j (softmax row) 0%R = (/ INR (length row))%R.
Proof.
  intros Hc Hj.
  assert (E : row = repeat c (length row)).
  { apply (nth_ext _ _ 0%R 0%R); [rewrite repeat_length; reflexivity |].
    intros k Hk. rewrite (Hc k Hk), nth_repeat_lt by exact Hk. reflexivity. }
  unfold softmax.
  rewrite (map_nth_lt _ row j 0%R 0%R Hj), (Hc j Hj).
  rewrite E at 1. rewrite map_repeat, Rsum_repeat.
  field. split; [apply not_0_INR; lia |].
  pose proof (exp_pos c). lra.
Qed.

Lemma shape4_ext {A : Type} (a b n m : nat) (x y : list (list (list (list A)))) (d : A) :
  shape4 a b n m x -> shape4 a b n m y ->
  (forall i1 i2 i3 i4, i1 < a -> i2 < b -> i3 < n -> i4 < m ->
     nth i4 (nth i3 (nth i2 (nth i1 x []) []) []) d
     = nth i4 (nth i3 (nth i2 (nth i1 y []) []) []) d) ->
  x = y.
Proof.
  intros [Lx Hx] [Ly Hy] H. rewrite Forall_forall in Hx, Hy.
  apply (nth_ext _ _ [] []); [lia |]. intros i1 H1. rewrite Lx in H1.
  assert (Sx3 : shape3 b n m (nth i1 x [])) by (apply Hx, nth_In; lia).
  assert (Sy3 : shape3 b n m (nth i1 y [])) by (apply Hy, nth_In; lia).
  pose proof Sx3 as [Lx2 _]. pose proof Sy3 as [Ly2 _].
  apply (nth_ext _ _ [] []); [lia |]. intros i2 H2. rewrite Lx2 in H2.
  pose proof (shape3_nth i2 Sx3 H2) as Sx2.
  pose proof (shape3_nth i2 Sy3 H2) as Sy2.
  pose proof Sx2 as [Lx3 _]. pose proof Sy2 as [Ly3 _].
  apply (nth_ext _ _ [] []); [lia |]. intros i3 H3. rewrite Lx3 in H3.
  pose proof (shape2_nth i3 Sx2 H3) as Lx4.
  pose proof (shape2_nth i3 Sy2 H3) as Ly4.
  apply (nth_ext _ _ d d); [lia |]. intros i4 H4. rewrite Lx4 in H4.
  apply H; assumption.
Qed.

(** X19. What the mask does in [MultiHeadAttentionBlock.attention].  For
    well-shaped [query] and [key] and a mask that broadcasts to the scores:
    a query row whose mask entries are all zero gets the uniform weight
    [1 / Tk] on every key (the fill value [-1e9] is finite, so the row is
    not NaN, unlike in the forecasting model's [Attention]); and a mask
    without any zero entry changes nothing, the softmax output is the one
    computed without a mask. *)
Theorem MultiHeadAttentionBlock_softmax_masked (B H Tq Tk d : nat) (query key : tensor4)
    (m : mask4) :
  shape4 B H Tq d query -> shape4 B H Tk d key ->
  0 < B -> 0 < H -> 0 < Tq -> 0 < Tk -> 0 < d ->
  broadcastable4 B H Tq Tk m ->
  exists S,
    MultiHeadAttentionBlock_softmax query key (Some m) = Ok S /\
    (forall b n i, b < B -> n < H -> i < Tq ->
       (forall j, j < Tk -> mask4_at m b n i j = 0%Z) ->
       forall j, j < Tk ->
         nth j (nth i (nth n (nth b S []) []) []) 0%R = (/ INR Tk)%R) /\
    ((forall b n i j, b < B -> n < H -> i < Tq -> j < Tk -> mask4_at m b n i j <> 0%Z) ->
     MultiHeadAttentionBlock_softmax query key None = Ok S).
Proof.
  intros Hq Hk PB PH PT PK Pd Hm.
  destruct (raw_scores4_eq B H Tq Tk d query key Hq Hk) as [E S0].
  unfold MultiHeadAttentionBlock_softmax, last_dim4.
  rewrite (shape4_nth_hd B H Tq d query Hq PB PH PT).
  rewrite E. cbn [bind].
  rewrite (mapM4_pure (div_sqrt d) (fun s => (s / sqrt (INR d))%R)).
  2:{ intros s. unfold div_sqrt. rewrite (proj2 (Nat.eqb_neq d 0)) by lia. reflexivity. }
  cbn [bind].
  pose proof (shape4_map (fun s => (s / sqrt (INR d))%R) B H Tq Tk _ S0) as S1.
  destruct (masked_fill_total B H Tq Tk _ m S1 Hm) as (r & Hr & Sr).
  rewrite Hr. cbn [bind]. eexists; split; [reflexivity |]. split.
  - intros b n i Hb Hn Hi Hzero j Hj.
    destruct (shape4_nth b n i Sr Hb Hn Hi) as (L1 & L2 & L3 & L4).
    rewrite (map_nth_lt _ r b [] []) by lia.
    rewrite (map_nth_lt _ _ n [] []) by lia.
    rewrite (map_nth_lt _ _ i [] []) by lia.
    rewrite <- L4. apply (softmax_constant (-1000000000)%R); [| lia].
    intros k Hlt. rewrite L4 in Hlt.
    rewrite (masked_fill_entry B H Tq Tk _ r m b n i k S1 Hm Hr Hb Hn Hi Hlt).
    rewrite (Hzero k Hlt). reflexivity.
  - intros Hones. f_equal. f_equal. symmetry.
    apply (shape4_ext B H Tq Tk _ _ 0%R Sr S1).
    intros b n i j Hb Hn Hi Hj.
    rewrite (masked_fill_entry B H Tq Tk _ r m b n i j S1 Hm Hr Hb Hn Hi Hj).
    destruct (Z.eqb_spec (mask4_at m b n i j) 0) as [E0 | _]; [| reflexivity].
    exfalso. exact (Hones b n i j Hb Hn Hi Hj E0).
Qed.

Lemma MultiHeadAttentionBlock_softmax_masked_witness :
  exists S,
    MultiHeadAttentionBlock_softmax [[[[0]; [0]]]]%R [[[[0]; [0]]]]%R
      (Some [[[[0; 0]%Z]]]) = Ok S /\
    forall i j, i < 2 -> j < 2 ->
      nth j (nth i (nth 0 (nth 0 S []) []) []) 0%R = (/ INR 2)%R.
Proof.
  destruct (MultiHeadAttentionBlock_softmax_masked 1 1 2 2 1
              [[[[0]; [0]]]]%R [[[[0]; [0]]]]%R [[[[0; 0]%Z]]])
    as (S & HS & Hzero & _).
  - repeat constructor.
  - repeat constructor.
  - lia.
  - lia.
  - lia.
  - lia.
  - lia.
  - split; [right; reflexivity |].
    repeat (constructor; [split; [first [left; reflexivity | right; reflexivity] |] |]).
    all: repeat constructor.
  - exists S. split; [exact HS |].
    intros i j Hi Hj. apply (Hzero 0 0 i); try lia.
    intros k Hk. destruct k as [| [| k]]; [reflexivity | reflexivity | lia].
Defined.

(** ** [Encoder.forward] and [Decoder.forward] *)

Lemma DecoderBlock_forward_never_returns (self : DecoderBlock) (noise : DecoderNoise)
    (x encoder_output : tensor3) (src_mask tgt_mask : option mask4)
    (r : tensor3 * DecoderBlock) :
  DecoderBlock_forward self noise x encoder_output src_mask tgt_mask <> Ok r.
Proof.
  rewrite DecoderBlock_forward_eq.
  destruct (index (residual_connections self) 0) as [rc0 | e |]; cbn [bind];
    try discriminate.
  destruct (LayerNormalization_forward (rc_norm rc0) x) as [n | e |]; discriminate.
Qed.

(** X20. The layer loops of [Encoder.forward] and [Decoder.forward].
    With an empty list of layers both return the final normalisation of
    their input.  With at least one layer neither returns: [Encoder.forward]
    calls its first layer with [(x, mask)], two arguments where
    [EncoderBlock.forward] takes [src_mask] only, and raises a [TypeError];
    [Decoder.forward] fails inside its first [DecoderBlock]. *)
Theorem Encoder_Decoder_forward_layers :
  (forall (self : Encoder) (x : tensor3) (mask : option mask4),
     enc_layers self = [] ->
     Encoder_forward self x mask = LayerNormalization_forward (enc_norm self) x) /\
  (forall (self : Encoder) (x : tensor3) (mask : option mask4),
     enc_layers self <> [] ->
     Encoder_forward self x mask
     = Raise (TypeError "forward() takes 2 positional arguments but 3 were given")) /\
  (forall (self : Decoder) (noise : nat -> DecoderNoise) (x encoder_output : tensor3)
          (src_mask tgt_mask : option mask4),
     dec_layers self = [] ->
     output_of (Decoder_forward self noise x encoder_output src_mask tgt_mask)
     = LayerNormalization_forward (dec_norm self) x) /\
  (forall (self : Decoder) (noise : nat -> DecoderNoise) (x encoder_output : tensor3)
          (src_mask tgt_mask : option mask4) (r : tensor3 * Decoder),
     dec_layers self <> [] ->
     Decoder_forward self noise x encoder_output src_mask tgt_mask <> Ok r).
Proof.
  repeat match goal with |- _ /\ _ => split end.
  - intros self x mask E. unfold Encoder_forward. rewrite E. reflexivity.
  - intros self x mask Hne. unfold Encoder_forward.
    destruct (enc_layers self) as [| layer rest]; [congruence | reflexivity].
  - intros self noise x enc src tgt E. unfold Decoder_forward. rewrite E.
    cbn [Decoder_layers bind].
    destruct (LayerNormalization_forward (dec_norm self) x); reflexivity.
  - intros self noise x enc src tgt r Hne. unfold Decoder_forward.
    destruct (dec_layers self) as [| layer rest]; [congruence |].
    cbn [Decoder_layers].
    destruct (DecoderBlock_forward layer (noise 0) x enc src tgt) as [r0 | e |] eqn:E;
      cbn [bind]; try discriminate.
    exfalso. exact (DecoderBlock_forward_never_returns _ _ _ _ _ _ _ E).
Qed.

Lemma Encoder_Decoder_forward_layers_witness :
  Encoder_forward {| enc_layers := []; enc_norm := toy_norm |} toy_x2 None
  = LayerNormalization_forward toy_norm toy_x2 /\
  output_of (Decoder_forward {| dec_layers := [toy_decoder_block]; dec_norm := toy_norm |}
               (fun _ => toy_noise) toy_x2 toy_x2 None None)
  <> Ok toy_x2.
Proof.
  destruct Encoder_Decoder_forward_layers as (H1 & _ & _ & H4).
  split.
  - apply (H1 {| enc_layers := []; enc_norm := toy_norm |}). reflexivity.
  - intros E.
    destruct (Decoder_forward {| dec_layers := [toy_decoder_block]; dec_norm := toy_norm |}
                (fun _ => toy_noise) toy_x2 toy_x2 None None) as [r | e |] eqn:Er;
      try discriminate.
    apply (H4 _ _ _ _ _ _ r) in Er; [exact Er | discriminate].
Defined.

(** ** [ProjectionLayer] *)

Lemma exp_log_softmax (r : vec) : r <> [] -> map exp (log_softmax r) = softmax r.
Proof.
  intros Hr. pose proof (Rsum_exp_pos r Hr) as Hz.
  unfold log_softmax, softmax. rewrite map_map. apply map_ext. intros s.
  unfold Rminus. rewrite exp_plus, exp_Ropp, (exp_ln _ Hz). reflexivity.
Qed.

Lemma Rsum_ge_member (ws : list R) (a : R) :
  Forall (fun w => (0 <= w)%R) ws -> In a ws -> (a <= Rsum ws)%R.
Proof.
  induction 1 as [| w ws Hw Hws IH]; intros Hin; [contradiction |].
  cbn [Rsum fold_right]. fold (Rsum ws).
  pose proof (Rsum_nonneg ws Hws).
  destruct Hin as [-> | Hin]; [lra | specialize (IH Hin); lra].
Qed.

(** X21. [ProjectionLayer.forward] returns log-probabilities.  For a
    layer built by [__init__] with a non-empty vocabulary and an input of
    shape [(B, T, d_model)], the call returns a tensor of shape
    [(B, T, vocab_size)]; at every position the exponentials of the output
    are the softmax of the projected features, so they add up to one, and
    no output entry is positive. *)
Theorem ProjectionLayer_forward_log_probabilities (dm vocab_size : nat) (w : LinearInit)
    (x : tensor3) (B T : nat) :
  shape3 B T dm x -> 0 < vocab_size ->
  exists y,
    ProjectionLayer_forward (ProjectionLayer_init dm vocab_size w) x = Ok y /\
    shape3 B T vocab_size y /\
    forall b i, b < B -> i < T ->
      map exp (nth i (nth b y []) [])
      = softmax (affine (nn_Linear dm vocab_size true w) (nth i (nth b x []) [])) /\
      Rsum (map exp (nth i (nth b y []) [])) = 1%R /\
      Forall (fun a => (a <= 0)%R) (nth i (nth b y []) []).
Proof.
  intros Hx HV.
  unfold ProjectionLayer_forward, ProjectionLayer_init. cbn [proj].
  set (l := nn_Linear dm vocab_size true w).
  pose proof (nn_Linear_wf dm vocab_size true w) as Hl. fold l in Hl.
  rewrite (Linear_forward_shape l B T x) by exact Hx. cbn [bind].
  pose proof (affine_shape3 l Hl Hx) as Sy.
  change (out_features l) with vocab_size in Sy.
  eexists. split; [reflexivity |]. split.
  - destruct Sy as [Ly Hy]. split; [rewrite length_map; exact Ly |].
    apply Forall_forall. intros m Hm. apply in_map_iff in Hm as (m0 & <- & Hm0).
    rewrite Forall_forall in Hy. destruct (Hy m0 Hm0) as [Lm Hrows].
    split; [rewrite length_map; exact Lm |].
    apply Forall_forall. intros r Hr. apply in_map_iff in Hr as (r0 & <- & Hr0).
    unfold log_softmax. rewrite length_map.
    rewrite Forall_forall in Hrows. apply Hrows, Hr0.
  - intros b i Hb Hi. pose proof Hx as [Lx _].
    pose proof (shape3_nth b Hx Hb) as [Lb _].
    rewrite (map_nth_lt _ _ b [] []) by (rewrite length_map; lia).
    rewrite (map_nth_lt _ _ i [] []).
    2:{ rewrite (map_nth_lt _ x b [] []) by lia. rewrite length_map. lia. }
    rewrite (map_nth_lt _ x b [] []) by lia.
    rewrite (map_nth_lt _ _ i [] []) by lia.
    set (r := affine l (nth i (nth b x []) [])).
    assert (Hr : r <> []).
    { intros E. apply (f_equal (@length R)) in E. unfold r in E.
      rewrite (affine_length l _ Hl) in E. simpl in E. lia. }
    pose proof (softmax_prob_row r Hr) as [Hnn Hsum].
    rewrite (exp_log_softmax r Hr).
    split; [reflexivity |]. split; [exact Hsum |].
    apply Forall_forall. intros a Ha.
    assert (He : In (exp a) (softmax r)).
    { rewrite <- (exp_log_softmax r Hr). apply in_map. exact Ha. }
    pose proof (Rsum_ge_member _ _ Hnn He) as Hle. rewrite Hsum in Hle.
    destruct (Rle_or_lt a 0) as [H0 | H0]; [exact H0 |].
    apply exp_increasing in H0. rewrite exp_0 in H0. lra.
Qed.

Lemma ProjectionLayer_forward_log_probabilities_witness :
  exists y,
    ProjectionLayer_forward (ProjectionLayer_init 2 3 zero_Linear_init) toy_x2 = Ok y /\
    shape3 1 1 3 y /\
    forall b i, b < 1 -> i < 1 ->
      map exp (nth i (nth b y []) [])
      = softmax (affine (nn_Linear 2 3 true zero_Linear_init) (nth i (nth b toy_x2 []) [])) /\
      Rsum (map exp (nth i (nth b y []) [])) = 1%R /\
      Forall (fun a => (a <= 0)%R) (nth i (nth b y []) []).
Proof.
  apply (ProjectionLayer_forward_log_probabilities 2 3 zero_Linear_init toy_x2 1 1).
  - repeat constructor.
  - lia.
Defined.
